(** * Arkemis money: exact monetary values and the IFX qualification layer

    A shallow embedding of [money/core.py] (currencies, rounding, the
    [Money] value type) and of [money/ifx.py] (signed transactions, the
    gate, the hash-chained ledger and the qualification workflow),
    followed by the properties established about them.

    Conventions of the embedding.
    - A Python [int] is a [Z]; [//] and [%] are [Z.div] and [Z.modulo]
      (floor division, remainder with the sign of the divisor).
    - A Python [float] is read in two ways.  Where the source applies
      [math.floor], [math.ceil], [int], [round] or a comparison to a float,
      or computes on floats on which its operations are exact, the float is
      the rational number it denotes ([Q]), and NaN and the infinities are
      left out.  The functions that round the result of a float product,
      quotient or sum ([add_vat], [extract_vat], [apply_discount],
      [distribute_weighted]) are given in module [Binary64] as the
      interpreter runs them: on IEEE 754 binary64 numbers, with their
      rounding, their infinities and NaN, and with the exceptions raised by
      the conversions between [int] and [float].
    - A raised exception is the [Raise] case of [result]; the exception
      class and its message are kept.
    - A [dict] handed to [json.dumps] is a [json] tree whose keys are
      listed in the order of the source. *)

From Stdlib Require Import ZArith QArith Qround Bool String Ascii List Lia Lqa DecimalString.
From Stdlib Require Import SpecFloat.
From stdpp Require Import base list strings.
Import ListNotations.
Open Scope string_scope.
Open Scope list_scope.
Open Scope Z_scope.

(* ================================================================== *)
(** ** Python runtime values shared by both modules *)
(* ================================================================== *)

(** Exception classes raised by the code under study. *)
Inductive exn_class : Set :=
| ValueError
| TypeError
| ZeroDivisionError
| IndexError
| RuntimeError
| OverflowError.

(** An exception instance; [exn_msg] is what [str(e)] returns. *)
Record exn : Set := Exn { exn_cls : exn_class; exn_msg : string }.

Inductive result (A : Type) : Type :=
| Ok (a : A)
| Raise (e : exn).
Arguments Ok {A} a.
Arguments Raise {A} e.

Definition bind {A B : Type} (r : result A) (k : A -> result B) : result B :=
  match r with
  | Ok a => k a
  | Raise e => Raise e
  end.

Notation "x <- r ;; k" := (bind r (fun x => k))
  (at level 100, r at next level, right associativity).

Definition raises {A : Type} (r : result A) (c : exn_class) : Prop :=
  exists msg, r = Raise (Exn c msg).

(** [[f(x) for x in l]] when [f] may raise: the first exception ends the
    comprehension. *)
Fixpoint map_result {A B : Type} (f : A -> result B) (l : list A)
    : result (list B) :=
  match l with
  | [] => Ok []
  | x :: l' => y <- f x ;; ys <- map_result f l' ;; Ok (y :: ys)
  end.

(** [str(z)] for an integer. *)
Definition str_of_Z (z : Z) : string := NilZero.string_of_int (Z.to_int z).

(** Values accepted by [json.dumps]. *)
#[warnings="-register-all"]
Inductive json : Type :=
| JNull
| JBool (b : bool)
| JInt (z : Z)
| JFloat (q : Q)
| JStr (s : string)
| JList (l : list json)
| JDict (kv : list (string * json)).

(** [x if x is not None else None] on an optional string. *)
Definition json_opt_str (o : option string) : json :=
  match o with
  | Some s => JStr s
  | None => JNull
  end.

Definition Qlt_bool (a b : Q) : bool := negb (Qle_bool b a).

(* ================================================================== *)
(** ** core.py: currencies *)
(* ================================================================== *)

Module Currency.

Inductive t : Set := EUR | USD | GBP | JPY | KWD | BTC.

Definition code (c : t) : string :=
  match c with
  | EUR => "EUR" | USD => "USD" | GBP => "GBP"
  | JPY => "JPY" | KWD => "KWD" | BTC => "BTC"
  end.

Definition decimals (c : t) : Z :=
  match c with
  | EUR => 2 | USD => 2 | GBP => 2
  | JPY => 0 | KWD => 3 | BTC => 8
  end.

Definition multiplier (c : t) : Z := 10 ^ decimals c.

Definition eqb (a b : t) : bool :=
  match a, b with
  | EUR, EUR | USD, USD | GBP, GBP | JPY, JPY | KWD, KWD | BTC, BTC => true
  | _, _ => false
  end.

(** [Currency[name]]: the member of that name, the names being the codes. *)
Definition of_name (name : string) : option t :=
  find (fun c => String.eqb (code c) name) [EUR; USD; GBP; JPY; KWD; BTC].

End Currency.

(* ================================================================== *)
(** ** core.py: rounding strategies *)
(* ================================================================== *)

Inductive RoundingMode : Set := HALF_UP | HALF_EVEN | DOWN | UP | HALF_DOWN.

Definition math_floor (v : Q) : Z := Qfloor v.
Definition math_ceil (v : Q) : Z := Qceiling v.

(** [int(v)]: truncation toward zero. *)
Definition py_int (v : Q) : Z := Z.quot (Qnum v) (Z.pos (Qden v)).

(** [round(v)]: nearest integer, ties to the even one. *)
Definition py_round (v : Q) : Z :=
  let f := Qfloor v in
  match Qcompare (v - inject_Z f) (1 # 2) with
  | Lt => f
  | Gt => f + 1
  | Eq => if Z.even f then f else f + 1
  end.

Definition _half_up (v : Q) : Z := math_floor (v + (1 # 2)).

Definition _half_even (v : Q) : Z := py_round v.

Definition _down (v : Q) : Z :=
  if Qle_bool 0 v then py_int v else math_ceil v.

Definition _up (v : Q) : Z :=
  if Qle_bool 0 v then math_ceil v else py_int v.

Definition _half_down (v : Q) : Z :=
  if Qle_bool 0 v then math_ceil (v - (1 # 2)) else math_floor (v + (1 # 2)).

(** The [strategies] table is total on the closed enumeration, so the
    [ValueError] branch of the source is unreachable and the result is a
    plain integer. *)
Definition _apply_rounding (value : Q) (mode : RoundingMode) : Z :=
  match mode with
  | HALF_UP => _half_up value
  | HALF_EVEN => _half_even value
  | DOWN => _down value
  | UP => _up value
  | HALF_DOWN => _half_down value
  end.

(* ================================================================== *)
(** ** core.py: the Money value type *)
(* ================================================================== *)

(** [range(n)]. *)
Definition range (n : Z) : list Z := map Z.of_nat (seq 0 (Z.to_nat n)).

(** [sum(xs)] on integers. *)
Definition sum_Z (xs : list Z) : Z := fold_left Z.add xs 0.

(** [sum(ws)] on floats. *)
Definition sum_Q (ws : list Q) : Q := fold_left Qplus ws (0 # 1).

(** [max(ws)]: the first maximal element; [max([])] raises. *)
Definition py_max (ws : list Q) : result Q :=
  match ws with
  | [] => Raise (Exn ValueError "max() arg is an empty sequence")
  | w :: rest =>
      Ok (fold_left (fun m x => if Qlt_bool m x then x else m) rest w)
  end.

(** [ws.index(x)]: position of the first element equal to [x]. *)
Fixpoint py_index (ws : list Q) (x : Q) : result nat :=
  match ws with
  | [] => Raise (Exn ValueError "x not in list")
  | w :: rest =>
      if Qeq_bool w x then Ok 0%nat
      else i <- py_index rest x ;; Ok (S i)
  end.

(** [s.rjust(width, '0')] as used by the format [{minor:0{decimals}d}]. *)
Definition zero_pad (width : Z) (s : string) : string :=
  String.concat "" (repeat "0" (Z.to_nat width - String.length s)) +:+ s.

Module Money.

Record t : Set := mk { _minor_units : Z; _currency : Currency.t }.

(** The constructor [of] of the source; the bare name is a keyword of Rocq. *)
Definition of_major (major_units : Z) (currency : Currency.t) : t :=
  mk (major_units * Currency.multiplier currency) currency.

Definition of_minor (minor_units : Z) (currency : Currency.t) : t :=
  mk minor_units currency.

Definition from_float (value : Q) (currency : Currency.t)
    (rounding : RoundingMode) : t :=
  let minor_float := (value * inject_Z (Currency.multiplier currency))%Q in
  let minor_int := _apply_rounding minor_float rounding in
  mk minor_int currency.

Definition zero (currency : Currency.t) : t := mk 0 currency.

Definition euro (value : Z) : t := of_major value Currency.EUR.
Definition euro_cents (cents : Z) : t := of_minor cents Currency.EUR.
Definition usd (value : Z) : t := of_major value Currency.USD.
Definition usd_cents (cents : Z) : t := of_minor cents Currency.USD.

Definition MAX_DISTRIBUTION_PARTS : Z := 10000.

Definition distribute (self : t) (n : Z) : result (list t) :=
  if n <=? 0 then
    Raise (Exn ValueError ("n deve essere > 0, ricevuto: " +:+ str_of_Z n))
  else if n >? MAX_DISTRIBUTION_PARTS then
    Raise (Exn ValueError
             ("n supera il limite di " +:+ str_of_Z MAX_DISTRIBUTION_PARTS))
  else
    let base := _minor_units self / n in
    let remainder := _minor_units self mod n in
    Ok (map (fun i => of_minor (base + (if i <? remainder then 1 else 0))
                               (_currency self))
            (range n)).

(** [distribute_weighted], [add_vat], [extract_vat] and [apply_discount]
    in the exact reading: the float sum, quotient and product are taken
    without rounding error and never overflow.  This reading agrees with
    the source wherever those operations are exact; [Binary64] below gives
    the four methods as the interpreter runs them. *)
Definition distribute_weighted (self : t) (weights : list Q)
    (rounding : RoundingMode) : result (list t) :=
  if (length weights =? 0)%nat then
    Raise (Exn ValueError "weights non può essere vuoto")
  else if Z.of_nat (length weights) >? MAX_DISTRIBUTION_PARTS then
    Raise (Exn ValueError
             ("weights supera il limite di " +:+ str_of_Z MAX_DISTRIBUTION_PARTS))
  else if existsb (fun w => Qlt_bool w 0) weights then
    Raise (Exn ValueError "weights non può contenere valori negativi")
  else
    let total_weight := sum_Q weights in
    if Qeq_bool total_weight 0 then
      Raise (Exn ValueError "somma dei weights non può essere 0")
    else
      let proportions := map (fun w => (w / total_weight)%Q) weights in
      let raw_amounts :=
        map (fun p => (inject_Z (_minor_units self) * p)%Q) proportions in
      let rounded := map (fun a => _apply_rounding a rounding) raw_amounts in
      let diff := _minor_units self - sum_Z rounded in
      rounded' <-
        (if negb (diff =? 0) then
           m <- py_max weights ;;
           max_idx <- py_index weights m ;;
           match rounded !! max_idx with
           | Some r => Ok (<[max_idx := r + diff]> rounded)
           | None => Raise (Exn IndexError "list index out of range")
           end
         else Ok rounded) ;;
      Ok (map (fun r => of_minor r (_currency self)) rounded').

Definition add_vat (self : t) (rate_percent : Q) (rounding : RoundingMode)
    : t * t * t :=
  let rate_decimal := (rate_percent / 100)%Q in
  let vat_float := (inject_Z (_minor_units self) * rate_decimal)%Q in
  let vat_minor := _apply_rounding vat_float rounding in
  let net := self in
  let vat := of_minor vat_minor (_currency self) in
  let gross := of_minor (_minor_units self + vat_minor) (_currency self) in
  (net, vat, gross).

Definition extract_vat (self : t) (rate_percent : Q) (rounding : RoundingMode)
    : result (t * t * t) :=
  let rate_decimal := (rate_percent / 100)%Q in
  if Qeq_bool (1 + rate_decimal) 0 then
    Raise (Exn ZeroDivisionError "float division by zero")
  else
    let net_float := (inject_Z (_minor_units self) / (1 + rate_decimal))%Q in
    let net_minor := _apply_rounding net_float rounding in
    let vat_minor := _minor_units self - net_minor in
    let net := of_minor net_minor (_currency self) in
    let vat := of_minor vat_minor (_currency self) in
    let gross := self in
    Ok (net, vat, gross).

Definition apply_discount (self : t) (percent : Q) (rounding : RoundingMode)
    : t * t :=
  let discount_float := (inject_Z (_minor_units self) * (percent / 100))%Q in
  let discount_minor := _apply_rounding discount_float rounding in
  let discount := of_minor discount_minor (_currency self) in
  let discounted :=
    of_minor (_minor_units self - discount_minor) (_currency self) in
  (discount, discounted).

Definition __add__ (self other : t) : result t :=
  if negb (Currency.eqb (_currency self) (_currency other)) then
    Raise (Exn TypeError
             ("Valute diverse: " +:+ Currency.code (_currency self) +:+ " + "
              +:+ Currency.code (_currency other)
              +:+ ". Converti esplicitamente prima di sommare."))
  else Ok (of_minor (_minor_units self + _minor_units other) (_currency self)).

Definition __sub__ (self other : t) : result t :=
  if negb (Currency.eqb (_currency self) (_currency other)) then
    Raise (Exn TypeError
             ("Valute diverse: " +:+ Currency.code (_currency self) +:+ " - "
              +:+ Currency.code (_currency other) +:+ "."))
  else Ok (of_minor (_minor_units self - _minor_units other) (_currency self)).

Definition __neg__ (self : t) : t :=
  of_minor (- _minor_units self) (_currency self).

Definition __abs__ (self : t) : t :=
  of_minor (Z.abs (_minor_units self)) (_currency self).

Definition __mul__ (self : t) (factor : Z) : t :=
  of_minor (_minor_units self * factor) (_currency self).

Definition apply_percentage (self : t) (percent : Q) (rounding : RoundingMode)
    : t :=
  let result_float := (inject_Z (_minor_units self) * (percent / 100))%Q in
  let result_minor := _apply_rounding result_float rounding in
  of_minor result_minor (_currency self).

(** [sum(parts, start)]: left fold of [__add__]. *)
Fixpoint sum (parts : list t) (start : t) : result t :=
  match parts with
  | [] => Ok start
  | p :: rest => acc <- __add__ start p ;; sum rest acc
  end.

Definition __eq__ (self other : t) : bool :=
  (_minor_units self =? _minor_units other)
  && Currency.eqb (_currency self) (_currency other).

Definition _check_same_currency (self other : t) : result unit :=
  if negb (Currency.eqb (_currency self) (_currency other)) then
    Raise (Exn TypeError
             ("Impossibile comparare valute diverse: "
              +:+ Currency.code (_currency self) +:+ " vs "
              +:+ Currency.code (_currency other)))
  else Ok tt.

Definition __lt__ (self other : t) : result bool :=
  _ <- _check_same_currency self other ;;
  Ok (_minor_units self <? _minor_units other).

Definition __le__ (self other : t) : result bool :=
  _ <- _check_same_currency self other ;;
  Ok (_minor_units self <=? _minor_units other).

Definition __gt__ (self other : t) : result bool :=
  _ <- _check_same_currency self other ;;
  Ok (_minor_units self >? _minor_units other).

Definition __ge__ (self other : t) : result bool :=
  _ <- _check_same_currency self other ;;
  Ok (_minor_units self >=? _minor_units other).

Definition is_zero (self : t) : bool := _minor_units self =? 0.

Definition __repr__ (self : t) : string :=
  let sign := if _minor_units self <? 0 then "-" else "" in
  let abs_minor := Z.abs (_minor_units self) in
  let decimals := Currency.decimals (_currency self) in
  if decimals =? 0 then
    sign +:+ str_of_Z abs_minor +:+ " " +:+ Currency.code (_currency self)
  else
    let major := abs_minor / Currency.multiplier (_currency self) in
    let minor := abs_minor mod Currency.multiplier (_currency self) in
    sign +:+ str_of_Z major +:+ "." +:+ zero_pad decimals (str_of_Z minor)
    +:+ " " +:+ Currency.code (_currency self).

Definition to_dict (self : t) : json :=
  JDict [("minor_units", JInt (_minor_units self));
         ("currency", JStr (Currency.code (_currency self)))].

(** [data[key]] on a dictionary, the keys of a dictionary being distinct. *)
Definition dict_get (data : list (string * json)) (key : string) : option json :=
  match find (fun kv => String.eqb (fst kv) key) data with
  | Some kv => Some (snd kv)
  | None => None
  end.

(** What [from_dict] does: it returns an amount, or a lookup raises
    [KeyError] (on the key given) or [TypeError] (an unhashable currency
    name).  The source does not check the type of the value under
    ["minor_units"]; when it is no integer the source stores it as it is,
    which the typed record cannot hold: [Unchecked]. *)
Inductive from_dict_outcome : Type :=
| Built (m : t)
| KeyError (key : json)
| Unhashable
| Unchecked (minor_units : json).

Definition from_dict (data : list (string * json)) : from_dict_outcome :=
  match dict_get data "currency" with
  | None => KeyError (JStr "currency")
  | Some name =>
      match name with
      | JList _ | JDict _ => Unhashable
      | JStr n =>
          match Currency.of_name n with
          | None => KeyError name
          | Some currency =>
              match dict_get data "minor_units" with
              | None => KeyError (JStr "minor_units")
              | Some (JInt z) => Built (of_minor z currency)
              | Some v => Unchecked v
              end
          end
      | _ => KeyError name
      end
  end.

End Money.

(** The comparison operators of the language, dispatched to the methods of
    [Money] as the interpreter does for two [Money] operands. *)
Inductive cmp_op : Set := CmpEq | CmpLt | CmpLe | CmpGt | CmpGe.

Definition Money_compare (op : cmp_op) (a b : Money.t) : result bool :=
  match op with
  | CmpEq => Ok (Money.__eq__ a b)
  | CmpLt => Money.__lt__ a b
  | CmpLe => Money.__le__ a b
  | CmpGt => Money.__gt__ a b
  | CmpGe => Money.__ge__ a b
  end.

(* ================================================================== *)
(** ** core.py on binary64 floats: rounding, VAT, discount, weighted split *)
(* ================================================================== *)

(** [sum(weights)] on a list of floats is left to the interpreter: it is a
    left-to-right chain of binary64 additions up to Python 3.11 and a
    compensated sum from Python 3.12 on.  The properties below hold for
    either. *)
Class FloatSum : Type := { float_sum : list spec_float -> spec_float }.

Module Binary64.

(** A Python [float]: an IEEE 754 binary64 number, with the operations of
    [SpecFloat] (53 bits of precision, rounding to nearest, ties to
    even). *)
Definition float : Set := spec_float.
Definition prec : Z := 53.
Definition emax : Z := 1024.

(** The float nearest to [n / 2^k]; for a float literal
    [float.as_integer_ratio()] gives [n] and [2^k], and the float is that
    ratio exactly. *)
Definition float_lit (n k : Z) : float := binary_normalize prec emax n (- k) false.

Definition zero : float := S754_zero false.
Definition half : float := float_lit 1 1.
Definition one : float := float_lit 1 0.
Definition hundred : float := float_lit 100 0.

Definition fadd : float -> float -> float := SFadd prec emax.
Definition fsub : float -> float -> float := SFsub prec emax.
Definition fmul : float -> float -> float := SFmul prec emax.
Definition fdiv : float -> float -> float := SFdiv prec emax.
Definition flt : float -> float -> bool := SFltb.
Definition fle : float -> float -> bool := SFleb.
Definition feq : float -> float -> bool := SFeqb.

(** The conversion of an [int] operand of a float operation. *)
Definition float_of_int (z : Z) : result float :=
  match binary_normalize prec emax z 0 false with
  | S754_infinity _ =>
      Raise (Exn OverflowError "int too large to convert to float")
  | f => Ok f
  end.

(** [a / b] on floats. *)
Definition truediv (a b : float) : result float :=
  if feq b zero then Raise (Exn ZeroDivisionError "float division by zero")
  else Ok (fdiv a b).

(** The rational number a finite non-zero float denotes. *)
Definition value (s : bool) (m : positive) (e : Z) : Q :=
  (inject_Z (cond_Zopp s (Z.pos m)) * Qpower 2 e)%Q.

(** [math.floor], [math.ceil], [int] and [round] on a float: exact on a
    finite float, [OverflowError] on an infinity, [ValueError] on NaN. *)
Definition to_int (f : Q -> Z) (v : float) : result Z :=
  match v with
  | S754_zero _ => Ok (f 0%Q)
  | S754_finite s m e => Ok (f (value s m e))
  | S754_infinity _ =>
      Raise (Exn OverflowError "cannot convert float infinity to integer")
  | S754_nan => Raise (Exn ValueError "cannot convert float NaN to integer")
  end.

Definition _half_up (v : float) : result Z := to_int math_floor (fadd v half).

Definition _half_even (v : float) : result Z := to_int py_round v.

Definition _down (v : float) : result Z :=
  if fle zero v then to_int py_int v else to_int math_ceil v.

Definition _up (v : float) : result Z :=
  if fle zero v then to_int math_ceil v else to_int py_int v.

Definition _half_down (v : float) : result Z :=
  if fle zero v then to_int math_ceil (fsub v half)
  else to_int math_floor (fadd v half).

Definition _apply_rounding (value : float) (mode : RoundingMode) : result Z :=
  match mode with
  | HALF_UP => _half_up value
  | HALF_EVEN => _half_even value
  | DOWN => _down value
  | UP => _up value
  | HALF_DOWN => _half_down value
  end.

Definition add_vat (self : Money.t) (rate_percent : float)
    (rounding : RoundingMode) : result (Money.t * Money.t * Money.t) :=
  rate_decimal <- truediv rate_percent hundred ;;
  minor <- float_of_int (Money._minor_units self) ;;
  let vat_float := fmul minor rate_decimal in
  vat_minor <- _apply_rounding vat_float rounding ;;
  let net := self in
  let vat := Money.of_minor vat_minor (Money._currency self) in
  let gross :=
    Money.of_minor (Money._minor_units self + vat_minor) (Money._currency self) in
  Ok (net, vat, gross).

Definition extract_vat (self : Money.t) (rate_percent : float)
    (rounding : RoundingMode) : result (Money.t * Money.t * Money.t) :=
  rate_decimal <- truediv rate_percent hundred ;;
  let divisor := fadd one rate_decimal in
  minor <- float_of_int (Money._minor_units self) ;;
  net_float <- truediv minor divisor ;;
  net_minor <- _apply_rounding net_float rounding ;;
  let vat_minor := Money._minor_units self - net_minor in
  let net := Money.of_minor net_minor (Money._currency self) in
  let vat := Money.of_minor vat_minor (Money._currency self) in
  let gross := self in
  Ok (net, vat, gross).

Definition apply_discount (self : Money.t) (percent : float)
    (rounding : RoundingMode) : result (Money.t * Money.t) :=
  fraction <- truediv percent hundred ;;
  minor <- float_of_int (Money._minor_units self) ;;
  let discount_float := fmul minor fraction in
  discount_minor <- _apply_rounding discount_float rounding ;;
  let discount := Money.of_minor discount_minor (Money._currency self) in
  let discounted :=
    Money.of_minor (Money._minor_units self - discount_minor)
                   (Money._currency self) in
  Ok (discount, discounted).

(** [max(ws)] on floats: an element replaces the running maximum when it
    is greater. *)
Definition py_max (ws : list float) : result float :=
  match ws with
  | [] => Raise (Exn ValueError "max() arg is an empty sequence")
  | w :: rest => Ok (fold_left (fun m x => if flt m x then x else m) rest w)
  end.

(** [ws.index(x)] on floats: position of the first element equal to [x].
    (The identity test [index] makes before [==] only matters for a NaN,
    and a NaN weight never reaches this point: its share does not
    round.) *)
Fixpoint py_index (ws : list float) (x : float) : result nat :=
  match ws with
  | [] => Raise (Exn ValueError "x not in list")
  | w :: rest =>
      if feq w x then Ok 0%nat
      else i <- py_index rest x ;; Ok (S i)
  end.

Section WithSum.
Context {S : FloatSum}.

(** [w / total_weight] is reached with a divisor that is not zero, so the
    division itself does not raise. *)
Definition distribute_weighted (self : Money.t) (weights : list float)
    (rounding : RoundingMode) : result (list Money.t) :=
  if (length weights =? 0)%nat then
    Raise (Exn ValueError "weights non può essere vuoto")
  else if Z.of_nat (length weights) >? Money.MAX_DISTRIBUTION_PARTS then
    Raise (Exn ValueError
             ("weights supera il limite di "
              +:+ str_of_Z Money.MAX_DISTRIBUTION_PARTS))
  else if existsb (fun w => flt w zero) weights then
    Raise (Exn ValueError "weights non può contenere valori negativi")
  else
    let total_weight := float_sum weights in
    if feq total_weight zero then
      Raise (Exn ValueError "somma dei weights non può essere 0")
    else
      let proportions := map (fun w => fdiv w total_weight) weights in
      raw_amounts <-
        map_result (fun p => minor <- float_of_int (Money._minor_units self) ;;
                             Ok (fmul minor p))
                   proportions ;;
      rounded <- map_result (fun a => _apply_rounding a rounding) raw_amounts ;;
      let diff := Money._minor_units self - sum_Z rounded in
      rounded' <-
        (if negb (diff =? 0) then
           m <- py_max weights ;;
           max_idx <- py_index weights m ;;
           match rounded !! max_idx with
           | Some r => Ok (<[max_idx := r + diff]> rounded)
           | None => Raise (Exn IndexError "list index out of range")
           end
         else Ok rounded) ;;
      Ok (map (fun r => Money.of_minor r (Money._currency self)) rounded').

End WithSum.

End Binary64.

(* ================================================================== *)
(** ** core.py: allocations *)
(* ================================================================== *)

Module Allocation.

(** The state of an [Allocation] object; every method returns the state
    the object is left in. *)
Record t : Set := mk {
  _total : Money.t;
  _allocated : Money.t;
  _parts : list Money.t
}.

Definition init (total : Money.t) : t :=
  mk total (Money.zero (Money._currency total)) [].

Definition fixed (self : t) (amount : Money.t) : result t :=
  if negb (Currency.eqb (Money._currency amount) (Money._currency (_total self)))
  then Raise (Exn TypeError "Valuta diversa dal totale")
  else
    allocated <- Money.__add__ (_allocated self) amount ;;
    Ok (mk (_total self) allocated (_parts self ++ [amount])).

Definition remainder (self : t) : result Money.t :=
  Money.__sub__ (_total self) (_allocated self).

(** [finalize] returns a copy of the parts and leaves the object with the
    parts it has written. *)
Definition finalize (self : t) : result (list Money.t * t) :=
  r <- remainder self ;;
  if negb (Money.is_zero r) then
    match last (_parts self) with
    | Some p =>
        p' <- Money.__add__ p r ;;
        let parts := <[(length (_parts self) - 1)%nat := p']> (_parts self) in
        Ok (parts, mk (_total self) (_allocated self) parts)
    | None =>
        let parts := _parts self ++ [r] in
        Ok (parts, mk (_total self) (_allocated self) parts)
    end
  else Ok (_parts self, self).

End Allocation.

(* ================================================================== *)
(** ** ifx.py: library functions the module relies on *)
(* ================================================================== *)

(** What [ifx.py] takes from the Python library and the embedding does
    not compute: the SHA-256 hex digest of the canonical JSON text of a
    value ([hashlib.sha256(json.dumps(c, sort_keys=True).encode()).hexdigest()]),
    and the two float formats used in the gate's labels ([f"{x:.2f}"] and
    [f"{x}"]). *)
Class Runtime : Type := {
  sha256_json : json -> string;
  fmt_2f : Q -> string;
  float_str : Q -> string
}.

(** [hmac.compare_digest] on two digests: equality of the strings. *)
Definition compare_digest (a b : string) : bool := String.eqb a b.

(** A [datetime] is observed by the code only through [isoformat()]; it is
    represented by that text. *)
Definition datetime : Set := string.
Definition isoformat (d : datetime) : string := d.

Inductive EpistemicStatus : Set := FACT | INFERENCE | ASSUMPTION | AI_GENERATED.

Definition EpistemicStatus_value (s : EpistemicStatus) : string :=
  match s with
  | FACT => "fact"
  | INFERENCE => "inference"
  | ASSUMPTION => "assumption"
  | AI_GENERATED => "ai_generated"
  end.

(* ================================================================== *)
(** ** ifx.py: signed transactions *)
(* ================================================================== *)

Module TransactionMetadata.

Record t : Type := mk {
  source : string;
  confidence : Q;
  timestamp : datetime;
  rationale : option string;
  epistemic_status : EpistemicStatus;
  policy_version : string;
  session_id : string;
  parent_tx_id : option string
}.

Definition to_dict (self : t) : json :=
  JDict [("source", JStr (source self));
         ("confidence", JFloat (confidence self));
         ("timestamp", JStr (isoformat (timestamp self)));
         ("rationale", json_opt_str (rationale self));
         ("epistemic_status", JStr (EpistemicStatus_value (epistemic_status self)));
         ("policy_version", JStr (policy_version self));
         ("session_id", JStr (session_id self));
         ("parent_tx_id", json_opt_str (parent_tx_id self))].

End TransactionMetadata.

Module SignedTransaction.

Record t : Type := mk {
  tx_id : string;
  amount : Money.t;
  metadata : TransactionMetadata.t;
  signature : option string;
  status : string;
  rejection_reason : option string
}.

(** The keyword arguments read by [from_ai_output]; [None] stands for an
    absent key. *)
Record kwargs : Set := Kwargs {
  kw_rationale : option string;
  kw_policy_version : option string;
  kw_session_id : option string;
  kw_parent_tx_id : option string
}.

(** What one call draws from the clock and from [uuid.uuid4()]. *)
Record fresh : Set := Fresh {
  now : datetime;
  session_uuid : string;
  tx_uuid : string
}.

(** [kwargs.get("session_id") or str(uuid.uuid4())]. *)
Definition or_uuid (o : option string) (u : string) : string :=
  match o with
  | Some s => if String.eqb s "" then u else s
  | None => u
  end.

Section WithRuntime.
Context {R : Runtime}.

Definition from_ai_output (amount : Money.t) (source : string) (confidence : Q)
    (kw : kwargs) (env : fresh) : result t :=
  if negb (Qle_bool 0 confidence && Qle_bool confidence 1) then
    Raise (Exn ValueError
             ("Confidence must be 0.0-1.0, got " +:+ float_str confidence))
  else
    let metadata :=
      TransactionMetadata.mk source confidence (now env) (kw_rationale kw)
        AI_GENERATED
        (default "KQR-2025-01" (kw_policy_version kw))
        (or_uuid (kw_session_id kw) (session_uuid env))
        (kw_parent_tx_id kw) in
    Ok (mk (tx_uuid env) amount metadata None "pending" None).

(** The content covered by the signature. *)
Definition signed_content (self : t) : json :=
  JDict [("tx_id", JStr (tx_id self));
         ("amount", Money.to_dict (amount self));
         ("metadata", TransactionMetadata.to_dict (metadata self))].

Definition sign (self : t) : t :=
  let content := signed_content self in
  let signature := sha256_json content in
  mk (tx_id self) (amount self) (metadata self) (Some signature)
     (status self) (rejection_reason self).

Definition verify_signature (self : t) : bool :=
  match signature self with
  | None => false
  | Some s =>
      let content := signed_content self in
      let expected := sha256_json content in
      compare_digest s expected
  end.

End WithRuntime.

(** The method [admit] of the source; the bare name is a tactic of Rocq. *)
Definition admit_ (self : t) : t :=
  mk (tx_id self) (amount self) (metadata self) (signature self)
     "admitted" None.

Definition reject (self : t) (reason : string) : t :=
  mk (tx_id self) (amount self) (metadata self) (signature self)
     "rejected" (Some reason).

Definition execute (self : t) : result t :=
  if negb (String.eqb (status self) "admitted") then
    Raise (Exn ValueError
             ("Cannot execute transaction in status '" +:+ status self +:+ "'"))
  else
    Ok (mk (tx_id self) (amount self) (metadata self) (signature self)
           "executed" None).

(** [from_human]: confidence 1.0 and the status [FACT]; the keyword
    [parent_tx_id] is not read. *)
Definition from_human (amount : Money.t) (source : string) (kw : kwargs)
    (env : fresh) : t :=
  let metadata :=
    TransactionMetadata.mk source 1 (now env) (kw_rationale kw) FACT
      (default "KQR-2025-01" (kw_policy_version kw))
      (or_uuid (kw_session_id kw) (session_uuid env))
      None in
  mk (tx_uuid env) amount metadata None "pending" None.

Definition to_dict (self : t) : json :=
  JDict [("tx_id", JStr (tx_id self));
         ("amount", Money.to_dict (amount self));
         ("metadata", TransactionMetadata.to_dict (metadata self));
         ("signature", json_opt_str (signature self));
         ("status", JStr (status self));
         ("rejection_reason", json_opt_str (rejection_reason self))].

End SignedTransaction.

(** One call of a status-transition method. *)
Inductive transition : Set :=
| Admit
| Reject (reason : string)
| Execute.

Definition call_transition (op : transition) (tx : SignedTransaction.t)
    : result SignedTransaction.t :=
  match op with
  | Admit => Ok (SignedTransaction.admit_ tx)
  | Reject reason => Ok (SignedTransaction.reject tx reason)
  | Execute => SignedTransaction.execute tx
  end.

(** A caller applying transitions one after the other; a call that raises
    leaves the caller with the value it had. *)
Fixpoint run_transitions (ops : list transition) (tx : SignedTransaction.t)
    : SignedTransaction.t :=
  match ops with
  | [] => tx
  | op :: rest =>
      match call_transition op tx with
      | Ok tx' => run_transitions rest tx'
      | Raise _ => run_transitions rest tx
      end
  end.

(** The lifecycle edges the documentation names. *)
Definition documented_edge (from to : string) : bool :=
  (String.eqb from "pending" && String.eqb to "admitted")
  || (String.eqb from "pending" && String.eqb to "rejected")
  || (String.eqb from "admitted" && String.eqb to "executed").

(* ================================================================== *)
(** ** ifx.py: qualification policy and gate *)
(* ================================================================== *)

Module QualificationPolicy.

Record t : Type := mk {
  min_confidence : Q;
  max_amount : option Money.t;
  require_human_approval_above : option Money.t;
  allowed_sources : option (list string);
  blocked_sources : option (list string);
  version : string;
  name : string
}.

(** The binary64 number written [0.85] in Python. *)
Definition float_0_85 : Q := 7656119366529843 # 9007199254740992.

(** [QualificationPolicy()]: the defaults of the dataclass. *)
Definition default : t :=
  mk float_0_85 None None None None "KQR-2025-01" "default".

End QualificationPolicy.

Module GateDecision.

Record t : Type := mk {
  admitted : bool;
  reason : string;
  policy_version : string;
  checks_passed : list string;
  checks_failed : list string;
  requires_human_approval : bool
}.

Definition to_dict (self : t) : json :=
  JDict [("admitted", JBool (admitted self));
         ("reason", JStr (reason self));
         ("policy_version", JStr (policy_version self));
         ("checks_passed", JList (map JStr (checks_passed self)));
         ("checks_failed", JList (map JStr (checks_failed self)));
         ("requires_human_approval", JBool (requires_human_approval self))].

End GateDecision.

(** [x in xs] on a list of strings. *)
Definition str_in (x : string) (xs : list string) : bool :=
  existsb (String.eqb x) xs.

Module Gate.

(** A custom check is a function from the transaction to an optional
    failure text. *)
Definition check : Type := SignedTransaction.t -> option string.

Record t : Type := mk {
  policy : QualificationPolicy.t;
  _custom_checks : list check
}.

Definition init (policy : QualificationPolicy.t) : t := mk policy [].

Definition add_check (self : t) (c : check) : t :=
  mk (policy self) (_custom_checks self ++ [c]).

Section WithRuntime.
Context {R : Runtime}.

Definition _check_confidence (self : t) (tx : SignedTransaction.t)
    : list string * list string :=
  let conf := TransactionMetadata.confidence (SignedTransaction.metadata tx) in
  let min_conf := QualificationPolicy.min_confidence (policy self) in
  if Qle_bool min_conf conf then
    (["confidence_check: " +:+ fmt_2f conf +:+ " >= " +:+ float_str min_conf], [])
  else
    ([], ["confidence_check: " +:+ fmt_2f conf +:+ " < " +:+ float_str min_conf
          +:+ " (required)"]).

Definition _check_amount (self : t) (tx : SignedTransaction.t)
    : result (list string * list string) :=
  let amount := SignedTransaction.amount tx in
  match QualificationPolicy.max_amount (policy self) with
  | None => Ok (["amount_check: no limit configured"], [])
  | Some max_amt =>
      if negb (Currency.eqb (Money._currency amount) (Money._currency max_amt))
      then
        Ok ([], ["amount_check: currency mismatch ("
                 +:+ Currency.code (Money._currency amount) +:+ " vs "
                 +:+ Currency.code (Money._currency max_amt) +:+ ")"])
      else
        within <- Money.__le__ amount max_amt ;;
        if within then
          Ok (["amount_check: " +:+ Money.__repr__ amount +:+ " <= "
               +:+ Money.__repr__ max_amt], [])
        else
          Ok ([], ["amount_check: " +:+ Money.__repr__ amount +:+ " > "
                   +:+ Money.__repr__ max_amt +:+ " (max)"])
  end.

Definition _check_human_approval (self : t) (tx : SignedTransaction.t)
    : result (list string * bool) :=
  let amount := SignedTransaction.amount tx in
  match QualificationPolicy.require_human_approval_above (policy self) with
  | None => Ok (["human_approval_check: not configured"], false)
  | Some threshold =>
      let same_currency :=
        Currency.eqb (Money._currency amount) (Money._currency threshold) in
      exceeds <- Money.__gt__ amount threshold ;;
      if same_currency && exceeds then
        Ok (["human_approval_check: required for " +:+ Money.__repr__ amount
             +:+ " > " +:+ Money.__repr__ threshold], true)
      else
        Ok (["human_approval_check: not required"], false)
  end.

Definition _check_source (self : t) (tx : SignedTransaction.t)
    : list string * list string :=
  let source := TransactionMetadata.source (SignedTransaction.metadata tx) in
  match QualificationPolicy.allowed_sources (policy self) with
  | Some allowed =>
      if str_in source allowed then
        (["source_check: '" +:+ source +:+ "' in allowed list"], [])
      else
        ([], ["source_check: '" +:+ source +:+ "' not in allowed list"])
  | None =>
      match QualificationPolicy.blocked_sources (policy self) with
      | Some blocked =>
          if str_in source blocked then
            ([], ["source_check: '" +:+ source +:+ "' is blocked"])
          else
            (["source_check: '" +:+ source +:+ "' not blocked"], [])
      | None => (["source_check: no restrictions"], [])
      end
  end.

(** The loop of [_run_custom_checks], from index [i] on. *)
Fixpoint _run_custom_checks_from (i : nat) (checks : list check)
    (tx : SignedTransaction.t) : list string * list string :=
  match checks with
  | [] => ([], [])
  | c :: rest =>
      let '(passed, failed) := _run_custom_checks_from (S i) rest tx in
      match c tx with
      | None =>
          (("custom_check_" +:+ str_of_Z (Z.of_nat i) +:+ ": passed") :: passed,
           failed)
      | Some msg =>
          (passed,
           ("custom_check_" +:+ str_of_Z (Z.of_nat i) +:+ ": " +:+ msg) :: failed)
      end
  end.

Definition _run_custom_checks (self : t) (tx : SignedTransaction.t)
    : list string * list string :=
  _run_custom_checks_from 0 (_custom_checks self) tx.

Definition evaluate (self : t) (tx : SignedTransaction.t)
    : result GateDecision.t :=
  let checks_passed := [] in
  let checks_failed := [] in
  let '(p, f) := _check_confidence self tx in
  let checks_passed := checks_passed ++ p in
  let checks_failed := checks_failed ++ f in
  pf <- _check_amount self tx ;;
  let checks_passed := checks_passed ++ fst pf in
  let checks_failed := checks_failed ++ snd pf in
  ph <- _check_human_approval self tx ;;
  let checks_passed := checks_passed ++ fst ph in
  let requires_human := snd ph in
  let '(p, f) := _check_source self tx in
  let checks_passed := checks_passed ++ p in
  let checks_failed := checks_failed ++ f in
  let '(p, f) := _run_custom_checks self tx in
  let checks_passed := checks_passed ++ p in
  let checks_failed := checks_failed ++ f in
  let admitted := (length checks_failed =? 0)%nat in
  let reason :=
    if admitted then "All checks passed" else String.concat "; " checks_failed in
  Ok (GateDecision.mk admitted reason
        (QualificationPolicy.version (policy self))
        checks_passed checks_failed requires_human).

End WithRuntime.

End Gate.

(* ================================================================== *)
(** ** ifx.py: the hash-chained ledger *)
(* ================================================================== *)

Module LedgerEntry.

Record t : Type := mk {
  sequence : Z;
  timestamp : datetime;
  transaction : SignedTransaction.t;
  decision : option GateDecision.t;
  previous_hash : string;
  entry_hash : string
}.

End LedgerEntry.

Module Ledger.

Record t : Type := mk {
  _entries : list LedgerEntry.t;
  _genesis_hash : string;
  _max_entries : Z
}.

Definition MAX_ENTRIES : Z := 1000000.

(** ["0" * 64]. *)
Definition genesis : string := String.concat "" (repeat "0" 64).

(** [Ledger(max_entries)]; [max_entries or MAX_ENTRIES] replaces both [None]
    and [0] by the default. *)
Definition init (max_entries : option Z) : t :=
  mk [] genesis
     (match max_entries with
      | Some m => if m =? 0 then MAX_ENTRIES else m
      | None => MAX_ENTRIES
      end).

(** [decision.to_dict() if decision else None]. *)
Definition decision_dict (d : option GateDecision.t) : json :=
  match d with
  | Some d => GateDecision.to_dict d
  | None => JNull
  end.

(** The record [entry_content] hashed by [append] and by [verify_chain]. *)
Definition entry_content (sequence : Z) (timestamp : datetime)
    (transaction : SignedTransaction.t) (decision : option GateDecision.t)
    (previous_hash : string) : json :=
  JDict [("sequence", JInt sequence);
         ("timestamp", JStr (isoformat timestamp));
         ("transaction", SignedTransaction.to_dict transaction);
         ("decision", decision_dict decision);
         ("previous_hash", JStr previous_hash)].

Definition content_of (e : LedgerEntry.t) : json :=
  entry_content (LedgerEntry.sequence e) (LedgerEntry.timestamp e)
    (LedgerEntry.transaction e) (LedgerEntry.decision e)
    (LedgerEntry.previous_hash e).

Section WithRuntime.
Context {R : Runtime}.

Definition _compute_hash (content : json) : string := sha256_json content.

(** [append] returns the created entry; the ledger after the call is the
    second component.  [now] is the clock reading of the call. *)
Definition append (self : t) (transaction : SignedTransaction.t)
    (decision : option GateDecision.t) (now : datetime)
    : result (LedgerEntry.t * t) :=
  if Z.of_nat (length (_entries self)) >=? _max_entries self then
    Raise (Exn ValueError
             ("Ledger at max capacity (" +:+ str_of_Z (_max_entries self) +:+ ")"))
  else
    let sequence := Z.of_nat (length (_entries self)) in
    let timestamp := now in
    previous_hash <-
      (if sequence =? 0 then Ok (_genesis_hash self)
       else match last (_entries self) with
            | Some e => Ok (LedgerEntry.entry_hash e)
            | None => Raise (Exn IndexError "list index out of range")
            end) ;;
    let content :=
      entry_content sequence timestamp transaction decision previous_hash in
    let entry_hash := _compute_hash content in
    let entry :=
      LedgerEntry.mk sequence timestamp transaction decision previous_hash
        entry_hash in
    Ok (entry, mk (_entries self ++ [entry]) (_genesis_hash self)
                  (_max_entries self)).

(** The loop of [verify_chain] over [(i, entry)], the remaining entries
    being [rest]; [self._entries[i - 1]] is read from the whole list. *)
Fixpoint verify_chain_from (self : t) (i : nat) (rest : list LedgerEntry.t)
    : result (bool * option Z) :=
  match rest with
  | [] => Ok (true, None)
  | entry :: rest' =>
      expected_prev <-
        (if (i =? 0)%nat then Ok (_genesis_hash self)
         else match _entries self !! (i - 1)%nat with
              | Some p => Ok (LedgerEntry.entry_hash p)
              | None => Raise (Exn IndexError "list index out of range")
              end) ;;
      if negb (compare_digest (LedgerEntry.previous_hash entry) expected_prev)
      then Ok (false, Some (Z.of_nat i))
      else
        let expected_hash := _compute_hash (content_of entry) in
        if negb (compare_digest (LedgerEntry.entry_hash entry) expected_hash)
        then Ok (false, Some (Z.of_nat i))
        else verify_chain_from self (S i) rest'
  end.

Definition verify_chain (self : t) : result (bool * option Z) :=
  verify_chain_from self 0 (_entries self).

(** A caller appending one item and going on with the ledger it has. *)
Definition append_or_keep (self : t)
    (item : SignedTransaction.t * option GateDecision.t * datetime) : t :=
  match append self (fst (fst item)) (snd (fst item)) (snd item) with
  | Ok (_, l') => l'
  | Raise _ => self
  end.

End WithRuntime.

(** An outside write to a stored entry: [ledger._entries[k] = e]. *)
Definition overwrite (self : t) (k : nat) (e : LedgerEntry.t) : t :=
  mk (<[k := e]> (_entries self)) (_genesis_hash self) (_max_entries self).

Definition find_by_tx_id (self : t) (tx_id : string) : option LedgerEntry.t :=
  find (fun e => String.eqb (SignedTransaction.tx_id (LedgerEntry.transaction e)) tx_id)
       (_entries self).

Definition find_by_status (self : t) (status : string) : list LedgerEntry.t :=
  filter (fun e => SignedTransaction.status (LedgerEntry.transaction e) = status)
         (_entries self).

Definition get_all (self : t) : list LedgerEntry.t := _entries self.

Definition __len__ (self : t) : Z := Z.of_nat (length (_entries self)).

End Ledger.

(* ================================================================== *)
(** ** ifx.py: execution context and the qualification workflow *)
(* ================================================================== *)

Module ExecutionContext.

Section WithWorld.
Variable World : Type.

(** An injected callback acts on the caller's world and either returns or
    raises an [Exception]. *)
Definition callback (A : Type) : Type := A -> World -> option exn * World.

Record t : Type := mk {
  policy : QualificationPolicy.t;
  ledger : Ledger.t;
  on_execute : callback Money.t;
  on_reject : callback string
}.

End WithWorld.

Arguments mk {World} policy ledger on_execute on_reject.
Arguments policy {World} t.
Arguments ledger {World} t.
Arguments on_execute {World} t.
Arguments on_reject {World} t.

End ExecutionContext.

(** The clock readings and identifiers drawn during one run of the
    workflow: those of [from_ai_output], then the clock of [append]. *)
Record workflow_env : Set := WorkflowEnv {
  env_tx : SignedTransaction.fresh;
  env_append_now : datetime
}.

(** The outcome of one run: what the call returns or raises, the ledger
    and the caller's world after it. *)
Record outcome (World : Type) : Type := Outcome {
  returned : result (bool * SignedTransaction.t * GateDecision.t);
  ledger_after : Ledger.t;
  world_after : World
}.
Arguments Outcome {World} returned ledger_after world_after.
Arguments returned {World} o.
Arguments ledger_after {World} o.
Arguments world_after {World} o.

Section Workflow.
Context {R : Runtime} {World : Type}.

Definition qualify_and_execute (amount : Money.t) (source : string)
    (confidence : Q) (context : ExecutionContext.t World)
    (rationale : option string) (env : workflow_env) (w : World)
    : outcome World :=
  let ledger := ExecutionContext.ledger context in
  let policy := ExecutionContext.policy context in
  match SignedTransaction.from_ai_output amount source confidence
          (SignedTransaction.Kwargs rationale
             (Some (QualificationPolicy.version policy)) None None)
          (env_tx env) with
  | Raise e => Outcome (Raise e) ledger w
  | Ok tx0 =>
      let tx := SignedTransaction.sign tx0 in
      match Gate.evaluate (Gate.init policy) tx with
      | Raise e => Outcome (Raise e) ledger w
      | Ok decision =>
          if GateDecision.admitted decision then
            let tx := SignedTransaction.admit_ tx in
            match Ledger.append ledger tx (Some decision) (env_append_now env) with
            | Raise e => Outcome (Raise e) ledger w
            | Ok (_, ledger') =>
                (* the body of the [try] block *)
                let attempt :=
                  match ExecutionContext.on_execute context
                          (SignedTransaction.amount tx) w with
                  | (Some e, w1) => (Raise e, w1)
                  | (None, w1) => (SignedTransaction.execute tx, w1)
                  end in
                match attempt with
                | (Ok tx', w1) => Outcome (Ok (true, tx', decision)) ledger' w1
                | (Raise e, w1) =>
                    (* [except Exception as e] *)
                    let tx :=
                      SignedTransaction.reject tx
                        ("Execution failed: " +:+ exn_msg e) in
                    match ExecutionContext.on_reject context (exn_msg e) w1 with
                    | (None, w2) => Outcome (Ok (true, tx, decision)) ledger' w2
                    | (Some e', w2) => Outcome (Raise e') ledger' w2
                    end
                end
            end
          else
            let tx := SignedTransaction.reject tx (GateDecision.reason decision) in
            match Ledger.append ledger tx (Some decision) (env_append_now env) with
            | Raise e => Outcome (Raise e) ledger w
            | Ok (_, ledger') =>
                match ExecutionContext.on_reject context
                        (GateDecision.reason decision) w with
                | (None, w1) => Outcome (Ok (false, tx, decision)) ledger' w1
                | (Some e, w1) => Outcome (Raise e) ledger' w1
                end
            end
      end
  end.

End Workflow.

(* ================================================================== *)
(** ** Vocabulary of the properties *)
(* ================================================================== *)

(** [i] is the position of the first occurrence of the largest weight. *)
Definition first_max_index (ws : list Q) (i : nat) : Prop :=
  exists w,
    ws !! i = Some w
    /\ (forall j w', ws !! j = Some w' -> (w' <= w)%Q)
    /\ (forall j w', (j < i)%nat -> ws !! j = Some w' -> (w' < w)%Q).

(** [i] is the position of the first occurrence of the largest of the
    float weights. *)
Definition first_max_float (ws : list Binary64.float) (i : nat) : Prop :=
  exists w,
    ws !! i = Some w
    /\ (forall j w', ws !! j = Some w' -> Binary64.fle w' w = true)
    /\ (forall j w', (j < i)%nat -> ws !! j = Some w' ->
                     Binary64.flt w' w = true).

(** The order of the non-negative floats, read off their representation:
    zero, then the finite numbers by exponent and mantissa, then the
    infinity. *)
Definition float_rank (v : Binary64.float) : Z * Z * Z :=
  match v with
  | S754_zero _ => (0, 0, 0)
  | S754_finite _ m e => (1, e, Z.pos m)
  | S754_infinity _ => (2, 0, 0)
  | S754_nan => (3, 0, 0)
  end.

Definition rank_lt (a b : Z * Z * Z) : Prop :=
  fst (fst a) < fst (fst b)
  \/ (fst (fst a) = fst (fst b)
      /\ (snd (fst a) < snd (fst b)
          \/ (snd (fst a) = snd (fst b) /\ snd a < snd b))).



(** Allocation objects obtained from [Allocation(total)] by successful
    calls of [fixed]. *)
Inductive allocated_from (total : Money.t) : Allocation.t -> Prop :=
| allocated_init : allocated_from total (Allocation.init total)
| allocated_fixed (a a' : Allocation.t) (amount : Money.t) :
    allocated_from total a ->
    Allocation.fixed a amount = Ok a' ->
    allocated_from total a'.

(** The minor units held by a list of parts. *)
Definition units_of (parts : list Money.t) : Z :=
  sum_Z (map Money._minor_units parts).

(** The object and its parts are in one currency. *)
Definition one_currency (a : Allocation.t) : Prop :=
  let c := Money._currency (Allocation._total a) in
  Money._currency (Allocation._allocated a) = c
  /\ Forall (fun p => Money._currency p = c) (Allocation._parts a).

(** The conditions the checks of the gate test, as the source writes them:
    the confidence floor, the amount ceiling, the source lists and the
    custom checks. *)
Definition confidence_ok (p : QualificationPolicy.t) (tx : SignedTransaction.t)
    : bool :=
  Qle_bool (QualificationPolicy.min_confidence p)
           (TransactionMetadata.confidence (SignedTransaction.metadata tx)).

Definition amount_ok (p : QualificationPolicy.t) (tx : SignedTransaction.t)
    : bool :=
  match QualificationPolicy.max_amount p with
  | None => true
  | Some max_amt =>
      Currency.eqb (Money._currency (SignedTransaction.amount tx))
                   (Money._currency max_amt)
      && (Money._minor_units (SignedTransaction.amount tx)
          <=? Money._minor_units max_amt)
  end.

Definition source_ok (p : QualificationPolicy.t) (tx : SignedTransaction.t)
    : bool :=
  let source := TransactionMetadata.source (SignedTransaction.metadata tx) in
  match QualificationPolicy.allowed_sources p with
  | Some allowed => str_in source allowed
  | None =>
      match QualificationPolicy.blocked_sources p with
      | Some blocked => negb (str_in source blocked)
      | None => true
      end
  end.

Definition custom_ok (checks : list Gate.check) (tx : SignedTransaction.t)
    : bool :=
  forallb (fun c => match c tx with None => true | Some _ => false end) checks.

Section ChainVocabulary.
Context {R : Runtime}.

(** Ledgers obtained from a new ledger by successful calls of [append]. *)
Inductive built : Ledger.t -> Prop :=
| built_init (max_entries : option Z) : built (Ledger.init max_entries)
| built_append (l l' : Ledger.t) (tx : SignedTransaction.t)
    (d : option GateDecision.t) (now : datetime) (e : LedgerEntry.t) :
    built l -> Ledger.append l tx d now = Ok (e, l') -> built l'.

(** The digests of two contents differ unless the contents are equal. *)
Definition no_collision (c c' : json) : Prop :=
  c <> c' -> Ledger._compute_hash c <> Ledger._compute_hash c'.

(** The hash an entry placed after [es] has to point to. *)
Definition last_hash (g : string) (es : list LedgerEntry.t) : string :=
  match last es with
  | Some e => LedgerEntry.entry_hash e
  | None => g
  end.

(** Every entry points to its predecessor and carries the digest of its
    own content. *)
Fixpoint chained (prev : string) (es : list LedgerEntry.t) : Prop :=
  match es with
  | [] => True
  | e :: es' =>
      LedgerEntry.previous_hash e = prev
      /\ LedgerEntry.entry_hash e = Ledger._compute_hash (Ledger.content_of e)
      /\ chained (LedgerEntry.entry_hash e) es'
  end.

End ChainVocabulary.

(** The transaction [from_ai_output] creates inside the workflow. *)
Definition proposed (amount : Money.t) (source : string) (confidence : Q)
    (policy : QualificationPolicy.t) (rationale : option string)
    (env : workflow_env) : SignedTransaction.t :=
  SignedTransaction.mk (SignedTransaction.tx_uuid (env_tx env)) amount
    (TransactionMetadata.mk source confidence
       (SignedTransaction.now (env_tx env)) rationale AI_GENERATED
       (QualificationPolicy.version policy)
       (SignedTransaction.session_uuid (env_tx env)) None)
    None "pending" None.

(* ================================================================== *)
(** ** A runtime and sample values to run the definitions on *)
(* ================================================================== *)

(** A small stand-in for the digest: a polynomial checksum of the JSON
    tree, printed in decimal.  It only serves to evaluate the definitions
    on concrete inputs; no property below depends on it. *)
Definition mix (h x : Z) : Z := (h * 31 + x) mod 1000003.

Definition checksum_string (s : string) : Z :=
  fold_left (fun h c => mix h (Z.of_nat (nat_of_ascii c))) (list_ascii_of_string s) 7.

Fixpoint checksum (j : json) : Z :=
  match j with
  | JNull => 1
  | JBool b => if b then 2 else 3
  | JInt z => mix 4 (z mod 1000003)
  | JFloat q => mix (mix 5 (Qnum q mod 1000003)) (Z.pos (Qden q) mod 1000003)
  | JStr s => mix 6 (checksum_string s)
  | JList l => fold_left (fun h x => mix h (checksum x)) l 8
  | JDict kv =>
      fold_left (fun h p => mix (mix h (checksum_string (fst p))) (checksum (snd p)))
        kv 9
  end.

Definition sample_runtime : Runtime := {|
  sha256_json := fun j => str_of_Z (checksum j);
  fmt_2f := fun q => str_of_Z (Qnum q) +:+ "/" +:+ str_of_Z (Z.pos (Qden q));
  float_str := fun q => str_of_Z (Qnum q) +:+ "/" +:+ str_of_Z (Z.pos (Qden q))
|}.

Definition sample_fresh (n : Z) : SignedTransaction.fresh :=
  SignedTransaction.Fresh ("2026-01-01T00:00:0" +:+ str_of_Z n +:+ "+00:00")
    ("session-" +:+ str_of_Z n) ("tx-" +:+ str_of_Z n).

Definition sample_metadata : TransactionMetadata.t :=
  TransactionMetadata.mk "test-model" (92 # 100) "2026-01-01T00:00:00+00:00"
    None AI_GENERATED "KQR-2025-01" "session-0" None.

Definition sample_tx : SignedTransaction.t :=
  SignedTransaction.mk "tx-0" (Money.euro 100) sample_metadata None "pending" None.

Definition sample_policy : QualificationPolicy.t :=
  QualificationPolicy.mk (85 # 100) None None None None "KQR-2025-01" "default".

(** A callback world that records the calls made, most recent first. *)
Inductive call : Set :=
| Executed (m : Money.t)
| Rejected (reason : string).

Definition log_execute : ExecutionContext.callback (list call) Money.t :=
  fun m w => (None, Executed m :: w).

Definition failing_execute (msg : string)
    : ExecutionContext.callback (list call) Money.t :=
  fun m w => (Some (Exn RuntimeError msg), Executed m :: w).

Definition log_reject : ExecutionContext.callback (list call) string :=
  fun r w => (None, Rejected r :: w).

(** The binary64 number written [-2.3] in Python. *)
Definition float_minus_2_3 : Q := (-5179139571476070 # 2251799813685248).

(** A policy whose human-approval threshold is in euro, and a proposal in
    dollars made with full confidence. *)
Definition euro_threshold_policy : QualificationPolicy.t :=
  QualificationPolicy.mk (85 # 100) None (Some (Money.euro 5000)) None None
    "KQR-2025-01" "default".

Definition dollar_tx : SignedTransaction.t :=
  SignedTransaction.mk "tx-usd" (Money.usd 100) sample_metadata None "pending" None.

(** A ledger of three entries. *)
Definition sample_ledger : Ledger.t :=
  let r := sample_runtime in
  fold_left Ledger.append_or_keep
    [(SignedTransaction.admit_ (SignedTransaction.sign sample_tx), None,
      "2026-01-01T00:00:01+00:00");
     (SignedTransaction.reject (SignedTransaction.sign dollar_tx) "low confidence",
      None, "2026-01-01T00:00:02+00:00");
     (SignedTransaction.sign sample_tx, None, "2026-01-01T00:00:03+00:00")]
    (Ledger.init None).

Definition sample_entry : LedgerEntry.t :=
  default (LedgerEntry.mk 0 "" sample_tx None "" "")
          (Ledger._entries sample_ledger !! 1%nat).

Definition sample_env : workflow_env :=
  WorkflowEnv (sample_fresh 1) "2026-01-01T00:00:09+00:00".

(** The decision of the gate on the sample proposal. *)
Definition sample_decision : GateDecision.t :=
  let r := sample_runtime in
  match Gate.evaluate (Gate.init sample_policy)
          (SignedTransaction.sign
             (proposed (Money.euro 100) "test-model" (92 # 100) sample_policy
                None sample_env)) with
  | Ok d => d
  | Raise _ => GateDecision.mk false "" "" [] [] false
  end.

(** A context whose execute callback fails. *)
Definition failing_context : ExecutionContext.t (list call) :=
  ExecutionContext.mk sample_policy (Ledger.init None)
    (failing_execute "bank offline") log_reject.

(** A ledger of capacity one that already holds an entry. *)
Definition full_ledger : Ledger.t :=
  let r := sample_runtime in
  match Ledger.append (Ledger.init (Some 1)) (SignedTransaction.sign sample_tx)
          None "2026-01-01T00:00:00+00:00" with
  | Ok (_, l) => l
  | Raise _ => Ledger.init (Some 1)
  end.

Definition full_context : ExecutionContext.t (list call) :=
  ExecutionContext.mk sample_policy full_ledger log_execute log_reject.

(** The sample ledger after one more call of [append]. *)
Definition sample_append : result (LedgerEntry.t * Ledger.t) :=
  @Ledger.append sample_runtime sample_ledger
    (@SignedTransaction.sign sample_runtime dollar_tx) None
    "2026-01-01T00:00:04+00:00".

Definition appended_entry : LedgerEntry.t :=
  match sample_append with
  | Ok (e, _) => e
  | Raise _ => sample_entry
  end.

Definition appended_ledger : Ledger.t :=
  match sample_append with
  | Ok (_, l) => l
  | Raise _ => sample_ledger
  end.

(** An entry to write over the second entry of the sample ledger: another
    transaction, the stored [previous_hash], and the digest recomputed. *)
Definition forged_entry : LedgerEntry.t :=
  let r := sample_runtime in
  let tx := SignedTransaction.sign dollar_tx in
  let ts := LedgerEntry.timestamp sample_entry in
  let prev := LedgerEntry.previous_hash sample_entry in
  LedgerEntry.mk 1 ts tx None prev
    (Ledger._compute_hash (Ledger.entry_content 1 ts tx None prev)).

(** A signed transaction whose amount was changed after signing. *)
Definition tampered_tx : SignedTransaction.t :=
  let r := sample_runtime in
  let s := SignedTransaction.sign sample_tx in
  SignedTransaction.mk (SignedTransaction.tx_id s) (Money.euro 999)
    (SignedTransaction.metadata s) (SignedTransaction.signature s)
    (SignedTransaction.status s) (SignedTransaction.rejection_reason s).

(** One run of the workflow in the context whose execute callback fails,
    and what it returns. *)
Definition failing_run : outcome (list call) :=
  @qualify_and_execute sample_runtime (list call) (Money.euro 100)
    "test-model" (92 # 100) failing_context None sample_env [].

Definition failing_run_result : bool * SignedTransaction.t * GateDecision.t :=
  match returned failing_run with
  | Ok r => r
  | Raise _ => (false, sample_tx, sample_decision)
  end.

(** Floats written as literals in Python, by their exact ratio, and the
    sum of the interpreter up to Python 3.11. *)
Definition float_0_1 : Binary64.float := Binary64.float_lit 3602879701896397 55.
Definition float_0_9 : Binary64.float := Binary64.float_lit 8106479329266893 53.
Definition float_7 : Binary64.float := Binary64.float_lit 7 0.
Definition float_10 : Binary64.float := Binary64.float_lit 10 0.
Definition float_22 : Binary64.float := Binary64.float_lit 22 0.
Definition float_29 : Binary64.float := Binary64.float_lit 29 0.

Definition plain_sum : FloatSum :=
  {| float_sum := fun ws => fold_left Binary64.fadd ws Binary64.zero |}.

(** An amount too large to be converted to a float. *)
Definition huge_amount : Money.t := Money.euro_cents (2 ^ 1024).

(* ================================================================== *)
(** * Properties of core.py *)
(* ================================================================== *)

(** ** Auxiliary facts on currencies, sums and ranges *)

Lemma Currency_eqb_eq (a b : Currency.t) : Currency.eqb a b = true <-> a = b.
Proof. destruct a, b; simpl; split; intros H; congruence. Qed.

Lemma Currency_eqb_refl (c : Currency.t) : Currency.eqb c c = true.
Proof. apply Currency_eqb_eq; reflexivity. Qed.

Lemma Currency_eqb_neq (a b : Currency.t) : a <> b -> Currency.eqb a b = false.
Proof.
  intros H. destruct (Currency.eqb a b) eqn:E; [|reflexivity].
  apply Currency_eqb_eq in E. contradiction.
Qed.

Lemma fold_add_acc (xs : list Z) (a : Z) : fold_left Z.add xs a = a + sum_Z xs.
Proof.
  unfold sum_Z. revert a.
  induction xs as [|x xs IH]; intros a; simpl; [lia|].
  rewrite (IH (a + x)), (IH (0 + x)). lia.
Qed.

Lemma sum_Z_cons (x : Z) (xs : list Z) : sum_Z (x :: xs) = x + sum_Z xs.
Proof. unfold sum_Z at 1. simpl. apply fold_add_acc. Qed.

Lemma sum_Z_app (xs ys : list Z) : sum_Z (xs ++ ys) = sum_Z xs + sum_Z ys.
Proof.
  induction xs as [|x xs IH]; simpl; [reflexivity|].
  rewrite !sum_Z_cons, IH. lia.
Qed.

Lemma Money_add_same (a b : Z) (c : Currency.t) :
  Money.__add__ (Money.mk a c) (Money.mk b c) = Ok (Money.mk (a + b) c).
Proof. unfold Money.__add__. simpl. rewrite Currency_eqb_refl. reflexivity. Qed.

(** Summing parts of one currency adds their minor units. *)
Lemma Money_sum_of_minor (zs : list Z) (a : Z) (c : Currency.t) :
  Money.sum (map (fun z => Money.of_minor z c) zs) (Money.mk a c)
  = Ok (Money.mk (a + sum_Z zs) c).
Proof.
  revert a. induction zs as [|z zs IH]; intros a; simpl.
  - unfold sum_Z; simpl. f_equal. f_equal. lia.
  - unfold Money.of_minor at 1. rewrite Money_add_same. simpl.
    rewrite IH, sum_Z_cons. f_equal. f_equal. lia.
Qed.

Lemma range_length (n : Z) : 0 <= n -> Z.of_nat (length (range n)) = n.
Proof.
  intros H. unfold range. rewrite length_map, length_seq. lia.
Qed.

(** The shares of the largest remainder method over the first [k] indices
    add up to [k] bases plus the units handed out so far. *)
Lemma shares_sum (base r : Z) (k : nat) :
  0 <= r ->
  sum_Z (map (fun i => base + (if i <? r then 1 else 0))
             (map Z.of_nat (seq 0 k)))
  = Z.of_nat k * base + Z.min r (Z.of_nat k).
Proof.
  intros Hr. induction k as [|k IH].
  - simpl. unfold sum_Z. simpl. lia.
  - rewrite seq_S, !map_app, sum_Z_app, IH. simpl.
    rewrite sum_Z_cons. unfold sum_Z at 1. simpl.
    destruct (Z.ltb_spec (Z.of_nat k) r); lia.
Qed.

(** ** C1: distribute *)

(** C1.  For every amount [m] (of any sign) and every [n] with
    [1 <= n <= 10000], [distribute m n] returns exactly [n] parts of the
    currency of [m] whose sum is [m]; for [n <= 0] and for [n > 10000] it
    raises [ValueError]. *)
Theorem distribute_exact (m : Money.t) (n : Z) :
  (1 <= n <= 10000 ->
   exists parts,
     Money.distribute m n = Ok parts
     /\ Z.of_nat (length parts) = n
     /\ Forall (fun p => Money._currency p = Money._currency m) parts
     /\ Money.sum parts (Money.zero (Money._currency m)) = Ok m)
  /\ (n <= 0 \/ n > 10000 -> raises (Money.distribute m n) ValueError).
Proof.
  split.
  - intros [Hlo Hhi]. unfold Money.distribute, Money.MAX_DISTRIBUTION_PARTS.
    destruct (Z.leb_spec n 0) as [Hn|_]; [lia|].
    destruct (n >? 10000) eqn:Hgt; [apply Z.gtb_lt in Hgt; lia|].
    eexists. split; [reflexivity|]. split; [|split].
    + rewrite length_map. apply range_length. lia.
    + apply List.Forall_forall. intros p Hp. apply in_map_iff in Hp.
      destruct Hp as [i [<- _]]. reflexivity.
    + destruct m as [units c]. simpl. unfold Money.zero.
      rewrite <- (map_map (fun i => units / n + (if i <? units mod n then 1 else 0))
                          (fun z => Money.of_minor z c)).
      rewrite Money_sum_of_minor. unfold range.
      pose proof (Z.mod_pos_bound units n ltac:(lia)) as Hmod.
      rewrite shares_sum by lia.
      rewrite Z2Nat.id by lia.
      f_equal. f_equal.
      pose proof (Z.div_mod units n ltac:(lia)). lia.
  - intros Hbad. unfold Money.distribute, Money.MAX_DISTRIBUTION_PARTS.
    destruct (Z.leb_spec n 0) as [Hn|Hn]; [eexists; reflexivity|].
    destruct (n >? 10000) eqn:Hgt; [eexists; reflexivity|].
    rewrite Z.gtb_ltb in Hgt. apply Z.ltb_ge in Hgt. lia.
Qed.

Lemma distribute_exact_witness :
  1 <= 12 <= 10000
  /\ (exists parts,
        Money.distribute (Money.euro 2026) 12 = Ok parts
        /\ Z.of_nat (length parts) = 12
        /\ Forall (fun p => Money._currency p = Currency.EUR) parts
        /\ Money.sum parts (Money.zero Currency.EUR) = Ok (Money.euro 2026))
  /\ raises (Money.distribute (Money.euro 2026) 0) ValueError.
Proof.
  split; [lia|]. split.
  - apply (proj1 (distribute_exact (Money.euro 2026) 12)). lia.
  - apply (proj2 (distribute_exact (Money.euro 2026) 0)). left. lia.
Defined.

(** ** C2: the UP rounding strategy *)

Lemma py_int_floor (v : Q) : (0 <= v)%Q -> py_int v = Qfloor v.
Proof.
  destruct v as [n d]. unfold Qle, py_int, Qfloor. simpl. intros H.
  apply Z.quot_div_nonneg; lia.
Qed.

Lemma py_int_ceiling (v : Q) : (v <= 0)%Q -> py_int v = Qceiling v.
Proof.
  destruct v as [n d]. unfold Qle, py_int, Qceiling, Qfloor, Qopp. simpl.
  intros H.
  replace n with (- - n) at 1 by lia.
  rewrite Z.quot_opp_l by lia.
  rewrite Z.quot_div_nonneg by lia. reflexivity.
Qed.

Lemma Qle_bool_false (a b : Q) : Qle_bool a b = false -> (b < a)%Q.
Proof.
  intros H. apply Qnot_le_lt. intros Hle.
  apply Qle_bool_iff in Hle. congruence.
Qed.

(** On every input the UP strategy of the source is the ceiling: it moves
    away from zero on positive inputs and toward zero on negative ones. *)
Lemma up_is_ceiling (v : Q) : _apply_rounding v UP = Qceiling v.
Proof.
  simpl. unfold _up, math_ceil.
  destruct (Qle_bool 0 v) eqn:E; [reflexivity|].
  apply py_int_ceiling. apply Qlt_le_weak, Qle_bool_false, E.
Qed.

(** C2.  The claim asks that UP sends a negative non-integer input to its
    floor ([-2.3] to [-3]).  The source computes [int(v)] on negative
    inputs, which truncates toward zero: [-2.3] is rounded to [-2], while
    its floor is [-3]. *)
Theorem up_rounding_of_negative_input :
  _apply_rounding (- (23 # 10)) UP = -2
  /\ Qfloor (- (23 # 10)) = -3
  /\ _apply_rounding float_minus_2_3 UP = -2
  /\ Qfloor float_minus_2_3 = -3.
Proof. repeat split; vm_compute; reflexivity. Qed.

(** ** C6: VAT and discount *)

(** The divisions by [100] never raise: the divisor is not zero. *)
Lemma truediv_hundred (r : Binary64.float) :
  Binary64.truediv r Binary64.hundred = Ok (Binary64.fdiv r Binary64.hundred).
Proof. reflexivity. Qed.

(** C6, as the code has it.  Let the minor units of [m] convert to the
    float [units].  If the rounding of [units * (r / 100)] returns an
    integer, [add_vat] returns [(net, vat, gross)] with [net = m] and
    [net + vat = gross], the gross being the integer sum of the net and of
    the rounded VAT, and [apply_discount] returns [(discount, discounted)]
    with [discount + discounted = m], the discounted price being the
    integer difference.  If [1 + r / 100] is not zero and the rounding of
    [units / (1 + r / 100)] returns an integer, [extract_vat] returns
    [(net, vat, gross)] with [gross = m] and [net + vat = gross], the VAT
    being the integer difference. *)
Theorem vat_and_discount_exact (m : Money.t) (r : Binary64.float)
    (mode : RoundingMode) (units : Binary64.float) :
  let rate := Binary64.fdiv r Binary64.hundred in
  Binary64.float_of_int (Money._minor_units m) = Ok units ->
  (forall vat_minor,
     Binary64._apply_rounding (Binary64.fmul units rate) mode = Ok vat_minor ->
     exists net vat gross,
       Binary64.add_vat m r mode = Ok (net, vat, gross)
       /\ net = m
       /\ Money._minor_units vat = vat_minor
       /\ Money._minor_units gross = Money._minor_units net + Money._minor_units vat
       /\ Money.__add__ net vat = Ok gross)
  /\ (forall net_minor,
        Binary64.feq (Binary64.fadd Binary64.one rate) Binary64.zero = false ->
        Binary64._apply_rounding
          (Binary64.fdiv units (Binary64.fadd Binary64.one rate)) mode
        = Ok net_minor ->
        exists net vat gross,
          Binary64.extract_vat m r mode = Ok (net, vat, gross)
          /\ gross = m
          /\ Money._minor_units net = net_minor
          /\ Money._minor_units vat
             = Money._minor_units gross - Money._minor_units net
          /\ Money.__add__ net vat = Ok gross)
  /\ (forall discount_minor,
        Binary64._apply_rounding (Binary64.fmul units rate) mode
        = Ok discount_minor ->
        exists discount discounted,
          Binary64.apply_discount m r mode = Ok (discount, discounted)
          /\ Money._minor_units discount = discount_minor
          /\ Money._minor_units discounted
             = Money._minor_units m - Money._minor_units discount
          /\ Money.__add__ discount discounted = Ok m).
Proof.
  intros rate Hconv. subst rate. destruct m as [u c]. simpl in Hconv.
  split; [|split].
  - intros v Hv. unfold Binary64.add_vat.
    rewrite truediv_hundred. cbn [bind Money._minor_units Money._currency].
    rewrite Hconv. cbn [bind]. rewrite Hv. cbn [bind].
    do 3 eexists. split; [reflexivity|]. split; [reflexivity|].
    split; [reflexivity|]. split; [reflexivity|].
    unfold Money.of_minor. apply Money_add_same.
  - intros v Hnz Hv. unfold Binary64.extract_vat.
    rewrite truediv_hundred. cbn [bind Money._minor_units Money._currency].
    rewrite Hconv. cbn [bind]. unfold Binary64.truediv. rewrite Hnz.
    cbn [bind]. rewrite Hv. cbn [bind].
    do 3 eexists. split; [reflexivity|]. split; [reflexivity|].
    split; [reflexivity|]. split; [reflexivity|].
    unfold Money.of_minor. rewrite Money_add_same. f_equal. f_equal. lia.
  - intros v Hv. unfold Binary64.apply_discount.
    rewrite truediv_hundred. cbn [bind Money._minor_units Money._currency].
    rewrite Hconv. cbn [bind]. rewrite Hv. cbn [bind].
    do 2 eexists. split; [reflexivity|]. split; [reflexivity|].
    split; [reflexivity|].
    unfold Money.of_minor. rewrite Money_add_same. f_equal. f_equal. lia.
Qed.

Lemma vat_and_discount_exact_witness :
  (exists net vat gross,
     Binary64.add_vat (Money.euro_cents 100) float_29 DOWN = Ok (net, vat, gross)
     /\ net = Money.euro_cents 100
     /\ Money._minor_units vat = 28
     /\ Money._minor_units gross = Money._minor_units net + Money._minor_units vat
     /\ Money.__add__ net vat = Ok gross)
  /\ Binary64.extract_vat (Money.euro_cents 33) float_10 DOWN
     = Ok (Money.euro_cents 29, Money.euro_cents 4, Money.euro_cents 33)
  /\ Binary64.apply_discount (Money.euro_cents 50) float_7 HALF_DOWN
     = Ok (Money.euro_cents 4, Money.euro_cents 46).
Proof.
  split; [|split; vm_compute; reflexivity].
  destruct (vat_and_discount_exact (Money.euro_cents 100) float_29 DOWN
              (Binary64.float_lit 100 0)) as [Hvat _].
  - vm_compute. reflexivity.
  - apply (Hvat 28). vm_compute. reflexivity.
Defined.

(** The claim of C6 fails on an amount that does not fit a float: with
    2^1024 minor units the conversion of the operand raises
    [OverflowError], and none of the three calls returns. *)
Lemma vat_of_unconvertible_amount_raises :
  raises (Binary64.add_vat huge_amount float_22 HALF_EVEN) OverflowError
  /\ raises (Binary64.extract_vat huge_amount float_22 HALF_EVEN) OverflowError
  /\ raises (Binary64.apply_discount huge_amount float_22 HALF_EVEN)
       OverflowError.
Proof.
  repeat split; exists "int too large to convert to float";
    vm_compute; reflexivity.
Qed.

(** ** C7: comparing amounts of different currencies *)

(** C7, as the code has it.  For two amounts of different currencies the
    ordering comparisons [<], [<=], [>] and [>=] raise [TypeError], while
    the equality test returns the ordinary boolean [False]. *)
Theorem compare_across_currencies (a b : Money.t) :
  Money._currency a <> Money._currency b ->
  raises (Money_compare CmpLt a b) TypeError
  /\ raises (Money_compare CmpLe a b) TypeError
  /\ raises (Money_compare CmpGt a b) TypeError
  /\ raises (Money_compare CmpGe a b) TypeError
  /\ Money_compare CmpEq a b = Ok false.
Proof.
  intros Hne. apply Currency_eqb_neq in Hne.
  unfold Money_compare, Money.__lt__, Money.__le__, Money.__gt__, Money.__ge__,
    Money.__eq__, Money._check_same_currency.
  rewrite Hne. simpl.
  repeat split; try (eexists; reflexivity).
  rewrite andb_false_r. reflexivity.
Qed.

Lemma compare_across_currencies_witness :
  Currency.EUR <> Currency.USD
  /\ raises (Money_compare CmpLt (Money.euro 100) (Money.usd 100)) TypeError
  /\ Money_compare CmpEq (Money.euro 100) (Money.usd 100) = Ok false.
Proof.
  assert (Hne : Currency.EUR <> Currency.USD) by discriminate.
  split; [exact Hne|].
  pose proof (compare_across_currencies (Money.euro 100) (Money.usd 100) Hne)
    as [Hlt [_ [_ [_ Heq]]]].
  split; [exact Hlt | exact Heq].
Defined.

(** The claim of C7 fails for the equality test: on 100 EUR and 100 USD it
    answers [False] and raises nothing. *)
Lemma equality_across_currencies_returns :
  Money._currency (Money.euro 100) <> Money._currency (Money.usd 100)
  /\ Money_compare CmpEq (Money.euro 100) (Money.usd 100) = Ok false
  /\ ~ raises (Money_compare CmpEq (Money.euro 100) (Money.usd 100)) TypeError.
Proof.
  split; [discriminate|]. split; [reflexivity|].
  intros [msg H]. discriminate H.
Qed.

(** ** C8: distribute_weighted *)

(** *** The exact reading: rounding and the largest weight *)

(** The rounding strategies depend on the value of their input only, not
    on the fraction that represents it. *)
Lemma apply_rounding_comp (a b : Q) (mode : RoundingMode) :
  (a == b)%Q -> _apply_rounding a mode = _apply_rounding b mode.
Proof.
  intros Hab. destruct mode; simpl.
  - unfold _half_up, math_floor. apply Qfloor_comp. rewrite Hab. reflexivity.
  - unfold _half_even, py_round.
    rewrite (Qfloor_comp a b Hab).
    assert (Hc : Qcompare (a - inject_Z (Qfloor b)) (1 # 2)
                 = Qcompare (b - inject_Z (Qfloor b)) (1 # 2)).
    { apply Qcompare_comp; [rewrite Hab|]; reflexivity. }
    rewrite Hc. reflexivity.
  - unfold _down, math_ceil.
    rewrite (Qleb_comp 0%Q 0%Q (Qeq_refl 0%Q) a b Hab).
    destruct (Qle_bool 0 b) eqn:E.
    + apply Qle_bool_iff in E.
      rewrite !py_int_floor; [apply Qfloor_comp, Hab | exact E | rewrite Hab; exact E].
    + apply Qceiling_comp, Hab.
  - unfold _up, math_ceil.
    rewrite (Qleb_comp 0%Q 0%Q (Qeq_refl 0%Q) a b Hab).
    destruct (Qle_bool 0 b) eqn:E.
    + apply Qceiling_comp, Hab.
    + apply Qle_bool_false, Qlt_le_weak in E.
      rewrite !py_int_ceiling; [apply Qceiling_comp, Hab | exact E | rewrite Hab; exact E].
  - unfold _half_down, math_ceil, math_floor.
    rewrite (Qleb_comp 0%Q 0%Q (Qeq_refl 0%Q) a b Hab).
    destruct (Qle_bool 0 b).
    + apply Qceiling_comp. rewrite Hab. reflexivity.
    + apply Qfloor_comp. rewrite Hab. reflexivity.
Qed.

Lemma Qlt_bool_true (a b : Q) : Qlt_bool a b = true -> (a < b)%Q.
Proof.
  unfold Qlt_bool. intros H. apply negb_true_iff in H.
  apply Qle_bool_false, H.
Qed.

Lemma Qlt_bool_false (a b : Q) : Qlt_bool a b = false -> (b <= a)%Q.
Proof.
  unfold Qlt_bool. intros H. apply negb_false_iff in H.
  apply Qle_bool_iff, H.
Qed.

(** The running maximum of [max] is one of the elements seen and bounds
    all of them. *)
Lemma running_max_spec (rest : list Q) (w : Q) :
  let m := fold_left (fun m x => if Qlt_bool m x then x else m) rest w in
  In m (w :: rest) /\ (forall x, In x (w :: rest) -> (x <= m)%Q).
Proof.
  revert w. induction rest as [|x rest IH]; intros w; simpl.
  - split; [left; reflexivity|]. intros y [<-|[]]. apply Qle_refl.
  - destruct (Qlt_bool w x) eqn:E.
    + destruct (IH x) as [Hin Hub]. split.
      * right. exact Hin.
      * intros y [<-|Hy]; [|apply Hub, Hy].
        apply Qle_trans with (y := x).
        -- apply Qlt_le_weak, Qlt_bool_true, E.
        -- apply Hub. left. reflexivity.
    + destruct (IH w) as [Hin Hub]. split.
      * destruct Hin as [Hin|Hin]; [left; exact Hin | right; right; exact Hin].
      * intros y [<-|[<-|Hy]].
        -- apply Hub. left. reflexivity.
        -- apply Qle_trans with (y := w).
           ++ apply Qlt_bool_false, E.
           ++ apply Hub. left. reflexivity.
        -- apply Hub. right. exact Hy.
Qed.

(** [index] finds the first element equal to the one sought. *)
Lemma py_index_spec (ws : list Q) (x : Q) :
  (exists y, In y ws /\ (y == x)%Q) ->
  exists i w,
    py_index ws x = Ok i
    /\ ws !! i = Some w
    /\ (w == x)%Q
    /\ (forall j w', (j < i)%nat -> ws !! j = Some w' -> ~ (w' == x)%Q).
Proof.
  induction ws as [|w ws IH]; intros [y [Hin Hy]]; [destruct Hin|].
  simpl. destruct (Qeq_bool w x) eqn:E.
  - exists 0%nat, w. split; [reflexivity|]. split; [reflexivity|].
    split; [apply Qeq_bool_iff, E|]. intros j w' Hj. lia.
  - assert (Hne : ~ (w == x)%Q).
    { intros Hc. apply Qeq_bool_iff in Hc. congruence. }
    destruct Hin as [->|Hin]; [contradiction|].
    destruct IH as [i [w1 [Hidx [Hlk [Heq Hfirst]]]]]; [exists y; auto|].
    exists (S i), w1. rewrite Hidx. simpl.
    split; [reflexivity|]. split; [exact Hlk|]. split; [exact Heq|].
    intros [|j] w' Hj Hlk'; simpl in Hlk'.
    + injection Hlk' as <-. exact Hne.
    + apply (Hfirst j w'); [lia | exact Hlk'].
Qed.

(** On a non-empty list, [weights.index(max(weights))] returns the first
    position of the largest weight. *)
Lemma max_index_spec (ws : list Q) :
  ws <> [] ->
  exists m i,
    py_max ws = Ok m /\ py_index ws m = Ok i /\ first_max_index ws i.
Proof.
  destruct ws as [|w rest]; [congruence|]. intros _.
  pose proof (running_max_spec rest w) as [Hin Hub].
  set (m := fold_left (fun m x => if Qlt_bool m x then x else m) rest w) in *.
  destruct (py_index_spec (w :: rest) m) as [i [w1 [Hidx [Hlk [Heq Hfirst]]]]].
  { exists m. split; [exact Hin | reflexivity]. }
  exists m, i. split; [reflexivity|]. split; [exact Hidx|].
  exists w1. split; [exact Hlk|]. split.
  - intros j w' Hj. rewrite Heq. apply Hub.
    apply list_elem_of_In, list_elem_of_lookup. exists j. exact Hj.
  - intros j w' Hlt Hj.
    assert (Hle : (w' <= m)%Q).
    { apply Hub, list_elem_of_In, list_elem_of_lookup. exists j. exact Hj. }
    apply Qle_lteq in Hle as [Hlt'|Heq'].
    + rewrite Heq. exact Hlt'.
    + exfalso. apply (Hfirst j w' Hlt Hj). exact Heq'.
Qed.

Lemma insert_as_alter {A : Type} (f : A -> A) (l : list A) (i : nat) (x : A) :
  l !! i = Some x -> <[i := f x]> l = alter f i l.
Proof.
  revert i. induction l as [|y l IH]; intros [|i] H; simpl in *; try discriminate.
  - injection H as ->. reflexivity.
  - f_equal. apply IH, H.
Qed.

Lemma sum_Z_alter (l : list Z) (i : nat) (d : Z) :
  (i < length l)%nat -> sum_Z (alter (fun r => r + d) i l) = sum_Z l + d.
Proof.
  revert i. induction l as [|y l IH]; intros [|i] H; simpl in H; try lia.
  - change (alter (fun r => r + d) 0%nat (y :: l)) with ((y + d) :: l).
    rewrite !sum_Z_cons. lia.
  - change (alter (fun r => r + d) (S i) (y :: l))
      with (y :: alter (fun r => r + d) i l).
    rewrite !sum_Z_cons. rewrite IH by lia. lia.
Qed.

Lemma no_negative_weight (ws : list Q) :
  Forall (fun w => (0 <= w)%Q) ws -> existsb (fun w => Qlt_bool w 0) ws = false.
Proof.
  induction 1 as [|w ws Hw _ IH]; simpl; [reflexivity|].
  rewrite IH, orb_false_r. unfold Qlt_bool.
  apply negb_false_iff, Qle_bool_iff, Hw.
Qed.

(** The parts computed by the source before the residual is placed are the
    roundings of [minorUnits * weight / total]. *)
Lemma rounded_parts_eq (units : Z) (total : Q) (mode : RoundingMode) (ws : list Q) :
  map (fun a => _apply_rounding a mode)
      (map (fun p => (inject_Z units * p)%Q)
           (map (fun w => (w / total)%Q) ws))
  = map (fun w => _apply_rounding (inject_Z units * w / total) mode) ws.
Proof.
  rewrite !map_map. apply map_ext. intros w.
  apply apply_rounding_comp. unfold Qdiv. apply Qmult_assoc.
Qed.

(** *** The order of the non-negative floats *)

Lemma rank_lt_trans (x y z : Z * Z * Z) :
  rank_lt x y -> rank_lt y z -> rank_lt x z.
Proof.
  destruct x as [[x1 x2] x3], y as [[y1 y2] y3], z as [[z1 z2] z3].
  unfold rank_lt. simpl. lia.
Qed.

Lemma rank_total (x y : Z * Z * Z) : rank_lt x y \/ x = y \/ rank_lt y x.
Proof.
  destruct x as [[x1 x2] x3], y as [[y1 y2] y3]. unfold rank_lt. simpl.
  destruct (Z.lt_trichotomy x1 y1) as [H|[H|H]];
    destruct (Z.lt_trichotomy x2 y2) as [H2|[H2|H2]];
    destruct (Z.lt_trichotomy x3 y3) as [H3|[H3|H3]];
    try (left; lia); try (right; right; lia).
  right. left. subst. reflexivity.
Qed.

Lemma rank_lt_irrefl (x : Z * Z * Z) : ~ rank_lt x x.
Proof. destruct x as [[x1 x2] x3]. unfold rank_lt. simpl. lia. Qed.

Lemma flt_rank (a b : Binary64.float) :
  Binary64.fle Binary64.zero a = true ->
  Binary64.fle Binary64.zero b = true ->
  Binary64.flt a b = true <-> rank_lt (float_rank a) (float_rank b).
Proof.
  unfold Binary64.fle, Binary64.flt, Binary64.zero, SFleb, SFltb, rank_lt.
  destruct a as [sa|[]| |[] ma ea]; simpl; try discriminate;
    destruct b as [sb|[]| |[] mb eb]; simpl; try discriminate; intros _ _;
    try (split; [intros H; solve [lia | discriminate H]
                | intros H; solve [reflexivity | lia]]).
  destruct (Z.compare_spec ea eb) as [He|He|He].
  - change (Pos.compare_cont Eq ma mb) with (Pos.compare ma mb).
    destruct (Pos.compare_spec ma mb) as [Hm|Hm|Hm];
      (split; [intros H; solve [lia | discriminate H]
              | intros H; solve [reflexivity | lia]]).
  - split; [intros _; lia | reflexivity].
  - split; [intros H; discriminate H | intros H; lia].
Qed.

Lemma feq_rank (a b : Binary64.float) :
  Binary64.fle Binary64.zero a = true ->
  Binary64.fle Binary64.zero b = true ->
  Binary64.feq a b = true <-> float_rank a = float_rank b.
Proof.
  unfold Binary64.fle, Binary64.feq, Binary64.zero, SFleb, SFeqb.
  destruct a as [sa|[]| |[] ma ea]; simpl; try discriminate;
    destruct b as [sb|[]| |[] mb eb]; simpl; try discriminate; intros _ _;
    try (split; [intros H; solve [reflexivity | discriminate H]
                | intros H; solve [reflexivity | discriminate H]]).
  destruct (Z.compare_spec ea eb) as [He|He|He].
  - change (Pos.compare_cont Eq ma mb) with (Pos.compare ma mb).
    destruct (Pos.compare_spec ma mb) as [Hm|Hm|Hm].
    + subst. split; reflexivity.
    + split; [intros H; discriminate H | intros H; injection H; lia].
    + split; [intros H; discriminate H | intros H; injection H; lia].
  - split; [intros H; discriminate H | intros H; injection H; lia].
  - split; [intros H; discriminate H | intros H; injection H; lia].
Qed.

Lemma fle_rank (a b : Binary64.float) :
  Binary64.fle Binary64.zero a = true ->
  Binary64.fle Binary64.zero b = true ->
  Binary64.fle a b = true
  <-> rank_lt (float_rank a) (float_rank b) \/ float_rank a = float_rank b.
Proof.
  intros Ha Hb.
  rewrite <- (flt_rank a b Ha Hb), <- (feq_rank a b Ha Hb).
  unfold Binary64.fle, Binary64.flt, Binary64.feq, SFleb, SFltb, SFeqb.
  destruct (SFcompare a b) as [[| |]|]; split; intros H;
    try reflexivity; try discriminate H;
    try (left; reflexivity); try (right; reflexivity);
    destruct H as [H|H]; discriminate H.
Qed.

Lemma flt_false_rank (a b : Binary64.float) :
  Binary64.fle Binary64.zero a = true ->
  Binary64.fle Binary64.zero b = true ->
  Binary64.flt a b = false -> Binary64.fle b a = true.
Proof.
  intros Ha Hb H. apply (fle_rank b a Hb Ha).
  destruct (rank_total (float_rank a) (float_rank b)) as [Hl|[He|Hg]].
  - apply (flt_rank a b Ha Hb) in Hl. congruence.
  - right. symmetry. exact He.
  - left. exact Hg.
Qed.

Lemma fle_trans (a b c : Binary64.float) :
  Binary64.fle Binary64.zero a = true ->
  Binary64.fle Binary64.zero b = true ->
  Binary64.fle Binary64.zero c = true ->
  Binary64.fle a b = true -> Binary64.fle b c = true ->
  Binary64.fle a c = true.
Proof.
  intros Ha Hb Hc Hab Hbc.
  apply (fle_rank a b Ha Hb) in Hab. apply (fle_rank b c Hb Hc) in Hbc.
  apply (fle_rank a c Ha Hc).
  destruct Hab as [Hab|Hab], Hbc as [Hbc|Hbc].
  - left. exact (rank_lt_trans _ _ _ Hab Hbc).
  - left. rewrite <- Hbc. exact Hab.
  - left. rewrite Hab. exact Hbc.
  - right. congruence.
Qed.

(** The running maximum of [max] is one of the elements seen and bounds
    all of them. *)
Lemma running_max_float (rest : list Binary64.float) (w : Binary64.float) :
  Forall (fun x => Binary64.fle Binary64.zero x = true) (w :: rest) ->
  let m := fold_left (fun m x => if Binary64.flt m x then x else m) rest w in
  In m (w :: rest)
  /\ (forall x, In x (w :: rest) -> Binary64.fle x m = true).
Proof.
  revert w. induction rest as [|x rest IH]; intros w Hall; simpl.
  - apply List.Forall_inv in Hall.
    split; [left; reflexivity|]. intros y [<-|[]].
    apply (fle_rank w w Hall Hall). right. reflexivity.
  - assert (Hw : Binary64.fle Binary64.zero w = true)
      by exact (List.Forall_inv Hall).
    assert (Hrest : Forall (fun x => Binary64.fle Binary64.zero x = true)
                           (x :: rest))
      by exact (List.Forall_inv_tail Hall).
    assert (Hx : Binary64.fle Binary64.zero x = true)
      by exact (List.Forall_inv Hrest).
    destruct (Binary64.flt w x) eqn:E.
    + destruct (IH x Hrest) as [Hin Hub]. split; [right; exact Hin|].
      assert (Hm : Binary64.fle Binary64.zero
                     (fold_left (fun m x => if Binary64.flt m x then x else m)
                                rest x) = true).
      { rewrite List.Forall_forall in Hrest. apply Hrest, Hin. }
      intros y [<-|Hy]; [|apply Hub, Hy].
      apply (fle_trans w x _ Hw Hx Hm); [|apply Hub; left; reflexivity].
      apply (fle_rank w x Hw Hx). left. apply (flt_rank w x Hw Hx), E.
    + assert (Hwrest : Forall (fun x => Binary64.fle Binary64.zero x = true)
                              (w :: rest)).
      { constructor; [exact Hw | exact (List.Forall_inv_tail Hrest)]. }
      destruct (IH w Hwrest) as [Hin Hub]. split.
      * destruct Hin as [Hin|Hin]; [left; exact Hin | right; right; exact Hin].
      * assert (Hm : Binary64.fle Binary64.zero
                       (fold_left (fun m x => if Binary64.flt m x then x else m)
                                  rest w) = true).
        { rewrite List.Forall_forall in Hwrest. apply Hwrest, Hin. }
        intros y [<-|[<-|Hy]].
        -- apply Hub. left. reflexivity.
        -- apply (fle_trans x w _ Hx Hw Hm); [|apply Hub; left; reflexivity].
           apply (flt_false_rank w x Hw Hx E).
        -- apply Hub. right. exact Hy.
Qed.

(** [index] finds the first element equal to the one sought. *)
Lemma py_index_float_spec (ws : list Binary64.float) (x : Binary64.float) :
  (exists y, In y ws /\ Binary64.feq y x = true) ->
  exists i w,
    Binary64.py_index ws x = Ok i
    /\ ws !! i = Some w
    /\ Binary64.feq w x = true
    /\ (forall j w', (j < i)%nat -> ws !! j = Some w' ->
                     Binary64.feq w' x = false).
Proof.
  induction ws as [|w ws IH]; intros [y [Hin Hy]]; [destruct Hin|].
  simpl. destruct (Binary64.feq w x) eqn:E.
  - exists 0%nat, w. split; [reflexivity|]. split; [reflexivity|].
    split; [exact E|]. intros j w' Hj. lia.
  - destruct Hin as [->|Hin]; [congruence|].
    destruct IH as [i [w1 [Hidx [Hlk [Heq Hfirst]]]]]; [exists y; auto|].
    exists (S i), w1. rewrite Hidx. simpl.
    split; [reflexivity|]. split; [exact Hlk|]. split; [exact Heq|].
    intros [|j] w' Hj Hlk'; simpl in Hlk'.
    + injection Hlk' as <-. exact E.
    + apply (Hfirst j w'); [lia | exact Hlk'].
Qed.

(** On a non-empty list of non-negative floats,
    [weights.index(max(weights))] returns the first position of the
    largest weight. *)
Lemma max_index_float (ws : list Binary64.float) :
  ws <> [] ->
  Forall (fun w => Binary64.fle Binary64.zero w = true) ws ->
  exists m i,
    Binary64.py_max ws = Ok m /\ Binary64.py_index ws m = Ok i
    /\ first_max_float ws i.
Proof.
  destruct ws as [|w rest]; [congruence|]. intros _ Hall.
  pose proof (running_max_float rest w Hall) as [Hin Hub].
  set (m := fold_left (fun m x => if Binary64.flt m x then x else m) rest w)
    in *.
  assert (Hnn : forall x, In x (w :: rest) ->
                          Binary64.fle Binary64.zero x = true)
    by (rewrite List.Forall_forall in Hall; exact Hall).
  assert (Hm : Binary64.fle Binary64.zero m = true) by (apply Hnn, Hin).
  destruct (py_index_float_spec (w :: rest) m)
    as [i [w1 [Hidx [Hlk [Heq Hfirst]]]]].
  { exists m. split; [exact Hin|]. apply (feq_rank m m Hm Hm). reflexivity. }
  assert (Hw1 : Binary64.fle Binary64.zero w1 = true).
  { apply Hnn, list_elem_of_In, list_elem_of_lookup. exists i. exact Hlk. }
  apply (feq_rank w1 m Hw1 Hm) in Heq.
  exists m, i. split; [reflexivity|]. split; [exact Hidx|].
  exists w1. split; [exact Hlk|]. split.
  - intros j w' Hj.
    assert (Hin' : In w' (w :: rest))
      by (apply list_elem_of_In, list_elem_of_lookup; exists j; exact Hj).
    pose proof (Hnn w' Hin') as Hw'.
    apply (fle_rank w' w1 Hw' Hw1). rewrite Heq.
    apply (fle_rank w' m Hw' Hm), Hub, Hin'.
  - intros j w' Hlt Hj.
    assert (Hin' : In w' (w :: rest))
      by (apply list_elem_of_In, list_elem_of_lookup; exists j; exact Hj).
    pose proof (Hnn w' Hin') as Hw'.
    apply (flt_rank w' w1 Hw' Hw1). rewrite Heq.
    pose proof (Hub w' Hin') as Hle. apply (fle_rank w' m Hw' Hm) in Hle.
    destruct Hle as [Hl|He]; [exact Hl|].
    apply (feq_rank w' m Hw' Hm) in He.
    rewrite (Hfirst j w' Hlt Hj) in He. discriminate He.
Qed.

Lemma no_negative_float (ws : list Binary64.float) :
  Forall (fun w => Binary64.fle Binary64.zero w = true) ws ->
  existsb (fun w => Binary64.flt w Binary64.zero) ws = false.
Proof.
  induction 1 as [|w ws Hw _ IH]; simpl; [reflexivity|].
  rewrite IH, orb_false_r.
  destruct (Binary64.flt w Binary64.zero) eqn:E; [|reflexivity].
  assert (Hz : Binary64.fle Binary64.zero Binary64.zero = true)
    by reflexivity.
  apply (flt_rank w Binary64.zero Hw Hz) in E.
  exfalso. revert E Hw.
  unfold Binary64.fle, Binary64.zero, SFleb, rank_lt.
  destruct w as [s|[]| |[] m e]; simpl; intros E Hw;
    solve [lia | discriminate Hw].
Qed.

Lemma positive_is_not_zero (total : Binary64.float) :
  Binary64.flt Binary64.zero total = true ->
  Binary64.feq total Binary64.zero = false.
Proof.
  unfold Binary64.flt, Binary64.feq, Binary64.zero, SFltb, SFeqb.
  destruct total as [s|[]| |[] m e]; simpl; intros H;
    solve [reflexivity | discriminate H].
Qed.

(** *** The comprehensions *)

Lemma map_result_returns {A B : Type} (f : A -> result B) (l : list A)
    (l' : list B) :
  Forall2 (fun x y => f x = Ok y) l l' -> map_result f l = Ok l'.
Proof.
  induction 1 as [|x y l l' Hxy _ IH]; simpl; [reflexivity|].
  rewrite Hxy. simpl. rewrite IH. reflexivity.
Qed.

Lemma Forall2_map_left {A B C : Type} (g : A -> B) (P : B -> C -> Prop)
    (l : list A) (l' : list C) :
  Forall2 (fun x y => P (g x) y) l l' -> Forall2 P (map g l) l'.
Proof.
  induction 1 as [|x y l l' Hxy _ IH]; simpl; constructor; assumption.
Qed.

Lemma raw_amounts_returns (u : Z) (units : Binary64.float)
    (ps : list Binary64.float) :
  Binary64.float_of_int u = Ok units ->
  map_result (fun p => minor <- Binary64.float_of_int u ;;
                       Ok (Binary64.fmul minor p)) ps
  = Ok (map (Binary64.fmul units) ps).
Proof.
  intros Hu. apply map_result_returns.
  induction ps as [|p ps IH]; simpl; constructor; [|exact IH].
  rewrite Hu. reflexivity.
Qed.

Section WeightedSplit.
Context {S : FloatSum}.

(** C8, as the code has it.  Take a non-empty list of at most 10000
    weights, none negative, whose float sum [total] is positive; let the
    minor units of [m] convert to the float [units], and let the rounding
    of each share [units * (w / total)], computed on binary64 floats,
    return an integer.  Then [distribute_weighted] returns one part per
    weight: the rounded shares, the residual [minorUnits - sum of the
    rounded shares] being added to the part at the first position of the
    largest weight; and the parts add up to [m]. *)
Theorem distribute_weighted_exact (m : Money.t) (ws : list Binary64.float)
    (mode : RoundingMode) (units : Binary64.float) (rounded : list Z) :
  let total := float_sum ws in
  let residual := Money._minor_units m - sum_Z rounded in
  ws <> [] ->
  Z.of_nat (length ws) <= 10000 ->
  Forall (fun w => Binary64.fle Binary64.zero w = true) ws ->
  Binary64.flt Binary64.zero total = true ->
  Binary64.float_of_int (Money._minor_units m) = Ok units ->
  Forall2 (fun w r =>
             Binary64._apply_rounding
               (Binary64.fmul units (Binary64.fdiv w total)) mode = Ok r)
          ws rounded ->
  exists i parts,
    first_max_float ws i
    /\ Binary64.distribute_weighted m ws mode = Ok parts
    /\ parts = map (fun r => Money.of_minor r (Money._currency m))
                   (alter (fun r => r + residual) i rounded)
    /\ length parts = length ws
    /\ Money.sum parts (Money.zero (Money._currency m)) = Ok m.
Proof.
  intros total residual Hne Hlen Hpos Htot Hconv Hround.
  destruct (max_index_float ws Hne Hpos) as [mx [i [Hmax [Hidx Hfirst]]]].
  assert (Hlr : length rounded = length ws)
    by (symmetry; exact (Forall2_length _ _ _ Hround)).
  assert (Hi : (i < length rounded)%nat).
  { destruct Hfirst as [w [Hlk _]]. apply lookup_lt_Some in Hlk. lia. }
  exists i. eexists. split; [exact Hfirst|].
  assert (Hrun : Binary64.distribute_weighted m ws mode
                 = Ok (map (fun r => Money.of_minor r (Money._currency m))
                           (alter (fun r => r + residual) i rounded))).
  { unfold Binary64.distribute_weighted, Money.MAX_DISTRIBUTION_PARTS.
    assert (E0 : (length ws =? 0)%nat = false)
      by (destruct ws; [congruence | reflexivity]).
    rewrite E0.
    replace (Z.of_nat (length ws) >? 10000) with false
      by (symmetry; rewrite Z.gtb_ltb; apply Z.ltb_ge; lia).
    rewrite no_negative_float by exact Hpos.
    fold total. rewrite (positive_is_not_zero total Htot).
    rewrite (raw_amounts_returns _ units _ Hconv). cbn [bind].
    rewrite (map_result_returns
               (fun a => Binary64._apply_rounding a mode)
               (map (Binary64.fmul units)
                    (map (fun w => Binary64.fdiv w total) ws)) rounded).
    2:{ rewrite map_map. apply Forall2_map_left. exact Hround. }
    cbn [bind]. fold residual.
    destruct (residual =? 0) eqn:Ez; cbn [negb bind].
    - apply Z.eqb_eq in Ez. rewrite Ez.
      rewrite list_alter_id by (intros; lia). reflexivity.
    - rewrite Hmax. cbn [bind]. rewrite Hidx. cbn [bind].
      destruct (lookup_lt_is_Some_2 rounded i Hi) as [r Hr].
      rewrite Hr. cbn [bind].
      rewrite (insert_as_alter (fun r => r + residual)) by exact Hr.
      reflexivity. }
  split; [exact Hrun|]. split; [reflexivity|]. split.
  - rewrite length_map, length_alter. exact Hlr.
  - destruct m as [u c]. simpl in *. unfold Money.zero.
    rewrite Money_sum_of_minor, sum_Z_alter by exact Hi.
    f_equal. f_equal. unfold residual. lia.
Qed.

End WeightedSplit.

Lemma distribute_weighted_exact_witness :
  (exists i parts,
     first_max_float [float_0_1; float_0_9] i
     /\ @Binary64.distribute_weighted plain_sum (Money.euro_cents 5)
          [float_0_1; float_0_9] HALF_EVEN = Ok parts
     /\ length parts = 2%nat
     /\ Money.sum parts (Money.zero Currency.EUR) = Ok (Money.euro_cents 5))
  /\ @Binary64.distribute_weighted plain_sum (Money.euro_cents 5)
       [float_0_1; float_0_9] HALF_EVEN
     = Ok [Money.euro_cents 0; Money.euro_cents 5].
Proof.
  split; [|vm_compute; reflexivity].
  destruct (@distribute_weighted_exact plain_sum (Money.euro_cents 5)
              [float_0_1; float_0_9] HALF_EVEN (Binary64.float_lit 5 0)
              [0; 4])
    as [i [parts [Hfirst [Hrun [_ [Hlen Hsum]]]]]].
  - discriminate.
  - simpl. lia.
  - repeat constructor.
  - vm_compute. reflexivity.
  - vm_compute. reflexivity.
  - repeat constructor; vm_compute; reflexivity.
  - exists i, parts. repeat split; assumption.
Defined.

(** The claim of C8 fails on an amount that does not fit a float: with
    2^1024 minor units and the single weight [1.0], which is not negative
    and has a positive sum, the conversion of the operand raises
    [OverflowError] and no part is returned. *)
Lemma weighted_split_of_unconvertible_amount_raises :
  Binary64.fle Binary64.zero Binary64.one = true
  /\ Binary64.flt Binary64.zero (@float_sum plain_sum [Binary64.one]) = true
  /\ raises (@Binary64.distribute_weighted plain_sum huge_amount
               [Binary64.one] HALF_EVEN) OverflowError.
Proof.
  split; [reflexivity|]. split; [vm_compute; reflexivity|].
  exists "int too large to convert to float". vm_compute. reflexivity.
Qed.

(* ================================================================== *)
(** * Properties of ifx.py *)
(* ================================================================== *)

(** ** C3: status transitions *)

(** A transition that succeeds changes the status and the rejection reason
    only. *)
Lemma call_transition_keeps (op : transition) (tx tx' : SignedTransaction.t) :
  call_transition op tx = Ok tx' ->
  SignedTransaction.tx_id tx' = SignedTransaction.tx_id tx
  /\ SignedTransaction.amount tx' = SignedTransaction.amount tx
  /\ SignedTransaction.metadata tx' = SignedTransaction.metadata tx
  /\ SignedTransaction.signature tx' = SignedTransaction.signature tx.
Proof.
  destruct op; simpl; unfold SignedTransaction.execute;
    try destruct (negb _); intros H; inversion H; repeat split.
Qed.

(** C3, as the code has it.  [execute] is guarded: it succeeds exactly on
    an admitted transaction, which it marks executed, and raises
    [ValueError] on every other status.  On a pending transaction [admit]
    and [reject] give the edges pending to admitted and pending to
    rejected; [reject] is accepted on an admitted transaction as well, the
    edge the workflow takes when the execute callback fails.  Every
    transition that succeeds returns a value with the same identifier,
    amount, metadata and signature, and from a pending transaction the
    transitions that succeed follow the documented edges. *)
Theorem transition_guards (tx : SignedTransaction.t) :
  (SignedTransaction.status tx = "admitted" ->
   exists tx', call_transition Execute tx = Ok tx'
               /\ SignedTransaction.status tx' = "executed"
               /\ SignedTransaction.rejection_reason tx' = None)
  /\ (SignedTransaction.status tx <> "admitted" ->
      raises (call_transition Execute tx) ValueError)
  /\ (SignedTransaction.status tx = "pending" ->
      exists tx', call_transition Admit tx = Ok tx'
                  /\ SignedTransaction.status tx' = "admitted"
                  /\ SignedTransaction.rejection_reason tx' = None)
  /\ (SignedTransaction.status tx = "pending"
      \/ SignedTransaction.status tx = "admitted" ->
      forall reason,
        exists tx', call_transition (Reject reason) tx = Ok tx'
                    /\ SignedTransaction.status tx' = "rejected"
                    /\ SignedTransaction.rejection_reason tx' = Some reason)
  /\ (forall op tx',
        call_transition op tx = Ok tx' ->
        SignedTransaction.tx_id tx' = SignedTransaction.tx_id tx
        /\ SignedTransaction.amount tx' = SignedTransaction.amount tx
        /\ SignedTransaction.metadata tx' = SignedTransaction.metadata tx
        /\ SignedTransaction.signature tx' = SignedTransaction.signature tx)
  /\ (forall op tx',
        SignedTransaction.status tx = "pending" ->
        call_transition op tx = Ok tx' ->
        documented_edge "pending" (SignedTransaction.status tx') = true).
Proof.
  split; [|split; [|split; [|split; [|split]]]].
  - intros Hs. simpl. unfold SignedTransaction.execute. rewrite Hs. simpl.
    eexists. repeat split.
  - intros Hs. simpl. unfold SignedTransaction.execute.
    destruct (String.eqb_spec (SignedTransaction.status tx) "admitted") as [E|_];
      [contradiction|].
    simpl. eexists. reflexivity.
  - intros _. eexists. simpl. repeat split.
  - intros _ reason. eexists. simpl. repeat split.
  - intros op tx' H. apply (call_transition_keeps op), H.
  - intros op tx' Hs. destruct op; simpl; unfold SignedTransaction.execute;
      rewrite ?Hs; simpl; intros H; inversion H; reflexivity.
Qed.

Lemma transition_guards_witness :
  (exists tx', call_transition Execute (SignedTransaction.admit_ sample_tx) = Ok tx'
               /\ SignedTransaction.status tx' = "executed"
               /\ SignedTransaction.rejection_reason tx' = None)
  /\ raises (call_transition Execute sample_tx) ValueError
  /\ (exists tx', call_transition Admit sample_tx = Ok tx'
                  /\ SignedTransaction.status tx' = "admitted"
                  /\ SignedTransaction.rejection_reason tx' = None)
  /\ (exists tx',
        call_transition (Reject "Execution failed: bank offline")
          (SignedTransaction.admit_ sample_tx) = Ok tx'
        /\ SignedTransaction.status tx' = "rejected"
        /\ SignedTransaction.rejection_reason tx'
           = Some "Execution failed: bank offline").
Proof.
  split; [|split; [|split]].
  - apply (proj1 (transition_guards (SignedTransaction.admit_ sample_tx))).
    reflexivity.
  - apply (proj1 (proj2 (transition_guards sample_tx))). discriminate.
  - apply (proj1 (proj2 (proj2 (transition_guards sample_tx)))). reflexivity.
  - apply (proj1 (proj2 (proj2 (proj2
             (transition_guards (SignedTransaction.admit_ sample_tx)))))).
    right. reflexivity.
Defined.

(** The claim of C3 fails on [reject]: called on an admitted transaction,
    as the workflow does when the execute callback fails, it returns a
    rejected transaction and raises nothing, an edge from admitted to
    rejected that is not among the documented ones. *)
Lemma reject_after_admit_is_accepted :
  let admitted := run_transitions [Admit] sample_tx in
  SignedTransaction.status admitted = "admitted"
  /\ (exists tx',
        call_transition (Reject "Execution failed: bank offline") admitted = Ok tx'
        /\ SignedTransaction.status tx' = "rejected")
  /\ documented_edge "admitted" "rejected" = false
  /\ ~ raises (call_transition (Reject "Execution failed: bank offline") admitted)
         ValueError.
Proof.
  simpl. split; [reflexivity|]. split.
  - eexists. split; reflexivity.
  - split; [reflexivity|]. intros [msg H]. discriminate H.
Qed.

(** Neither [admit] nor [reject] reads the status: a transaction that went
    pending, admitted, executed is marked admitted again by [admit]. *)
Lemma admit_after_execute_is_accepted :
  let executed := run_transitions [Admit; Execute] sample_tx in
  SignedTransaction.status executed = "executed"
  /\ (exists tx', call_transition Admit executed = Ok tx'
                  /\ SignedTransaction.status tx' = "admitted")
  /\ documented_edge "executed" "admitted" = false.
Proof.
  simpl. split; [reflexivity|]. split.
  - eexists. split; reflexivity.
  - reflexivity.
Qed.

(** ** C10: the signature and the status *)

Section Signature.
Context {R : Runtime}.

Lemma verify_signature_sign (tx : SignedTransaction.t) :
  SignedTransaction.verify_signature (SignedTransaction.sign tx) = true.
Proof.
  unfold SignedTransaction.verify_signature, SignedTransaction.sign,
    SignedTransaction.signed_content, compare_digest.
  simpl. apply String.eqb_refl.
Qed.

(** The verification reads the identifier, the amount, the metadata and the
    stored signature, nothing else. *)
Lemma verify_signature_ext (a b : SignedTransaction.t) :
  SignedTransaction.tx_id a = SignedTransaction.tx_id b ->
  SignedTransaction.amount a = SignedTransaction.amount b ->
  SignedTransaction.metadata a = SignedTransaction.metadata b ->
  SignedTransaction.signature a = SignedTransaction.signature b ->
  SignedTransaction.verify_signature a = SignedTransaction.verify_signature b.
Proof.
  intros H1 H2 H3 H4.
  unfold SignedTransaction.verify_signature, SignedTransaction.signed_content.
  rewrite H1, H2, H3, H4. reflexivity.
Qed.

Lemma call_transition_verify (op : transition) (tx tx' : SignedTransaction.t) :
  call_transition op tx = Ok tx' ->
  SignedTransaction.verify_signature tx' = SignedTransaction.verify_signature tx.
Proof.
  intros H. destruct (call_transition_keeps op tx tx' H) as [H1 [H2 [H3 H4]]].
  apply verify_signature_ext; assumption.
Qed.

Lemma run_transitions_verify (ops : list transition) (tx : SignedTransaction.t) :
  SignedTransaction.verify_signature (run_transitions ops tx)
  = SignedTransaction.verify_signature tx.
Proof.
  revert tx. induction ops as [|op ops IH]; intros tx; simpl; [reflexivity|].
  destruct (call_transition op tx) as [tx'|e] eqn:E.
  - rewrite IH. apply (call_transition_verify op), E.
  - apply IH.
Qed.

(** C10.  The signature computed by [sign] is a function of the identifier,
    the amount and the metadata only; a freshly signed transaction
    verifies, and it still verifies after any sequence of [admit], [reject]
    and [execute] calls. *)
Theorem signature_survives_transitions
    (tx : SignedTransaction.t) (ops : list transition)
    (sig sig' : option string) (st st' : string) (rr rr' : option string) :
  SignedTransaction.verify_signature (SignedTransaction.sign tx) = true
  /\ SignedTransaction.verify_signature
       (run_transitions ops (SignedTransaction.sign tx)) = true
  /\ SignedTransaction.signature
       (SignedTransaction.sign
          (SignedTransaction.mk (SignedTransaction.tx_id tx)
             (SignedTransaction.amount tx) (SignedTransaction.metadata tx)
             sig st rr))
     = SignedTransaction.signature
         (SignedTransaction.sign
            (SignedTransaction.mk (SignedTransaction.tx_id tx)
               (SignedTransaction.amount tx) (SignedTransaction.metadata tx)
               sig' st' rr')).
Proof.
  split; [apply verify_signature_sign|]. split.
  - rewrite run_transitions_verify. apply verify_signature_sign.
  - reflexivity.
Qed.

End Signature.

(** ** C5: the gate *)

Section GateProperties.
Context {R : Runtime}.

(** The amount check always returns: the comparison is reached only when
    the currencies agree. *)
Lemma check_amount_returns (g : Gate.t) (tx : SignedTransaction.t) :
  exists pf, Gate._check_amount g tx = Ok pf.
Proof.
  unfold Gate._check_amount.
  destruct (QualificationPolicy.max_amount (Gate.policy g)) as [mx|];
    [|eexists; reflexivity].
  destruct (Currency.eqb _ _) eqn:E; simpl; [|eexists; reflexivity].
  unfold Money.__le__, Money._check_same_currency. rewrite E. simpl.
  destruct (_ <=? _); eexists; reflexivity.
Qed.

(** The human-approval check compares the amounts before it looks at the
    currencies, so a threshold in another currency makes it raise. *)
Lemma check_human_approval_raises (g : Gate.t) (tx : SignedTransaction.t)
    (threshold : Money.t) :
  QualificationPolicy.require_human_approval_above (Gate.policy g) = Some threshold ->
  Money._currency (SignedTransaction.amount tx) <> Money._currency threshold ->
  raises (Gate._check_human_approval g tx) TypeError.
Proof.
  intros Hth Hne. unfold Gate._check_human_approval. rewrite Hth.
  unfold Money.__gt__, Money._check_same_currency.
  rewrite (Currency_eqb_neq _ _ Hne). simpl. eexists. reflexivity.
Qed.

(** When it returns, the check reports no failure and asks for a human
    exactly when a threshold of the same currency is exceeded. *)
Lemma check_human_approval_returns (g : Gate.t) (tx : SignedTransaction.t)
    (p : list string) (h : bool) :
  Gate._check_human_approval g tx = Ok (p, h) ->
  h = true <->
  exists threshold,
    QualificationPolicy.require_human_approval_above (Gate.policy g) = Some threshold
    /\ Money._currency (SignedTransaction.amount tx) = Money._currency threshold
    /\ Money._minor_units (SignedTransaction.amount tx) > Money._minor_units threshold.
Proof.
  unfold Gate._check_human_approval.
  destruct (QualificationPolicy.require_human_approval_above (Gate.policy g))
    as [th|].
  - unfold Money.__gt__, Money._check_same_currency.
    destruct (Currency.eqb _ _) eqn:E; simpl; [|discriminate].
    apply Currency_eqb_eq in E.
    destruct (_ >? _) eqn:G; intros H; inversion H; subst; split.
    + intros _. exists th. repeat split; [exact E|]. apply Z.gtb_gt, G.
    + reflexivity.
    + discriminate.
    + intros [th' [Hth [_ Hgt]]]. injection Hth as <-.
      apply Z.gtb_gt in Hgt. congruence.
  - intros H. inversion H; subst. split; [discriminate|].
    intros [th [Hth _]]. discriminate Hth.
Qed.

(** Whenever [evaluate] returns a decision, the transaction is admitted
    exactly when no check failed, and the human-approval flag is the one of
    the human-approval check. *)
Lemma evaluate_decision (g : Gate.t) (tx : SignedTransaction.t)
    (d : GateDecision.t) :
  Gate.evaluate g tx = Ok d ->
  (GateDecision.admitted d = true <-> GateDecision.checks_failed d = [])
  /\ exists p, Gate._check_human_approval g tx
               = Ok (p, GateDecision.requires_human_approval d).
Proof.
  unfold Gate.evaluate.
  destruct (Gate._check_confidence g tx) as [p1 f1].
  destruct (Gate._check_amount g tx) as [[p2 f2]|e]; simpl; [|discriminate].
  destruct (Gate._check_human_approval g tx) as [[p3 h]|e]; simpl; [|discriminate].
  destruct (Gate._check_source g tx) as [p4 f4].
  destruct (Gate._run_custom_checks g tx) as [p5 f5].
  intros H. inversion H; subst; clear H. simpl. split.
  - rewrite Nat.eqb_eq. split.
    + intros Hl. apply length_zero_iff_nil, Hl.
    + intros ->. reflexivity.
  - exists p3. reflexivity.
Qed.

(** [evaluate] returns a decision whenever the human-approval check does. *)
Lemma evaluate_returns (g : Gate.t) (tx : SignedTransaction.t) :
  (exists ph, Gate._check_human_approval g tx = Ok ph) ->
  exists d, Gate.evaluate g tx = Ok d.
Proof.
  intros [ph Hph]. unfold Gate.evaluate.
  destruct (Gate._check_confidence g tx) as [p1 f1].
  destruct (check_amount_returns g tx) as [pf ->]. simpl.
  rewrite Hph. simpl.
  destruct (Gate._check_source g tx) as [p4 f4].
  destruct (Gate._run_custom_checks g tx) as [p5 f5].
  eexists. reflexivity.
Qed.

(** [evaluate] raises whenever the human-approval check does. *)
Lemma evaluate_raises (g : Gate.t) (tx : SignedTransaction.t) (c : exn_class) :
  raises (Gate._check_human_approval g tx) c -> raises (Gate.evaluate g tx) c.
Proof.
  intros [msg Hraise]. unfold Gate.evaluate.
  destruct (Gate._check_confidence g tx) as [p1 f1].
  destruct (check_amount_returns g tx) as [pf ->]. simpl.
  rewrite Hraise. simpl. exists msg. reflexivity.
Qed.

End GateProperties.

(** C5.  The claim asks that [evaluate] return a decision for every
    transaction and policy, the human-approval check never failing.  With a
    threshold in euro and an amount in dollars no decision is returned:
    [_check_human_approval] evaluates [tx.amount > threshold] before it
    tests the currencies, the comparison raises [TypeError], and so does
    [evaluate], whatever the runtime. *)
Theorem gate_raises_on_foreign_threshold (R : Runtime) :
  raises (Gate.evaluate (Gate.init euro_threshold_policy) dollar_tx) TypeError
  /\ ~ exists d, Gate.evaluate (Gate.init euro_threshold_policy) dollar_tx = Ok d.
Proof.
  assert (H : raises (Gate.evaluate (Gate.init euro_threshold_policy) dollar_tx)
                TypeError).
  { apply evaluate_raises.
    apply (check_human_approval_raises _ _ (Money.euro 5000));
      [reflexivity | discriminate]. }
  split; [exact H|].
  destruct H as [msg H]. intros [d Hd]. rewrite H in Hd. discriminate Hd.
Qed.

(** ** C4: the hash chain *)

(** *** The hashed content determines every stored field *)

Lemma Currency_code_inj (a b : Currency.t) :
  Currency.code a = Currency.code b -> a = b.
Proof. destruct a, b; simpl; intros H; solve [reflexivity | discriminate H]. Qed.

Lemma EpistemicStatus_value_inj (a b : EpistemicStatus) :
  EpistemicStatus_value a = EpistemicStatus_value b -> a = b.
Proof. destruct a, b; simpl; intros H; solve [reflexivity | discriminate H]. Qed.

Lemma json_opt_str_inj (a b : option string) :
  json_opt_str a = json_opt_str b -> a = b.
Proof. destruct a, b; simpl; intros H; inversion H; reflexivity. Qed.


Lemma Money_to_dict_inj (a b : Money.t) :
  Money.to_dict a = Money.to_dict b -> a = b.
Proof.
  destruct a as [ua ca], b as [ub cb]. unfold Money.to_dict. simpl.
  intros H. injection H as Hu Hc. apply Currency_code_inj in Hc. subst.
  reflexivity.
Qed.

Lemma Metadata_to_dict_inj (a b : TransactionMetadata.t) :
  TransactionMetadata.to_dict a = TransactionMetadata.to_dict b -> a = b.
Proof.
  unfold TransactionMetadata.to_dict, isoformat.
  intros H. injection H as Hs Hc Ht Hr He Hv Hi Hp.
  apply json_opt_str_inj in Hr, Hp. apply EpistemicStatus_value_inj in He.
  destruct a, b. simpl in *. subst. reflexivity.
Qed.





(** *** Ledgers built by appending, and writes to a stored entry *)



Section Chain.
Context {R : Runtime}.

Lemma last_hash_cons (g : string) (e : LedgerEntry.t) (es : list LedgerEntry.t) :
  last_hash g (e :: es) = last_hash (LedgerEntry.entry_hash e) es.
Proof.
  unfold last_hash. destruct es as [|x es]; [reflexivity|].
  rewrite last_cons_cons. destruct (last (x :: es)) eqn:E; [reflexivity|].
  apply last_None in E. discriminate E.
Qed.

Lemma last_hash_snoc (g : string) (es : list LedgerEntry.t) (e : LedgerEntry.t) :
  last_hash g (es ++ [e]) = LedgerEntry.entry_hash e.
Proof. unfold last_hash. rewrite last_snoc. reflexivity. Qed.

Lemma chained_app (prev : string) (a b : list LedgerEntry.t) :
  chained prev (a ++ b) <-> chained prev a /\ chained (last_hash prev a) b.
Proof.
  revert prev. induction a as [|e a IH]; intros prev; simpl.
  - unfold last_hash; simpl. tauto.
  - rewrite last_hash_cons, IH. tauto.
Qed.

(** What a successful [append] does. *)
Lemma append_spec (l l' : Ledger.t) (tx : SignedTransaction.t)
    (d : option GateDecision.t) (now : datetime) (e : LedgerEntry.t) :
  Ledger.append l tx d now = Ok (e, l') ->
  Ledger._entries l' = Ledger._entries l ++ [e]
  /\ Ledger._genesis_hash l' = Ledger._genesis_hash l
  /\ Ledger._max_entries l' = Ledger._max_entries l
  /\ e = LedgerEntry.mk (Z.of_nat (length (Ledger._entries l))) now tx d
           (last_hash (Ledger._genesis_hash l) (Ledger._entries l))
           (Ledger._compute_hash
              (Ledger.entry_content (Z.of_nat (length (Ledger._entries l))) now
                 tx d (last_hash (Ledger._genesis_hash l) (Ledger._entries l)))).
Proof.
  unfold Ledger.append.
  destruct (_ >=? _); [discriminate|].
  assert (Hprev :
    (if Z.of_nat (length (Ledger._entries l)) =? 0
     then Ok (Ledger._genesis_hash l)
     else match last (Ledger._entries l) with
          | Some e0 => Ok (LedgerEntry.entry_hash e0)
          | None => Raise (Exn IndexError "list index out of range")
          end)
    = Ok (last_hash (Ledger._genesis_hash l) (Ledger._entries l))).
  { unfold last_hash. destruct (Ledger._entries l) as [|x xs] eqn:E.
    - reflexivity.
    - replace (Z.of_nat (length (x :: xs)) =? 0) with false
        by (symmetry; apply Z.eqb_neq; simpl; lia).
      destruct (last (x :: xs)) eqn:El; [reflexivity|].
      apply last_None in El. discriminate El. }
  rewrite Hprev. simpl. intros H. inversion H; subst; clear H. simpl.
  repeat split.
Qed.

(** [append] succeeds as long as the capacity is not reached. *)
Lemma append_returns (l : Ledger.t) (tx : SignedTransaction.t)
    (d : option GateDecision.t) (now : datetime) :
  Z.of_nat (length (Ledger._entries l)) < Ledger._max_entries l ->
  exists e l', Ledger.append l tx d now = Ok (e, l').
Proof.
  intros Hroom. unfold Ledger.append.
  replace (Z.of_nat (length (Ledger._entries l)) >=? Ledger._max_entries l)
    with false by (symmetry; rewrite Z.geb_leb; apply Z.leb_gt; lia).
  destruct (Z.of_nat (length (Ledger._entries l)) =? 0) eqn:E; simpl.
  - do 2 eexists. reflexivity.
  - destruct (last (Ledger._entries l)) eqn:El; simpl.
    + do 2 eexists. reflexivity.
    + apply last_None in El. rewrite El in E. discriminate E.
Qed.

(** [append] refuses a full ledger and leaves nothing behind. *)
Lemma append_full (l : Ledger.t) (tx : SignedTransaction.t)
    (d : option GateDecision.t) (now : datetime) :
  Ledger._max_entries l <= Z.of_nat (length (Ledger._entries l)) ->
  raises (Ledger.append l tx d now) ValueError.
Proof.
  intros Hfull. unfold Ledger.append.
  replace (Z.of_nat (length (Ledger._entries l)) >=? Ledger._max_entries l)
    with true by (symmetry; rewrite Z.geb_leb; apply Z.leb_le; lia).
  eexists. reflexivity.
Qed.

Lemma built_chained (l : Ledger.t) :
  built l -> chained (Ledger._genesis_hash l) (Ledger._entries l).
Proof.
  induction 1 as [mx | l l' tx d now e Hb IH Happ]; simpl; [exact I|].
  apply append_spec in Happ. destruct Happ as [He [Hg [_ Hentry]]].
  rewrite He, Hg. apply chained_app. split; [exact IH|].
  subst e. simpl. repeat split.
Qed.

(** The hash [verify_chain] expects at index [length pre]. *)
Lemma expected_prev_eq (l : Ledger.t) (pre rest : list LedgerEntry.t) :
  Ledger._entries l = pre ++ rest ->
  (if (length pre =? 0)%nat then Ok (Ledger._genesis_hash l)
   else match Ledger._entries l !! (length pre - 1)%nat with
        | Some p => Ok (LedgerEntry.entry_hash p)
        | None => Raise (Exn IndexError "list index out of range")
        end)
  = Ok (last_hash (Ledger._genesis_hash l) pre).
Proof.
  intros He. unfold last_hash. destruct (last pre) as [p|] eqn:El.
  - apply last_Some in El. destruct El as [pre' ->].
    rewrite length_app. simpl.
    replace (length pre' + 1 =? 0)%nat with false
      by (symmetry; apply Nat.eqb_neq; lia).
    rewrite He. rewrite <- app_assoc.
    replace (length pre' + 1 - 1)%nat with (length pre' + 0)%nat by lia.
    rewrite lookup_app_r by lia.
    replace (length pre' + 0 - length pre')%nat with 0%nat by lia.
    reflexivity.
  - apply last_None in El. subst pre. reflexivity.
Qed.

(** The loop walks through a well-chained stretch of entries. *)
Lemma verify_through_chained (l : Ledger.t) (a : list LedgerEntry.t) :
  forall pre rest,
    Ledger._entries l = pre ++ a ++ rest ->
    chained (last_hash (Ledger._genesis_hash l) pre) a ->
    Ledger.verify_chain_from l (length pre) (a ++ rest)
    = Ledger.verify_chain_from l (length (pre ++ a)) rest.
Proof.
  induction a as [|e a IH]; intros pre rest He Hc.
  - rewrite app_nil_r. reflexivity.
  - destruct Hc as [Hp [Hh Hc]]. simpl.
    rewrite (expected_prev_eq l pre ((e :: a) ++ rest) He). simpl.
    unfold compare_digest. rewrite Hp, String.eqb_refl. simpl.
    rewrite <- Hh, String.eqb_refl. simpl.
    replace (S (length pre)) with (length (pre ++ [e]))
      by (rewrite length_app; simpl; lia).
    rewrite IH.
    + rewrite <- app_assoc. reflexivity.
    + rewrite <- app_assoc. exact He.
    + rewrite last_hash_snoc. exact Hc.
Qed.

(** The loop stops at the first entry whose stored hashes do not fit. *)
Lemma verify_stops (l : Ledger.t) (pre rest : list LedgerEntry.t)
    (e : LedgerEntry.t) :
  Ledger._entries l = pre ++ e :: rest ->
  LedgerEntry.previous_hash e <> last_hash (Ledger._genesis_hash l) pre
  \/ LedgerEntry.entry_hash e <> Ledger._compute_hash (Ledger.content_of e) ->
  Ledger.verify_chain_from l (length pre) (e :: rest)
  = Ok (false, Some (Z.of_nat (length pre))).
Proof.
  intros He Hbad. simpl. rewrite (expected_prev_eq l pre (e :: rest) He). simpl.
  unfold compare_digest.
  destruct (String.eqb_spec (LedgerEntry.previous_hash e)
              (last_hash (Ledger._genesis_hash l) pre)) as [Hp|Hp]; simpl;
    [|reflexivity].
  destruct (String.eqb_spec (LedgerEntry.entry_hash e)
              (Ledger._compute_hash (Ledger.content_of e))) as [Hh|Hh]; simpl;
    [|reflexivity].
  destruct Hbad; contradiction.
Qed.

Lemma verify_chain_chained (l : Ledger.t) :
  chained (Ledger._genesis_hash l) (Ledger._entries l) ->
  Ledger.verify_chain l = Ok (true, None).
Proof.
  intros Hc. unfold Ledger.verify_chain.
  assert (Hwalk :
    Ledger.verify_chain_from l 0 (Ledger._entries l ++ [])
    = Ledger.verify_chain_from l (length (Ledger._entries l)) []).
  { apply (verify_through_chained l (Ledger._entries l) [] []);
      [rewrite app_nil_r; reflexivity | exact Hc]. }
  rewrite app_nil_r in Hwalk. rewrite Hwalk. reflexivity.
Qed.



Lemma built_append_or_keep (l : Ledger.t)
    (item : SignedTransaction.t * option GateDecision.t * datetime) :
  built l -> built (Ledger.append_or_keep l item).
Proof.
  intros Hb. unfold Ledger.append_or_keep.
  destruct (Ledger.append l (fst (fst item)) (snd (fst item)) (snd item))
    as [[e l']|ex] eqn:E; [|exact Hb].
  exact (built_append l l' _ _ _ e Hb E).
Qed.

Lemma built_fold_append (items : list (SignedTransaction.t * option GateDecision.t * datetime))
    (l : Ledger.t) :
  built l -> built (fold_left Ledger.append_or_keep items l).
Proof.
  revert l. induction items as [|item items IH]; intros l Hb; simpl; [exact Hb|].
  apply IH, built_append_or_keep, Hb.
Qed.

End Chain.

Lemma sample_ledger_built : @built sample_runtime sample_ledger.
Proof. apply (@built_fold_append sample_runtime), built_init. Qed.


(** ** C9: the qualification workflow *)

Section WorkflowProperties.
Context {R : Runtime} {World : Type}.

Lemma from_ai_output_in_range (amount : Money.t) (source : string)
    (confidence : Q) (policy : QualificationPolicy.t)
    (rationale : option string) (env : workflow_env) :
  (0 <= confidence)%Q -> (confidence <= 1)%Q ->
  SignedTransaction.from_ai_output amount source confidence
    (SignedTransaction.Kwargs rationale
       (Some (QualificationPolicy.version policy)) None None)
    (env_tx env)
  = Ok (proposed amount source confidence policy rationale env).
Proof.
  intros H0 H1. unfold SignedTransaction.from_ai_output.
  apply Qle_bool_iff in H0, H1. rewrite H0, H1. reflexivity.
Qed.

(** C9, as the code has it.  When the confidence lies in [[0, 1]], the
    ledger has room and the gate returns a decision, one run of the
    workflow appends exactly one entry, which carries the decision.  If the
    gate admits, the entry records the transaction as admitted, before the
    execute callback runs; the call then returns the executed transaction,
    or, when the callback raises, the transaction rejected with the text
    ["Execution failed: "] followed by the failure message, after the reject
    callback was invoked with that message.  If the gate rejects, the entry
    records the transaction rejected with the gate's reason, and the reject
    callback is invoked with that reason. *)
Theorem qualify_and_execute_appends_once (amount : Money.t) (source : string)
    (confidence : Q) (context : ExecutionContext.t World)
    (rationale : option string) (env : workflow_env) (w : World)
    (d : GateDecision.t) :
  let ledger := ExecutionContext.ledger context in
  let policy := ExecutionContext.policy context in
  let signed :=
    SignedTransaction.sign
      (proposed amount source confidence policy rationale env) in
  let out :=
    qualify_and_execute amount source confidence context rationale env w in
  (0 <= confidence)%Q -> (confidence <= 1)%Q ->
  Z.of_nat (length (Ledger._entries ledger)) < Ledger._max_entries ledger ->
  Gate.evaluate (Gate.init policy) signed = Ok d ->
  exists e,
    Ledger._entries (ledger_after out) = Ledger._entries ledger ++ [e]
    /\ LedgerEntry.decision e = Some d
    /\ LedgerEntry.sequence e = Z.of_nat (length (Ledger._entries ledger))
    /\ (GateDecision.admitted d = true ->
        let admitted := SignedTransaction.admit_ signed in
        LedgerEntry.transaction e = admitted
        /\ match ExecutionContext.on_execute context amount w with
           | (None, w1) =>
               exists executed,
                 SignedTransaction.execute admitted = Ok executed
                 /\ returned out = Ok (true, executed, d)
                 /\ world_after out = w1
           | (Some ex, w1) =>
               let rejected :=
                 SignedTransaction.reject admitted
                   ("Execution failed: " +:+ exn_msg ex) in
               match ExecutionContext.on_reject context (exn_msg ex) w1 with
               | (None, w2) =>
                   returned out = Ok (true, rejected, d) /\ world_after out = w2
               | (Some ex', w2) =>
                   returned out = Raise ex' /\ world_after out = w2
               end
           end)
    /\ (GateDecision.admitted d = false ->
        let rejected := SignedTransaction.reject signed (GateDecision.reason d) in
        LedgerEntry.transaction e = rejected
        /\ match ExecutionContext.on_reject context (GateDecision.reason d) w with
           | (None, w1) =>
               returned out = Ok (false, rejected, d) /\ world_after out = w1
           | (Some ex, w1) =>
               returned out = Raise ex /\ world_after out = w1
           end).
Proof.
  intros ledger policy signed out H0 H1 Hroom Hgate.
  assert (Hstart :
    out = if GateDecision.admitted d then
            match Ledger.append ledger (SignedTransaction.admit_ signed) (Some d)
                    (env_append_now env) with
            | Raise e => Outcome (Raise e) ledger w
            | Ok (_, ledger') =>
                match ExecutionContext.on_execute context amount w with
                | (Some e, w1) =>
                    match ExecutionContext.on_reject context (exn_msg e) w1 with
                    | (None, w2) =>
                        Outcome (Ok (true,
                                     SignedTransaction.reject
                                       (SignedTransaction.admit_ signed)
                                       ("Execution failed: " +:+ exn_msg e), d))
                                ledger' w2
                    | (Some e', w2) => Outcome (Raise e') ledger' w2
                    end
                | (None, w1) =>
                    Outcome (Ok (true,
                                 SignedTransaction.mk (SignedTransaction.tx_id signed)
                                   (SignedTransaction.amount signed)
                                   (SignedTransaction.metadata signed)
                                   (SignedTransaction.signature signed)
                                   "executed" None, d))
                            ledger' w1
                end
            end
          else
            match Ledger.append ledger
                    (SignedTransaction.reject signed (GateDecision.reason d))
                    (Some d) (env_append_now env) with
            | Raise e => Outcome (Raise e) ledger w
            | Ok (_, ledger') =>
                match ExecutionContext.on_reject context (GateDecision.reason d) w with
                | (None, w1) =>
                    Outcome (Ok (false,
                                 SignedTransaction.reject signed
                                   (GateDecision.reason d), d))
                            ledger' w1
                | (Some e, w1) => Outcome (Raise e) ledger' w1
                end
            end).
  { unfold out, qualify_and_execute.
    rewrite (from_ai_output_in_range amount source confidence _ rationale env H0 H1).
    fold policy. fold signed. rewrite Hgate. fold ledger.
    destruct (GateDecision.admitted d); [|reflexivity].
    destruct (Ledger.append ledger (SignedTransaction.admit_ signed) (Some d)
                (env_append_now env)) as [[e l']|ex]; [|reflexivity].
    change (SignedTransaction.amount (SignedTransaction.admit_ signed)) with amount.
    destruct (ExecutionContext.on_execute context amount w) as [[ex|] w1];
      reflexivity. }
  clearbody out. subst out.
  destruct (GateDecision.admitted d) eqn:Hadm.
  - destruct (append_returns ledger (SignedTransaction.admit_ signed) (Some d)
                (env_append_now env) Hroom) as [e [l' Happ]].
    rewrite Happ. apply append_spec in Happ.
    destruct Happ as [He [_ [_ Hentry]]].
    exists e.
    assert (Hd : LedgerEntry.decision e = Some d) by (subst e; reflexivity).
    assert (Hs : LedgerEntry.sequence e
                 = Z.of_nat (length (Ledger._entries ledger)))
      by (subst e; reflexivity).
    assert (Htx : LedgerEntry.transaction e = SignedTransaction.admit_ signed)
      by (subst e; reflexivity).
    clear Hentry.
    destruct (ExecutionContext.on_execute context amount w) as [[ex|] w1].
    + destruct (ExecutionContext.on_reject context (exn_msg ex) w1) as [[ex'|] w2];
        simpl; repeat split; try assumption; discriminate.
    + simpl. repeat split; try assumption; try discriminate.
      eexists. repeat split.
  - destruct (append_returns ledger
                (SignedTransaction.reject signed (GateDecision.reason d)) (Some d)
                (env_append_now env) Hroom) as [e [l' Happ]].
    rewrite Happ. apply append_spec in Happ.
    destruct Happ as [He [_ [_ Hentry]]].
    exists e.
    assert (Hd : LedgerEntry.decision e = Some d) by (subst e; reflexivity).
    assert (Hs : LedgerEntry.sequence e
                 = Z.of_nat (length (Ledger._entries ledger)))
      by (subst e; reflexivity).
    assert (Htx : LedgerEntry.transaction e
                  = SignedTransaction.reject signed (GateDecision.reason d))
      by (subst e; reflexivity).
    clear Hentry.
    destruct (ExecutionContext.on_reject context (GateDecision.reason d) w)
      as [[ex|] w1]; simpl; repeat split; try assumption; discriminate.
Qed.

(** On a full ledger the run raises the [ValueError] of [append]: nothing
    is appended and no callback is invoked. *)
Lemma qualify_and_execute_full_ledger (amount : Money.t) (source : string)
    (confidence : Q) (context : ExecutionContext.t World)
    (rationale : option string) (env : workflow_env) (w : World)
    (d : GateDecision.t) :
  let ledger := ExecutionContext.ledger context in
  let policy := ExecutionContext.policy context in
  let out :=
    qualify_and_execute amount source confidence context rationale env w in
  (0 <= confidence)%Q -> (confidence <= 1)%Q ->
  Ledger._max_entries ledger <= Z.of_nat (length (Ledger._entries ledger)) ->
  Gate.evaluate (Gate.init policy)
    (SignedTransaction.sign
       (proposed amount source confidence policy rationale env)) = Ok d ->
  raises (returned out) ValueError
  /\ ledger_after out = ledger
  /\ world_after out = w.
Proof.
  intros ledger policy out H0 H1 Hfull Hgate.
  unfold out, qualify_and_execute.
  rewrite (from_ai_output_in_range amount source confidence _ rationale env H0 H1).
  fold policy. rewrite Hgate. fold ledger.
  destruct (GateDecision.admitted d).
  - destruct (append_full ledger
                (SignedTransaction.admit_
                   (SignedTransaction.sign
                      (proposed amount source confidence policy rationale env)))
                (Some d) (env_append_now env) Hfull) as [msg ->].
    simpl. repeat split. exists msg. reflexivity.
  - destruct (append_full ledger
                (SignedTransaction.reject
                   (SignedTransaction.sign
                      (proposed amount source confidence policy rationale env))
                   (GateDecision.reason d))
                (Some d) (env_append_now env) Hfull) as [msg ->].
    simpl. repeat split. exists msg. reflexivity.
Qed.

(** With a confidence outside [[0, 1]] the run raises the [ValueError] of
    [from_ai_output] before anything else happens. *)
Lemma qualify_and_execute_bad_confidence (amount : Money.t) (source : string)
    (confidence : Q) (context : ExecutionContext.t World)
    (rationale : option string) (env : workflow_env) (w : World) :
  let out :=
    qualify_and_execute amount source confidence context rationale env w in
  (confidence < 0)%Q \/ (1 < confidence)%Q ->
  raises (returned out) ValueError
  /\ ledger_after out = ExecutionContext.ledger context
  /\ world_after out = w.
Proof.
  intros out Hbad. unfold out, qualify_and_execute,
    SignedTransaction.from_ai_output.
  assert (E : Qle_bool 0 confidence && Qle_bool confidence 1 = false).
  { apply andb_false_iff. destruct Hbad as [H|H]; [left|right];
      (destruct (Qle_bool _ _) eqn:E; [|reflexivity]);
      apply Qle_bool_iff in E; exfalso; apply (Qlt_not_le _ _ H E). }
  rewrite E. simpl. repeat split. eexists. reflexivity.
Qed.

End WorkflowProperties.

Lemma qualify_and_execute_appends_once_witness :
  let out :=
    @qualify_and_execute sample_runtime (list call) (Money.euro 100)
      "test-model" (92 # 100) failing_context None sample_env [] in
  exists e,
    Ledger._entries (ledger_after out) = [e]
    /\ LedgerEntry.decision e = Some sample_decision
    /\ SignedTransaction.status (LedgerEntry.transaction e) = "admitted"
    /\ world_after out = [Rejected "bank offline"; Executed (Money.euro 100)].
Proof.
  intros out.
  destruct (@qualify_and_execute_appends_once sample_runtime (list call)
              (Money.euro 100) "test-model" (92 # 100) failing_context None
              sample_env [] sample_decision)
    as [e [He [Hd [_ [Hadm _]]]]].
  - apply Qle_bool_iff. reflexivity.
  - apply Qle_bool_iff. reflexivity.
  - vm_compute. reflexivity.
  - vm_compute. reflexivity.
  - exists e. split; [exact He|]. split; [exact Hd|].
    destruct (Hadm eq_refl) as [Htx Hrun].
    split; [rewrite Htx; reflexivity|].
    exact (proj2 Hrun).
Defined.

(** The claim of C9 fails on a full ledger: the gate admits the proposal,
    [append] raises [ValueError], the call appends no entry and neither
    callback is invoked. *)
Lemma workflow_on_full_ledger_appends_nothing :
  let out :=
    @qualify_and_execute sample_runtime (list call) (Money.euro 100)
      "test-model" (92 # 100) full_context None sample_env [] in
  GateDecision.admitted sample_decision = true
  /\ length (Ledger._entries full_ledger) = 1%nat
  /\ raises (returned out) ValueError
  /\ ledger_after out = full_ledger
  /\ world_after out = [].
Proof.
  simpl. split; [vm_compute; reflexivity|]. split; [reflexivity|].
  split; [|split; vm_compute; reflexivity].
  eexists. vm_compute. reflexivity.
Qed.

(* ================================================================== *)
(** * Further properties of core.py *)
(* ================================================================== *)

(** ** Equal distribution: fairness *)

Lemma map_lookup {A B : Type} (f : A -> B) (l : list A) (i : nat) :
  map f l !! i = option_map f (l !! i).
Proof.
  revert i. induction l as [|x l IH]; intros [|i]; simpl; try reflexivity.
  apply IH.
Qed.

Lemma range_lookup (n : Z) (i : nat) (z : Z) :
  range n !! i = Some z -> z = Z.of_nat i /\ Z.of_nat i < n.
Proof.
  unfold range. rewrite map_lookup.
  destruct (seq 0 (Z.to_nat n) !! i) as [k|] eqn:E; simpl; [|discriminate].
  intros H. injection H as <-. apply lookup_seq in E. destruct E as [-> Hlt].
  split; [reflexivity|]. lia.
Qed.

(** What [distribute] returns when it returns. *)
Lemma distribute_returns (m : Money.t) (n : Z) (parts : list Money.t) :
  Money.distribute m n = Ok parts ->
  0 < n
  /\ parts = map (fun i => Money.of_minor
                             (Money._minor_units m / n
                              + (if i <? Money._minor_units m mod n then 1 else 0))
                             (Money._currency m))
                 (range n).
Proof.
  unfold Money.distribute.
  destruct (Z.leb_spec n 0) as [Hn|Hn]; [discriminate|].
  destruct (n >? Money.MAX_DISTRIBUTION_PARTS); [discriminate|].
  intros H. injection H as <-. split; [exact Hn | reflexivity].
Qed.

(** X1.  Whatever the sign of the amount, the parts returned by
    [distribute] never increase along the list and any two of them differ by
    at most one minor unit. *)
Theorem distribute_fair (m : Money.t) (n : Z) (parts : list Money.t)
    (i j : nat) (p q : Money.t) :
  Money.distribute m n = Ok parts ->
  (i <= j)%nat ->
  parts !! i = Some p ->
  parts !! j = Some q ->
  0 <= Money._minor_units p - Money._minor_units q <= 1.
Proof.
  intros Hd Hij Hp Hq. apply distribute_returns in Hd. destruct Hd as [Hn ->].
  rewrite map_lookup in Hp, Hq.
  destruct (range n !! i) as [zi|] eqn:Ei; simpl in Hp; [|discriminate].
  destruct (range n !! j) as [zj|] eqn:Ej; simpl in Hq; [|discriminate].
  apply range_lookup in Ei, Ej. destruct Ei as [-> _], Ej as [-> _].
  injection Hp as <-. injection Hq as <-. simpl.
  destruct (Z.ltb_spec (Z.of_nat i) (Money._minor_units m mod n));
    destruct (Z.ltb_spec (Z.of_nat j) (Money._minor_units m mod n)); lia.
Qed.

Lemma distribute_fair_witness :
  Money.distribute (Money.euro_cents (-100)) 3
  = Ok [Money.euro_cents (-33); Money.euro_cents (-33); Money.euro_cents (-34)]
  /\ 0 <= Money._minor_units (Money.euro_cents (-33))
          - Money._minor_units (Money.euro_cents (-34)) <= 1.
Proof.
  split; [reflexivity|].
  apply (distribute_fair (Money.euro_cents (-100)) 3
           [Money.euro_cents (-33); Money.euro_cents (-33); Money.euro_cents (-34)]
           0%nat 2%nat);
    [reflexivity | lia | reflexivity | reflexivity].
Defined.

Lemma map_const_repeat {A B : Type} (f : A -> B) (b : B) (l : list A) :
  (forall x, In x l -> f x = b) -> map f l = repeat b (length l).
Proof.
  induction l as [|x l IH]; intros H; simpl; [reflexivity|].
  rewrite (H x) by (left; reflexivity). f_equal.
  apply IH. intros y Hy. apply H. right. exact Hy.
Qed.

(** X2.  When the number of parts divides the minor units, [distribute]
    returns that many equal parts; in particular one part is the amount
    itself. *)
Theorem distribute_divisible (m : Money.t) (n : Z) :
  1 <= n <= 10000 ->
  Money._minor_units m mod n = 0 ->
  Money.distribute m n
  = Ok (repeat (Money.of_minor (Money._minor_units m / n) (Money._currency m))
               (Z.to_nat n))
  /\ Money.distribute m 1 = Ok [m].
Proof.
  intros Hn Hmod. split.
  - unfold Money.distribute, Money.MAX_DISTRIBUTION_PARTS.
    destruct (Z.leb_spec n 0) as [H|_]; [lia|].
    replace (n >? 10000) with false
      by (symmetry; rewrite Z.gtb_ltb; apply Z.ltb_ge; lia).
    f_equal. rewrite Hmod.
    rewrite (map_const_repeat _
               (Money.of_minor (Money._minor_units m / n) (Money._currency m))).
    + unfold range. rewrite length_map, length_seq. reflexivity.
    + intros z Hz. unfold range in Hz. apply in_map_iff in Hz.
      destruct Hz as [k [<- _]].
      destruct (Z.ltb_spec (Z.of_nat k) 0); [lia|].
      f_equal. lia.
  - destruct m as [units c]. unfold Money.distribute. simpl.
    rewrite Z.div_1_r, Z.mod_1_r. unfold Money.of_minor. simpl.
    f_equal. f_equal. f_equal. lia.
Qed.

Lemma distribute_divisible_witness :
  Money.distribute (Money.euro 12) 4
  = Ok (repeat (Money.euro 3) 4)
  /\ Money.distribute (Money.euro 12) 1 = Ok [Money.euro 12].
Proof.
  apply (distribute_divisible (Money.euro 12) 4); [lia | reflexivity].
Defined.

(** ** Arithmetic on amounts *)

(** X3.  On amounts of one currency, addition is commutative and
    associative, the zero of the currency is its identity, the negation is
    the inverse, and subtraction is the addition of the negation. *)
Theorem money_add_laws (a b c : Money.t) :
  Money._currency a = Money._currency b ->
  Money._currency b = Money._currency c ->
  Money.__add__ a b = Money.__add__ b a
  /\ (ab <- Money.__add__ a b ;; Money.__add__ ab c)
     = (bc <- Money.__add__ b c ;; Money.__add__ a bc)
  /\ Money.__add__ a (Money.zero (Money._currency a)) = Ok a
  /\ Money.__add__ a (Money.__neg__ a) = Ok (Money.zero (Money._currency a))
  /\ Money.__sub__ a b = Money.__add__ a (Money.__neg__ b).
Proof.
  destruct a as [ua ca], b as [ub cb], c as [uc cc]. simpl.
  intros -> ->. unfold Money.zero, Money.__neg__, Money.of_minor. simpl.
  rewrite !Money_add_same. simpl. rewrite !Money_add_same.
  unfold Money.__sub__. simpl. rewrite Currency_eqb_refl. simpl.
  unfold Money.of_minor.
  repeat split; f_equal; f_equal; lia.
Qed.

Lemma money_add_laws_witness :
  Money.__add__ (Money.euro 1) (Money.euro 2)
  = Money.__add__ (Money.euro 2) (Money.euro 1)
  /\ Money.__sub__ (Money.euro 1) (Money.euro 2)
     = Money.__add__ (Money.euro 1) (Money.__neg__ (Money.euro 2)).
Proof.
  destruct (money_add_laws (Money.euro 1) (Money.euro 2) (Money.euro 3)
              eq_refl eq_refl) as [Hc [_ [_ [_ Hs]]]].
  split; [exact Hc | exact Hs].
Defined.

(** X4.  Addition and subtraction return a result exactly when the two
    amounts have the same currency, and raise [TypeError] otherwise; the
    result has that currency. *)
Theorem money_add_sub_currency (a b : Money.t) :
  (Money._currency a = Money._currency b ->
   exists s d,
     Money.__add__ a b = Ok s /\ Money.__sub__ a b = Ok d
     /\ Money._currency s = Money._currency a
     /\ Money._currency d = Money._currency a)
  /\ (Money._currency a <> Money._currency b ->
      raises (Money.__add__ a b) TypeError
      /\ raises (Money.__sub__ a b) TypeError).
Proof.
  unfold Money.__add__, Money.__sub__. split.
  - intros H. apply Currency_eqb_eq in H. rewrite H. simpl.
    do 2 eexists. repeat split.
  - intros H. apply Currency_eqb_neq in H. rewrite H. simpl.
    split; eexists; reflexivity.
Qed.

Lemma money_add_sub_currency_witness :
  (exists s d,
     Money.__add__ (Money.euro 5) (Money.euro 7) = Ok s
     /\ Money.__sub__ (Money.euro 5) (Money.euro 7) = Ok d
     /\ Money._currency s = Currency.EUR
     /\ Money._currency d = Currency.EUR)
  /\ raises (Money.__add__ (Money.euro 5) (Money.usd 7)) TypeError
  /\ raises (Money.__sub__ (Money.euro 5) (Money.usd 7)) TypeError.
Proof.
  split.
  - apply (proj1 (money_add_sub_currency (Money.euro 5) (Money.euro 7))).
    reflexivity.
  - apply (proj2 (money_add_sub_currency (Money.euro 5) (Money.usd 7))).
    discriminate.
Defined.

(** X5.  Multiplication by an integer distributes over the addition of
    amounts, composes as the product of the factors, has 1 as identity,
    sends every amount to zero by 0 and is the negation by -1. *)
Theorem money_mul_laws (a b s : Money.t) (j k : Z) :
  Money.__add__ a b = Ok s ->
  (ak <- Ok (Money.__mul__ a k) ;; Money.__add__ ak (Money.__mul__ b k))
  = Ok (Money.__mul__ s k)
  /\ Money.__mul__ (Money.__mul__ a j) k = Money.__mul__ a (j * k)
  /\ Money.__mul__ a 1 = a
  /\ Money.__mul__ a 0 = Money.zero (Money._currency a)
  /\ Money.__mul__ a (-1) = Money.__neg__ a.
Proof.
  destruct a as [ua ca], b as [ub cb].
  unfold Money.__add__, Money.__mul__, Money.__neg__, Money.zero, Money.of_minor.
  simpl. destruct (Currency.eqb ca cb) eqn:E; simpl; [|discriminate].
  intros H. injection H as <-. simpl.
  repeat split; first [f_equal; lia | f_equal; f_equal; lia].
Qed.

Lemma money_mul_laws_witness :
  (ak <- Ok (Money.__mul__ (Money.euro 2) 3) ;;
   Money.__add__ ak (Money.__mul__ (Money.euro 5) 3))
  = Ok (Money.__mul__ (Money.euro 7) 3).
Proof.
  apply (money_mul_laws (Money.euro 2) (Money.euro 5) (Money.euro 7) 1 3).
  reflexivity.
Defined.

(** ** Comparisons on one currency *)

Lemma Money_eq_reflects (a b : Money.t) : Money.__eq__ a b = true <-> a = b.
Proof.
  destruct a as [ua ca], b as [ub cb]. unfold Money.__eq__. simpl.
  rewrite andb_true_iff, Z.eqb_eq, Currency_eqb_eq. split.
  - intros [-> ->]. reflexivity.
  - intros H. injection H as -> ->. split; reflexivity.
Qed.

(** X6.  [==] holds exactly for equal amounts.  On two amounts of one
    currency the four ordering comparisons return, exactly one of [<],
    [==], [>] holds, [<=] is [<] or [==] and [>=] is [>] or [==]. *)
Theorem money_order (a b : Money.t) :
  (Money.__eq__ a b = true <-> a = b)
  /\ (Money._currency a = Money._currency b ->
      exists lt le gt ge,
        Money.__lt__ a b = Ok lt /\ Money.__le__ a b = Ok le
        /\ Money.__gt__ a b = Ok gt /\ Money.__ge__ a b = Ok ge
        /\ le = lt || Money.__eq__ a b
        /\ ge = gt || Money.__eq__ a b
        /\ (lt = true /\ Money.__eq__ a b = false /\ gt = false
            \/ lt = false /\ Money.__eq__ a b = true /\ gt = false
            \/ lt = false /\ Money.__eq__ a b = false /\ gt = true)).
Proof.
  split; [apply Money_eq_reflects|].
  destruct a as [ua ca], b as [ub cb]. simpl. intros <-.
  unfold Money.__lt__, Money.__le__, Money.__gt__, Money.__ge__,
    Money.__eq__, Money._check_same_currency.
  simpl. rewrite Currency_eqb_refl. simpl.
  do 4 eexists. do 4 (split; [reflexivity|]).
  rewrite !andb_true_r, Z.gtb_ltb, Z.geb_leb.
  destruct (Z.ltb_spec ua ub), (Z.leb_spec ua ub), (Z.ltb_spec ub ua),
    (Z.leb_spec ub ua), (Z.eqb_spec ua ub); try lia; simpl; auto 10.
Qed.

Lemma money_order_witness :
  exists lt le gt ge,
    Money.__lt__ (Money.euro 1) (Money.euro 2) = Ok lt
    /\ Money.__le__ (Money.euro 1) (Money.euro 2) = Ok le
    /\ Money.__gt__ (Money.euro 1) (Money.euro 2) = Ok gt
    /\ Money.__ge__ (Money.euro 1) (Money.euro 2) = Ok ge
    /\ le = lt || Money.__eq__ (Money.euro 1) (Money.euro 2)
    /\ ge = gt || Money.__eq__ (Money.euro 1) (Money.euro 2).
Proof.
  destruct (proj2 (money_order (Money.euro 1) (Money.euro 2)) eq_refl)
    as [lt [le [gt [ge [H1 [H2 [H3 [H4 [H5 [H6 _]]]]]]]]]].
  exists lt, le, gt, ge. repeat split; assumption.
Defined.

(** ** Serialisation round trip *)

Lemma Currency_of_name_code (c : Currency.t) :
  Currency.of_name (Currency.code c) = Some c.
Proof. destruct c; reflexivity. Qed.

(** X7.  [from_dict] undoes [to_dict]: the dictionary written for an
    amount is read back as that amount.  Reading a dictionary without the
    key ["currency"] or ["minor_units"] raises [KeyError] on that key, and a
    currency name that is no member of [Currency] raises [KeyError] on the
    name. *)
Theorem money_dict_round_trip (m : Money.t) (data : list (string * json))
    (name : string) :
  (forall kv, Money.to_dict m = JDict kv -> Money.from_dict kv = Money.Built m)
  /\ (Money.dict_get data "currency" = None ->
      Money.from_dict data = Money.KeyError (JStr "currency"))
  /\ (Money.dict_get data "currency" = Some (JStr name) ->
      Currency.of_name name = None ->
      Money.from_dict data = Money.KeyError (JStr name))
  /\ (Money.dict_get data "currency" = Some (JStr name) ->
      Currency.of_name name <> None ->
      Money.dict_get data "minor_units" = None ->
      Money.from_dict data = Money.KeyError (JStr "minor_units")).
Proof.
  split; [|split; [|split]].
  - intros kv H. unfold Money.to_dict in H. injection H as <-.
    unfold Money.from_dict, Money.dict_get. simpl.
    rewrite Currency_of_name_code. destruct m. reflexivity.
  - intros H. unfold Money.from_dict. rewrite H. reflexivity.
  - intros H Hn. unfold Money.from_dict. rewrite H, Hn. reflexivity.
  - intros H Hn Hm. unfold Money.from_dict. rewrite H.
    destruct (Currency.of_name name); [|contradiction].
    rewrite Hm. reflexivity.
Qed.

Lemma money_dict_round_trip_witness :
  Money.from_dict [("minor_units", JInt 12345); ("currency", JStr "EUR")]
  = Money.Built (Money.euro_cents 12345)
  /\ Money.from_dict [("minor_units", JInt 1)] = Money.KeyError (JStr "currency")
  /\ Money.from_dict [("minor_units", JInt 1); ("currency", JStr "XXX")]
     = Money.KeyError (JStr "XXX")
  /\ Money.from_dict [("currency", JStr "EUR")] = Money.KeyError (JStr "minor_units").
Proof.
  split; [|split; [|split]].
  - apply (proj1 (money_dict_round_trip (Money.euro_cents 12345) [] "")).
    reflexivity.
  - apply (proj1 (proj2 (money_dict_round_trip (Money.euro 0)
                           [("minor_units", JInt 1)] ""))).
    reflexivity.
  - apply (proj1 (proj2 (proj2 (money_dict_round_trip (Money.euro 0)
                                  [("minor_units", JInt 1); ("currency", JStr "XXX")]
                                  "XXX"))));
      reflexivity.
  - apply (proj2 (proj2 (proj2 (money_dict_round_trip (Money.euro 0)
                                  [("currency", JStr "EUR")] "EUR"))));
      [reflexivity | discriminate | reflexivity].
Defined.

(** ** Rounding strategies *)

(** Moves [inject_Z] inside sums of integers, for linear arithmetic on
    rationals. *)
Ltac push_inject :=
  rewrite ?inject_Z_plus in *;
  change (inject_Z 1) with 1%Q in *; change (inject_Z 0) with 0%Q in *.

Lemma floor_bounds (v : Q) :
  (inject_Z (Qfloor v) <= v)%Q /\ (v < inject_Z (Qfloor v) + 1)%Q.
Proof.
  split; [apply Qfloor_le|].
  pose proof (Qlt_floor v) as H. rewrite inject_Z_plus in H. exact H.
Qed.

Lemma ceiling_bounds (v : Q) :
  (inject_Z (Qceiling v) - 1 < v)%Q /\ (v <= inject_Z (Qceiling v))%Q.
Proof.
  split; [|apply Qle_ceiling].
  pose proof (Qceiling_lt v) as H.
  unfold Z.sub in H. rewrite inject_Z_plus in H. exact H.
Qed.

Lemma Qfloor_unique (v : Q) (z : Z) :
  (inject_Z z <= v)%Q -> (v < inject_Z z + 1)%Q -> Qfloor v = z.
Proof.
  intros Hlo Hhi. destruct (floor_bounds v) as [Flo Fhi].
  assert (H1 : (inject_Z z < inject_Z (Qfloor v + 1))%Q)
    by (push_inject; lra).
  assert (H2 : (inject_Z (Qfloor v) < inject_Z (z + 1))%Q)
    by (push_inject; lra).
  rewrite <- Zlt_Qlt in H1, H2. lia.
Qed.

Lemma Qceiling_unique (v : Q) (z : Z) :
  (inject_Z z - 1 < v)%Q -> (v <= inject_Z z)%Q -> Qceiling v = z.
Proof.
  intros Hlo Hhi. destruct (ceiling_bounds v) as [Clo Chi].
  assert (H1 : (inject_Z z < inject_Z (Qceiling v + 1))%Q)
    by (push_inject; lra).
  assert (H2 : (inject_Z (Qceiling v) < inject_Z (z + 1))%Q)
    by (push_inject; lra).
  rewrite <- Zlt_Qlt in H1, H2. lia.
Qed.

(** [int(v)] is the floor of a non-negative input and the ceiling of a
    negative one. *)
Lemma py_int_cases (v : Q) :
  py_int v = if Qle_bool 0 v then Qfloor v else Qceiling v.
Proof.
  destruct (Qle_bool 0 v) eqn:E.
  - apply py_int_floor, Qle_bool_iff, E.
  - apply py_int_ceiling, Qlt_le_weak, Qle_bool_false, E.
Qed.

(** [round(v)] is the floor or the floor plus one, whichever is nearer, the
    even one of the two at a tie. *)
Lemma py_round_cases (v : Q) :
  let f := Qfloor v in
  ((v - inject_Z f < 1 # 2)%Q /\ py_round v = f)
  \/ ((1 # 2 < v - inject_Z f)%Q /\ py_round v = f + 1)
  \/ ((v - inject_Z f == 1 # 2)%Q
      /\ py_round v = (if Z.even f then f else f + 1)).
Proof.
  intros f. unfold py_round. fold f.
  destruct (Qcompare_spec (v - inject_Z f) (1 # 2)) as [H|H|H].
  - right. right. split; [exact H | reflexivity].
  - left. split; [exact H | reflexivity].
  - right. left. split; [exact H | reflexivity].
Qed.

(** A value that is an integer is left as it is by every strategy. *)
Lemma rounding_of_integer_value (v : Q) (z : Z) (mode : RoundingMode) :
  (v == inject_Z z)%Q -> _apply_rounding v mode = z.
Proof.
  intros H. rewrite (apply_rounding_comp v (inject_Z z) mode H).
  destruct mode; simpl.
  - unfold _half_up, math_floor. apply Qfloor_unique; lra.
  - unfold _half_even.
    destruct (py_round_cases (inject_Z z)) as [[_ ->]|[[Hc _]|[Hc _]]];
      rewrite ?Qfloor_Z in *; [reflexivity | lra | lra].
  - unfold _down, math_ceil. rewrite py_int_cases, Qfloor_Z, Qceiling_Z.
    destruct (Qle_bool 0 (inject_Z z)); reflexivity.
  - unfold _up, math_ceil. rewrite py_int_cases, Qfloor_Z, Qceiling_Z.
    destruct (Qle_bool 0 (inject_Z z)); reflexivity.
  - unfold _half_down, math_ceil, math_floor.
    destruct (Qle_bool 0 (inject_Z z));
      [apply Qceiling_unique | apply Qfloor_unique]; lra.
Qed.

(** X8.  Every rounding strategy leaves an integer value of magnitude
    below 2^52 as it is (on such a value [v + 0.5] and [v - 0.5] are computed
    without rounding error), so [from_float] on a whole number of major
    units whose minor units stay below 2^52 agrees with the integer
    constructor. *)
Theorem rounding_fixes_integers (z : Z) (mode : RoundingMode)
    (currency : Currency.t) :
  Z.abs z < 2 ^ 52 ->
  _apply_rounding (inject_Z z) mode = z
  /\ (Z.abs (z * Currency.multiplier currency) < 2 ^ 52 ->
      Money.from_float (inject_Z z) currency mode = Money.of_major z currency).
Proof.
  intros _. split; [apply rounding_of_integer_value; reflexivity|].
  intros _. unfold Money.from_float, Money.of_major.
  apply f_equal2; [|reflexivity].
  apply rounding_of_integer_value. rewrite inject_Z_mult. reflexivity.
Qed.

Lemma rounding_fixes_integers_witness :
  _apply_rounding (inject_Z 1250) HALF_UP = 1250
  /\ Money.from_float (inject_Z 1250) Currency.EUR HALF_UP
     = Money.of_major 1250 Currency.EUR.
Proof.
  destruct (rounding_fixes_integers 1250 HALF_UP Currency.EUR) as [H1 H2];
    [reflexivity|].
  split; [exact H1 | apply H2; reflexivity].
Defined.

(** X9.  The three strategies that call the library on the value itself,
    with no float arithmetic before: DOWN truncates toward zero, the floor
    of a non-negative value and the ceiling of a negative one; UP is the
    ceiling on every value; HALF_EVEN returns an integer at most half a
    unit away from the value. *)
Theorem direct_strategies (v : Q) :
  _apply_rounding v DOWN = (if Qle_bool 0 v then Qfloor v else Qceiling v)
  /\ _apply_rounding v UP = Qceiling v
  /\ (inject_Z (_apply_rounding v HALF_EVEN) - v <= 1 # 2)%Q
  /\ (v - inject_Z (_apply_rounding v HALF_EVEN) <= 1 # 2)%Q.
Proof.
  destruct (floor_bounds v) as [Flo Fhi].
  split; [|split].
  - simpl. unfold _down, math_ceil. rewrite py_int_cases.
    destruct (Qle_bool 0 v); reflexivity.
  - apply up_is_ceiling.
  - simpl. unfold _half_even.
    destruct (py_round_cases v) as [[Hc ->]|[[Hc ->]|[Hc ->]]].
    + split; lra.
    + push_inject. split; lra.
    + destruct (Z.even (Qfloor v)); push_inject; split; lra.
Qed.

(** X10.  At a tie, an integer [k] plus one half (a float of this form
    has [k] below 2^52 in magnitude, and [v + 0.5] and [v - 0.5] are exact on
    it): HALF_UP and UP give [k + 1]; HALF_EVEN gives the even one of [k]
    and [k + 1]; DOWN and HALF_DOWN give the one nearer to zero, [k] when
    [k >= 0] and [k + 1] when [k < 0]. *)
Theorem rounding_at_tie (k : Z) :
  let v := (inject_Z k + (1 # 2))%Q in
  _apply_rounding v HALF_UP = k + 1
  /\ _apply_rounding v UP = k + 1
  /\ _apply_rounding v HALF_EVEN = (if Z.even k then k else k + 1)
  /\ _apply_rounding v DOWN = (if 0 <=? k then k else k + 1)
  /\ _apply_rounding v HALF_DOWN = (if 0 <=? k then k else k + 1).
Proof.
  intros v0. remember v0 as v eqn:Ev. subst v0.
  assert (Ev' : (v == inject_Z k + (1 # 2))%Q) by (rewrite Ev; reflexivity).
  clear Ev.
  assert (Hf : Qfloor v = k) by (apply Qfloor_unique; lra).
  assert (Hc : Qceiling v = k + 1)
    by (apply Qceiling_unique; push_inject; lra).
  assert (Hsign : Qle_bool 0 v = (0 <=? k)).
  { destruct (Z.leb_spec 0 k) as [H|H].
    - apply Qle_bool_iff. rewrite Zle_Qle in H. push_inject. lra.
    - destruct (Qle_bool 0 v) eqn:E; [|reflexivity].
      apply Qle_bool_iff in E.
      assert (H' : (k + 1 <= 0)%Z) by lia.
      rewrite Zle_Qle in H'. push_inject. lra. }
  split; [|split; [|split; [|split]]].
  - simpl. unfold _half_up, math_floor.
    apply Qfloor_unique; push_inject; lra.
  - rewrite up_is_ceiling. exact Hc.
  - simpl. unfold _half_even.
    destruct (py_round_cases v) as [[Ht _]|[[Ht _]|[_ Hr]]];
      rewrite ?Hf in *; [lra | lra | exact Hr].
  - simpl. unfold _down, math_ceil. rewrite py_int_cases, Hsign, Hf, Hc.
    destruct (0 <=? k); reflexivity.
  - simpl. unfold _half_down, math_ceil, math_floor. rewrite Hsign.
    destruct (0 <=? k).
    + apply Qceiling_unique; lra.
    + apply Qfloor_unique; push_inject; lra.
Qed.

(** ** VAT and discount: edge rates *)

(** X11.  At the edge rates nothing is rounded.  For an amount of fewer
    than 2^52 minor units (which the float operations of the source carry
    exactly): a VAT rate of 0 gives a zero VAT and a gross equal to the
    net, in [add_vat] and in [extract_vat]; a discount of 0 percent leaves
    the price, a discount of 100 percent leaves zero; and [extract_vat] at
    the rate -100 divides by zero and raises [ZeroDivisionError]. *)
Theorem vat_edge_rates (m : Money.t) (mode : RoundingMode) :
  let zero := Money.zero (Money._currency m) in
  Z.abs (Money._minor_units m) < 2 ^ 52 ->
  Money.add_vat m 0 mode = (m, zero, m)
  /\ Money.extract_vat m 0 mode = Ok (m, zero, m)
  /\ Money.apply_discount m 0 mode = (zero, m)
  /\ Money.apply_discount m 100 mode = (m, zero)
  /\ raises (Money.extract_vat m (-100) mode) ZeroDivisionError.
Proof.
  intros zero _. subst zero. destruct m as [units c]. simpl.
  unfold Money.add_vat, Money.extract_vat, Money.apply_discount, Money.zero,
    Money.of_minor. simpl.
  assert (H0 : forall q, (q == 0)%Q ->
               _apply_rounding (inject_Z units * q) mode = 0).
  { intros q Hq. apply rounding_of_integer_value. rewrite Hq.
    change (inject_Z 0) with 0%Q. ring. }
  assert (H1 : forall q, (q == 1)%Q ->
               _apply_rounding (inject_Z units * q) mode = units).
  { intros q Hq. apply rounding_of_integer_value. rewrite Hq. ring. }
  assert (H2 : _apply_rounding (inject_Z units / (1 + 0 / 100)) mode = units).
  { apply rounding_of_integer_value. field. }
  rewrite !(H0 (0 / 100)%Q) by reflexivity.
  rewrite !(H1 (100 / 100)%Q) by reflexivity.
  rewrite H2.
  repeat split; try (repeat f_equal; lia).
  eexists. reflexivity.
Qed.

Lemma vat_edge_rates_witness :
  Money.add_vat (Money.euro_cents 1999) 0 HALF_UP
  = (Money.euro_cents 1999, Money.zero Currency.EUR, Money.euro_cents 1999)
  /\ Money.apply_discount (Money.euro_cents 1999) 100 HALF_UP
     = (Money.euro_cents 1999, Money.zero Currency.EUR).
Proof.
  destruct (vat_edge_rates (Money.euro_cents 1999) HALF_UP)
    as [H1 [_ [_ [H4 _]]]]; [reflexivity|].
  split; [exact H1 | exact H4].
Defined.

(** ** Weighted distribution: guards and degenerate weights *)

Lemma fold_Qplus_acc (ws : list Q) (a : Q) :
  (fold_left Qplus ws a == a + sum_Q ws)%Q.
Proof.
  unfold sum_Q. revert a. induction ws as [|w ws IH]; intros a; simpl.
  - ring.
  - rewrite (IH (a + w)%Q), (IH (0 + w)%Q). ring.
Qed.

Lemma sum_Q_cons (w : Q) (ws : list Q) : (sum_Q (w :: ws) == w + sum_Q ws)%Q.
Proof.
  unfold sum_Q at 1. simpl. rewrite fold_Qplus_acc. ring.
Qed.

Lemma sum_Q_nonneg (ws : list Q) :
  Forall (fun w => (0 <= w)%Q) ws -> (0 <= sum_Q ws)%Q.
Proof.
  induction 1 as [|w ws Hw _ IH]; [unfold sum_Q; simpl; lra|].
  rewrite sum_Q_cons. lra.
Qed.

Lemma sum_Q_bounded (ws : list Q) (b : Q) :
  (b <= 0)%Q -> (forall w, In w ws -> (w <= b)%Q) -> (sum_Q ws <= 0)%Q.
Proof.
  intros Hb. induction ws as [|w ws IH]; intros H; [unfold sum_Q; simpl; lra|].
  rewrite sum_Q_cons.
  assert (w <= b)%Q by (apply H; left; reflexivity).
  assert (sum_Q ws <= 0)%Q by (apply IH; intros x Hx; apply H; right; exact Hx).
  lra.
Qed.

Lemma negative_weight_found (ws : list Q) :
  existsb (fun w => Qlt_bool w 0) ws = false -> Forall (fun w => (0 <= w)%Q) ws.
Proof.
  induction ws as [|w ws IH]; simpl; intros H; [constructor|].
  apply orb_false_iff in H. destruct H as [Hw Hws].
  constructor; [apply Qlt_bool_false, Hw | apply IH, Hws].
Qed.

(** What [distribute_weighted] returns once its guards are passed. *)
Lemma distribute_weighted_run (m : Money.t) (ws : list Q) (mode : RoundingMode) :
  ws <> [] ->
  Z.of_nat (length ws) <= 10000 ->
  Forall (fun w => (0 <= w)%Q) ws ->
  ~ (sum_Q ws == 0)%Q ->
  let rounded :=
    map (fun w => _apply_rounding
                    (inject_Z (Money._minor_units m) * w / sum_Q ws) mode) ws in
  let residual := Money._minor_units m - sum_Z rounded in
  exists i,
    first_max_index ws i
    /\ Money.distribute_weighted m ws mode
       = Ok (map (fun r => Money.of_minor r (Money._currency m))
                 (alter (fun r => r + residual) i rounded)).
Proof.
  intros Hne Hlen Hpos Htot rounded residual.
  destruct (max_index_spec ws Hne) as [mx [i [Hmax [Hidx Hfirst]]]].
  exists i. split; [exact Hfirst|].
  assert (Hi : (i < length rounded)%nat).
  { destruct Hfirst as [w [Hlk _]]. apply lookup_lt_Some in Hlk.
    unfold rounded. rewrite length_map. exact Hlk. }
  unfold Money.distribute_weighted, Money.MAX_DISTRIBUTION_PARTS.
  assert (E0 : (length ws =? 0)%nat = false)
    by (destruct ws; [congruence | reflexivity]).
  rewrite E0.
  replace (Z.of_nat (length ws) >? 10000) with false
    by (symmetry; rewrite Z.gtb_ltb; apply Z.ltb_ge; lia).
  rewrite no_negative_weight by exact Hpos.
  replace (Qeq_bool (sum_Q ws) 0) with false.
  2:{ symmetry. destruct (Qeq_bool (sum_Q ws) 0) eqn:E; [|reflexivity].
      apply Qeq_bool_iff in E. contradiction. }
  rewrite rounded_parts_eq.
  change (map (fun w => _apply_rounding
                          (inject_Z (Money._minor_units m) * w / sum_Q ws) mode) ws)
    with rounded.
  change (Money._minor_units m - sum_Z rounded) with residual.
  destruct (residual =? 0) eqn:Ez; simpl.
  - apply Z.eqb_eq in Ez. rewrite Ez.
    rewrite list_alter_id by (intros; lia). reflexivity.
  - rewrite Hmax. simpl. rewrite Hidx. simpl.
    destruct (lookup_lt_is_Some_2 rounded i Hi) as [r Hr].
    rewrite Hr. simpl. rewrite (insert_as_alter (fun r => r + residual)) by exact Hr.
    reflexivity.
Qed.



(** X13.  A weight of zero receives nothing: when [distribute_weighted]
    returns, the part at the position of a zero weight is the zero amount.
    A single positive weight receives the whole amount. *)
Theorem distribute_weighted_zero_weight (m : Money.t) (ws : list Q)
    (mode : RoundingMode) (parts : list Money.t) (j : nat) (w : Q) :
  Money.distribute_weighted m ws mode = Ok parts ->
  ws !! j = Some w ->
  ((w == 0)%Q -> parts !! j = Some (Money.zero (Money._currency m)))
  /\ (ws = [w] -> parts = [m]).
Proof.
  intros Hrun Hj.
  assert (Hguards : ws <> [] /\ Z.of_nat (length ws) <= 10000
                    /\ Forall (fun w => (0 <= w)%Q) ws /\ ~ (sum_Q ws == 0)%Q).
  { revert Hrun. unfold Money.distribute_weighted, Money.MAX_DISTRIBUTION_PARTS.
    destruct (length ws =? 0)%nat eqn:E0; [discriminate|].
    destruct (Z.of_nat (length ws) >? 10000) eqn:E1; [discriminate|].
    destruct (existsb (fun w => Qlt_bool w 0) ws) eqn:E2; [discriminate|].
    destruct (Qeq_bool (sum_Q ws) 0) eqn:E3; [discriminate|].
    intros _. split; [intros ->; discriminate E0|].
    split; [rewrite Z.gtb_ltb in E1; apply Z.ltb_ge in E1; lia|].
    split; [apply negative_weight_found, E2|].
    intros H. apply Qeq_bool_iff in H. congruence. }
  destruct Hguards as [Hne [Hlen [Hpos Htot]]].
  destruct (distribute_weighted_run m ws mode Hne Hlen Hpos Htot)
    as [i [Hfirst Hout]].
  rewrite Hout in Hrun. injection Hrun as <-.
  set (rounded := map (fun w => _apply_rounding
                                  (inject_Z (Money._minor_units m) * w / sum_Q ws)
                                  mode) ws) in *.
  set (residual := Money._minor_units m - sum_Z rounded) in *.
  assert (Hsum : (0 <= sum_Q ws)%Q) by (apply sum_Q_nonneg, Hpos).
  split.
  - intros Hw.
    destruct Hfirst as [wmax [Hi [Hub _]]].
    assert (Hmaxpos : (0 < wmax)%Q).
    { apply Qnot_le_lt. intros Hle.
      assert (sum_Q ws <= 0)%Q.
      { apply (sum_Q_bounded ws wmax Hle). intros x Hx.
        apply list_elem_of_In, list_elem_of_lookup in Hx.
        destruct Hx as [k Hk]. apply (Hub k x Hk). }
      apply Htot. lra. }
    assert (Hji : i <> j).
    { intros ->. rewrite Hi in Hj. injection Hj as ->. lra. }
    rewrite map_lookup, list_lookup_alter_ne by exact Hji.
    unfold rounded. rewrite map_lookup, Hj. simpl.
    unfold Money.zero, Money.of_minor. do 2 f_equal.
    apply rounding_of_integer_value. rewrite Hw.
    change (inject_Z 0) with 0%Q. field. exact Htot.
  - intros Hws. subst ws. destruct j; [|discriminate Hj].
    destruct Hfirst as [wmax [Hi _]].
    assert (Hi0 : i = 0%nat).
    { apply lookup_lt_Some in Hi. simpl in Hi. lia. }
    subst i.
    assert (Htot' : ~ (w == 0)%Q).
    { intros H. apply Htot. rewrite sum_Q_cons. unfold sum_Q. simpl. lra. }
    assert (Hr : _apply_rounding
                   (inject_Z (Money._minor_units m) * w / sum_Q [w]) mode
                 = Money._minor_units m).
    { apply rounding_of_integer_value.
      assert (Hs : (sum_Q [w] == w)%Q)
        by (rewrite sum_Q_cons; unfold sum_Q; simpl; lra).
      rewrite Hs. field. exact Htot'. }
    unfold residual, rounded. simpl. rewrite Hr.
    unfold sum_Z. simpl. destruct m as [units c]. simpl.
    unfold Money.of_minor. do 2 f_equal. lia.
Qed.

Lemma distribute_weighted_zero_weight_witness :
  Money.distribute_weighted (Money.euro_cents 100) [3; 0; 1]%Q HALF_EVEN
  = Ok [Money.euro_cents 75; Money.euro_cents 0; Money.euro_cents 25]
  /\ [Money.euro_cents 75; Money.euro_cents 0; Money.euro_cents 25] !! 1%nat
     = Some (Money.zero Currency.EUR).
Proof.
  split; [vm_compute; reflexivity|].
  apply (proj1 (distribute_weighted_zero_weight (Money.euro_cents 100)
                  [3; 0; 1]%Q HALF_EVEN
                  [Money.euro_cents 75; Money.euro_cents 0; Money.euro_cents 25]
                  1%nat 0%Q ltac:(vm_compute; reflexivity) eq_refl)).
  reflexivity.
Defined.

(** ** Allocations *)

Lemma Money_sum_same_currency (parts : list Money.t) (c : Currency.t) (a : Z) :
  Forall (fun p => Money._currency p = c) parts ->
  Money.sum parts (Money.mk a c) = Ok (Money.mk (a + units_of parts) c).
Proof.
  intros H. unfold units_of.
  rewrite <- Money_sum_of_minor. f_equal.
  induction H as [|p parts Hp _ IH]; simpl; [reflexivity|].
  rewrite <- IH. f_equal. destruct p as [u cp]. simpl in Hp. subst cp.
  reflexivity.
Qed.

Lemma units_of_app (xs ys : list Money.t) :
  units_of (xs ++ ys) = units_of xs + units_of ys.
Proof. unfold units_of. rewrite map_app, sum_Z_app. reflexivity. Qed.

Lemma units_of_singleton (p : Money.t) : units_of [p] = Money._minor_units p.
Proof. unfold units_of, sum_Z. simpl. lia. Qed.

(** [fixed] keeps the object in one currency and books the amount both in
    the parts and in the allocated sum. *)
Lemma fixed_spec (a a' : Allocation.t) (amount : Money.t) :
  one_currency a ->
  Allocation.fixed a amount = Ok a' ->
  one_currency a'
  /\ Allocation._total a' = Allocation._total a
  /\ Allocation._parts a' = Allocation._parts a ++ [amount]
  /\ Money._minor_units (Allocation._allocated a')
     = Money._minor_units (Allocation._allocated a) + Money._minor_units amount.
Proof.
  intros [Hc Hp]. unfold Allocation.fixed.
  destruct (Currency.eqb _ _) eqn:E; simpl; [|discriminate].
  apply Currency_eqb_eq in E.
  destruct (Allocation._allocated a) as [ua ca] eqn:Ea. simpl in Hc.
  destruct amount as [um cm]. simpl in E. subst ca cm.
  rewrite Money_add_same. simpl. intros H. injection H as <-.
  unfold one_currency. simpl. repeat split.
  apply Forall_app. split; [exact Hp|]. constructor; [reflexivity | constructor].
Qed.

Lemma allocated_from_inv (total : Money.t) (a : Allocation.t) :
  allocated_from total a ->
  Allocation._total a = total
  /\ one_currency a
  /\ Money._minor_units (Allocation._allocated a) = units_of (Allocation._parts a).
Proof.
  induction 1 as [|a a' amount _ [Ht [Hone Hsum]] Hfix].
  - unfold one_currency. simpl. repeat split. constructor.
  - destruct (fixed_spec a a' amount Hone Hfix) as [Hone' [Ht' [Hp' Ha']]].
    split; [congruence|]. split; [exact Hone'|].
    rewrite Ha', Hp', units_of_app, units_of_singleton, Hsum. reflexivity.
Qed.

(** What [finalize] does on an object in one currency: the remainder,
    when it is not zero, is added to the last part or becomes the only
    part, and the allocated sum is left as it was. *)
Lemma finalize_spec (a : Allocation.t) :
  one_currency a ->
  exists parts,
    Allocation.finalize a
    = Ok (parts, Allocation.mk (Allocation._total a) (Allocation._allocated a) parts)
    /\ Forall (fun p => Money._currency p
                        = Money._currency (Allocation._total a)) parts
    /\ units_of parts
       = units_of (Allocation._parts a)
         + (Money._minor_units (Allocation._total a)
            - Money._minor_units (Allocation._allocated a)).
Proof.
  destruct a as [[ut c] [ua ca] parts]. unfold one_currency. simpl.
  intros [-> Hp].
  unfold Allocation.finalize, Allocation.remainder, Money.__sub__. simpl.
  rewrite Currency_eqb_refl. simpl. unfold Money.is_zero. simpl.
  destruct (Z.eqb_spec (ut - ua) 0) as [Hz|Hz]; simpl.
  - eexists. split; [reflexivity|]. split; [exact Hp | lia].
  - destruct (last parts) as [p|] eqn:El.
    + apply last_Some in El. destruct El as [pre ->].
      apply Forall_app in Hp. destruct Hp as [Hpre Hlast].
      apply List.Forall_inv in Hlast.
      destruct p as [up cp]. simpl in Hlast. subst cp.
      unfold Money.of_minor. rewrite Money_add_same. simpl.
      replace (length (pre ++ [Money.mk up c]) - 1)%nat
        with (length pre + 0)%nat by (rewrite length_app; simpl; lia).
      rewrite insert_app_r. simpl.
      eexists. split; [reflexivity|]. split.
      * apply Forall_app. split; [exact Hpre|].
        constructor; [reflexivity | constructor].
      * rewrite !units_of_app, !units_of_singleton. simpl. lia.
    + apply last_None in El. subst parts. simpl.
      eexists. split; [reflexivity|]. split.
      * constructor; [reflexivity | constructor].
      * rewrite units_of_singleton. unfold units_of, sum_Z. simpl. lia.
Qed.

(** X14.  After any sequence of successful [fixed] calls on
    [Allocation(total)], [finalize] returns parts that add up to the total
    exactly, whatever was allocated: less, as much, or more than the
    total. *)
Theorem allocation_finalize_exact (total : Money.t) (a : Allocation.t) :
  allocated_from total a ->
  exists parts a',
    Allocation.finalize a = Ok (parts, a')
    /\ Money.sum parts (Money.zero (Money._currency total)) = Ok total.
Proof.
  intros H. destruct (allocated_from_inv total a H) as [Ht [Hone Hsum]].
  destruct (finalize_spec a Hone) as [parts [Hfin [Hcur Hunits]]].
  exists parts. eexists. split; [exact Hfin|].
  rewrite Ht in Hcur, Hunits. unfold Money.zero.
  rewrite (Money_sum_same_currency parts _ 0 Hcur).
  destruct total as [ut c]. simpl in *. f_equal. f_equal. lia.
Qed.

Lemma allocation_finalize_exact_witness :
  exists parts a',
    Allocation.finalize
      (Allocation.mk (Money.euro 1000) (Money.euro 500)
         [Money.euro 300; Money.euro 200]) = Ok (parts, a')
    /\ Money.sum parts (Money.zero Currency.EUR) = Ok (Money.euro 1000).
Proof.
  apply (allocation_finalize_exact (Money.euro 1000)).
  apply (allocated_fixed _ (Allocation.mk (Money.euro 1000) (Money.euro 300)
                              [Money.euro 300]) _ (Money.euro 200));
    [|reflexivity].
  apply (allocated_fixed _ (Allocation.init (Money.euro 1000)) _ (Money.euro 300));
    [apply allocated_init | reflexivity].
Defined.

(** X15.  [finalize] changes the parts of the object and not its allocated
    sum, so it is not idempotent: a second call adds the remainder once
    more, and the parts it returns add up to the total plus the
    remainder. *)
Theorem allocation_finalize_twice (total r : Money.t) (a a1 a2 : Allocation.t)
    (parts1 parts2 : list Money.t) :
  allocated_from total a ->
  Allocation.remainder a = Ok r ->
  Allocation.finalize a = Ok (parts1, a1) ->
  Allocation.finalize a1 = Ok (parts2, a2) ->
  Money.sum parts2 (Money.zero (Money._currency total))
  = Money.__add__ total r.
Proof.
  intros H Hr H1 H2.
  destruct (allocated_from_inv total a H) as [Ht [Hone Hsum]].
  destruct (finalize_spec a Hone) as [p1 [Hfin1 [Hcur1 Hunits1]]].
  rewrite Hfin1 in H1. injection H1 as <- <-.
  assert (Hone1 : one_currency
                    (Allocation.mk (Allocation._total a)
                       (Allocation._allocated a) p1)).
  { destruct Hone as [Hc _]. split; [exact Hc | exact Hcur1]. }
  destruct (finalize_spec _ Hone1) as [p2 [Hfin2 [Hcur2 Hunits2]]].
  rewrite Hfin2 in H2. injection H2 as <- _. simpl in *.
  rewrite Ht in *. unfold Money.zero.
  rewrite (Money_sum_same_currency p2 _ 0 Hcur2).
  revert Hr. unfold Allocation.remainder, Money.__sub__.
  destruct Hone as [Hc _]. rewrite Ht in *.
  destruct total as [ut c], (Allocation._allocated a) as [ua ca]. simpl in *.
  subst ca. rewrite Currency_eqb_refl. simpl. intros Hr. injection Hr as <-.
  unfold Money.of_minor. rewrite Money_add_same. f_equal. f_equal. lia.
Qed.

Lemma allocation_finalize_twice_witness :
  Money.sum [Money.euro 300; Money.euro 1200] (Money.zero Currency.EUR)
  = Money.__add__ (Money.euro 1000) (Money.euro 500).
Proof.
  apply (allocation_finalize_twice (Money.euro 1000) (Money.euro 500)
           (Allocation.mk (Money.euro 1000) (Money.euro 500)
              [Money.euro 300; Money.euro 200])
           (Allocation.mk (Money.euro 1000) (Money.euro 500)
              [Money.euro 300; Money.euro 700])
           (Allocation.mk (Money.euro 1000) (Money.euro 500)
              [Money.euro 300; Money.euro 1200])
           [Money.euro 300; Money.euro 700] [Money.euro 300; Money.euro 1200]);
    [|reflexivity | reflexivity | reflexivity].
  apply (allocated_fixed _ (Allocation.mk (Money.euro 1000) (Money.euro 300)
                              [Money.euro 300]) _ (Money.euro 200));
    [|reflexivity].
  apply (allocated_fixed _ (Allocation.init (Money.euro 1000)) _ (Money.euro 300));
    [apply allocated_init | reflexivity].
Defined.

(* ================================================================== *)
(** * Further properties of ifx.py *)
(* ================================================================== *)

(** ** The gate: what decides admission *)

Section GateAdmission.
Context {R : Runtime}.

Lemma check_confidence_spec (g : Gate.t) (tx : SignedTransaction.t) :
  (snd (Gate._check_confidence g tx) = [] <->
   confidence_ok (Gate.policy g) tx = true)
  /\ (length (fst (Gate._check_confidence g tx))
      + length (snd (Gate._check_confidence g tx)) = 1)%nat.
Proof.
  unfold Gate._check_confidence, confidence_ok.
  destruct (Qle_bool _ _); simpl; split; try reflexivity;
    split; intros H; try reflexivity; discriminate H.
Qed.

Lemma check_amount_spec (g : Gate.t) (tx : SignedTransaction.t) :
  exists p f,
    Gate._check_amount g tx = Ok (p, f)
    /\ (f = [] <-> amount_ok (Gate.policy g) tx = true)
    /\ (length p + length f = 1)%nat.
Proof.
  unfold Gate._check_amount, amount_ok.
  destruct (QualificationPolicy.max_amount (Gate.policy g)) as [mx|].
  - destruct (Currency.eqb _ _) eqn:E; simpl.
    + unfold Money.__le__, Money._check_same_currency. rewrite E. simpl.
      destruct (_ <=? _); do 2 eexists; (split; [reflexivity|]); split;
        try reflexivity; split; intros H; try reflexivity; discriminate H.
    + do 2 eexists. split; [reflexivity|]. split; [|reflexivity].
      split; intros H; discriminate H.
  - do 2 eexists. split; [reflexivity|]. split; [|reflexivity].
    split; reflexivity.
Qed.

Lemma check_source_spec (g : Gate.t) (tx : SignedTransaction.t) :
  (snd (Gate._check_source g tx) = [] <-> source_ok (Gate.policy g) tx = true)
  /\ (length (fst (Gate._check_source g tx))
      + length (snd (Gate._check_source g tx)) = 1)%nat.
Proof.
  unfold Gate._check_source, source_ok.
  destruct (QualificationPolicy.allowed_sources (Gate.policy g)) as [al|].
  - destruct (str_in _ al); simpl; split; try reflexivity;
      split; intros H; try reflexivity; discriminate H.
  - destruct (QualificationPolicy.blocked_sources (Gate.policy g)) as [bl|].
    + destruct (str_in _ bl); simpl; split; try reflexivity;
        split; intros H; try reflexivity; discriminate H.
    + simpl. split; [split; reflexivity | reflexivity].
Qed.

Lemma run_custom_checks_spec (checks : list Gate.check)
    (tx : SignedTransaction.t) (i : nat) :
  (snd (Gate._run_custom_checks_from i checks tx) = [] <->
   custom_ok checks tx = true)
  /\ (length (fst (Gate._run_custom_checks_from i checks tx))
      + length (snd (Gate._run_custom_checks_from i checks tx))
      = length checks)%nat.
Proof.
  revert i. induction checks as [|c checks IH]; intros i; simpl.
  - split; [split; reflexivity | reflexivity].
  - destruct (IH (S i)) as [Hnil Hlen].
    destruct (Gate._run_custom_checks_from (S i) checks tx) as [p f].
    simpl in *. destruct (c tx) as [msg|]; simpl.
    + split; [|lia]. split; intros H; discriminate H.
    + split; [exact Hnil | lia].
Qed.

(** The decision [evaluate] returns, in terms of the results of the
    checks. *)
Lemma evaluate_unfold (g : Gate.t) (tx : SignedTransaction.t)
    (d : GateDecision.t) :
  Gate.evaluate g tx = Ok d ->
  exists p2 f2 p3,
    Gate._check_amount g tx = Ok (p2, f2)
    /\ Gate._check_human_approval g tx
       = Ok (p3, GateDecision.requires_human_approval d)
    /\ GateDecision.checks_passed d
       = fst (Gate._check_confidence g tx) ++ p2 ++ p3
         ++ fst (Gate._check_source g tx)
         ++ fst (Gate._run_custom_checks g tx)
    /\ GateDecision.checks_failed d
       = snd (Gate._check_confidence g tx) ++ f2
         ++ snd (Gate._check_source g tx)
         ++ snd (Gate._run_custom_checks g tx)
    /\ GateDecision.admitted d
       = (length (GateDecision.checks_failed d) =? 0)%nat
    /\ GateDecision.policy_version d = QualificationPolicy.version (Gate.policy g)
    /\ GateDecision.reason d
       = (if GateDecision.admitted d then "All checks passed"
          else String.concat "; " (GateDecision.checks_failed d)).
Proof.
  unfold Gate.evaluate.
  destruct (Gate._check_confidence g tx) as [p1 f1].
  destruct (Gate._check_amount g tx) as [[p2 f2]|e]; simpl; [|discriminate].
  destruct (Gate._check_human_approval g tx) as [[p3 h]|e]; simpl; [|discriminate].
  destruct (Gate._check_source g tx) as [p4 f4].
  destruct (Gate._run_custom_checks g tx) as [p5 f5].
  intros H. injection H as <-. simpl.
  exists p2, f2, p3. rewrite <- !app_assoc. repeat split.
Qed.

(** X16.  Whenever the gate returns a decision, the transaction is
    admitted exactly when its confidence reaches the floor of the policy,
    its amount is in the currency of the ceiling and does not exceed it (or
    no ceiling is set), its source passes the allow list (or, without one,
    the block list), and every custom check returns no failure. *)
Theorem gate_admission (g : Gate.t) (tx : SignedTransaction.t)
    (d : GateDecision.t) :
  Gate.evaluate g tx = Ok d ->
  GateDecision.admitted d
  = confidence_ok (Gate.policy g) tx
    && amount_ok (Gate.policy g) tx
    && source_ok (Gate.policy g) tx
    && custom_ok (Gate._custom_checks g) tx.
Proof.
  intros H. apply evaluate_unfold in H.
  destruct H as [p2 [f2 [p3 [Ha [_ [_ [Hf [Hadm _]]]]]]]].
  rewrite Hadm, Hf.
  destruct (check_confidence_spec g tx) as [H1 _].
  destruct (check_amount_spec g tx) as [p2' [f2' [Ha' [H2 _]]]].
  rewrite Ha in Ha'. injection Ha' as <- <-.
  destruct (check_source_spec g tx) as [H4 _].
  destruct (run_custom_checks_spec (Gate._custom_checks g) tx 0) as [H5 _].
  fold (Gate._run_custom_checks g tx) in H5.
  destruct (snd (Gate._check_confidence g tx)) as [|x1 l1];
    destruct f2 as [|x2 l2];
    destruct (snd (Gate._check_source g tx)) as [|x4 l4];
    destruct (snd (Gate._run_custom_checks g tx)) as [|x5 l5];
    destruct (confidence_ok (Gate.policy g) tx);
    destruct (amount_ok (Gate.policy g) tx);
    destruct (source_ok (Gate.policy g) tx);
    destruct (custom_ok (Gate._custom_checks g) tx);
    simpl; try reflexivity; exfalso;
    repeat match goal with
           | H : _ <-> _ |- _ => destruct H
           end;
    repeat match goal with
           | H : [] = [] -> _ |- _ => specialize (H eq_refl)
           | H : true = true -> _ |- _ => specialize (H eq_refl)
           end;
    discriminate.
Qed.

(** X17.  Every check leaves exactly one label in the decision, among the
    passed or among the failed ones: the two lists hold four labels plus one
    for each custom check, and a rejected transaction has at least one
    failed label, joined into its reason. *)
Theorem gate_labels (g : Gate.t) (tx : SignedTransaction.t)
    (d : GateDecision.t) :
  Gate.evaluate g tx = Ok d ->
  (length (GateDecision.checks_passed d) + length (GateDecision.checks_failed d)
   = 4 + length (Gate._custom_checks g))%nat
  /\ (GateDecision.admitted d = true ->
      GateDecision.checks_failed d = []
      /\ GateDecision.reason d = "All checks passed")
  /\ (GateDecision.admitted d = false ->
      GateDecision.checks_failed d <> []
      /\ GateDecision.reason d
         = String.concat "; " (GateDecision.checks_failed d)).
Proof.
  intros H. apply evaluate_unfold in H.
  destruct H as [p2 [f2 [p3 [Ha [Hh [Hp [Hf [Hadm [_ Hreason]]]]]]]]].
  split; [|split].
  - rewrite Hp, Hf, !length_app.
    destruct (check_confidence_spec g tx) as [_ L1].
    destruct (check_amount_spec g tx) as [p2' [f2' [Ha' [_ L2]]]].
    rewrite Ha in Ha'. injection Ha' as <- <-.
    destruct (check_source_spec g tx) as [_ L4].
    destruct (run_custom_checks_spec (Gate._custom_checks g) tx 0) as [_ L5].
    fold (Gate._run_custom_checks g tx) in L5.
    assert (L3 : length p3 = 1%nat).
    { revert Hh. unfold Gate._check_human_approval.
      destruct (QualificationPolicy.require_human_approval_above (Gate.policy g));
        [|intros H; injection H as <- _; reflexivity].
      destruct (Money.__gt__ _ _) as [b|e]; simpl; [|discriminate].
      destruct (_ && b); intros H; injection H as <- _; reflexivity. }
    lia.
  - intros Ht. rewrite Hreason, Ht. split; [|reflexivity].
    rewrite Hadm in Ht. apply Nat.eqb_eq, length_zero_iff_nil in Ht. exact Ht.
  - intros Hn. rewrite Hreason, Hn. split; [|reflexivity].
    rewrite Hadm in Hn. apply Nat.eqb_neq in Hn. intros E.
    rewrite E in Hn. apply Hn. reflexivity.
Qed.

(** X18.  The allow list takes precedence: once a policy has an allow
    list, its block list plays no part in the decision. *)
Theorem allow_list_precedence (min_confidence : Q)
    (max_amount threshold : option Money.t) (allowed : list string)
    (blocked blocked' : option (list string)) (version name : string)
    (checks : list Gate.check) (tx : SignedTransaction.t) :
  Gate.evaluate
    (Gate.mk (QualificationPolicy.mk min_confidence max_amount threshold
                (Some allowed) blocked version name) checks) tx
  = Gate.evaluate
      (Gate.mk (QualificationPolicy.mk min_confidence max_amount threshold
                  (Some allowed) blocked' version name) checks) tx.
Proof. reflexivity. Qed.

(** X19.  The gate returns a decision exactly when no human-approval
    threshold is set or the threshold is in the currency of the amount;
    with a threshold in another currency it raises [TypeError]. *)
Theorem gate_returns_iff (g : Gate.t) (tx : SignedTransaction.t) :
  ((exists d, Gate.evaluate g tx = Ok d) <->
   match QualificationPolicy.require_human_approval_above (Gate.policy g) with
   | None => True
   | Some threshold =>
       Money._currency (SignedTransaction.amount tx) = Money._currency threshold
   end)
  /\ ((forall d, Gate.evaluate g tx <> Ok d) ->
      raises (Gate.evaluate g tx) TypeError).
Proof.
  assert (Hcases :
    match QualificationPolicy.require_human_approval_above (Gate.policy g) with
    | None => exists ph, Gate._check_human_approval g tx = Ok ph
    | Some threshold =>
        (Money._currency (SignedTransaction.amount tx) = Money._currency threshold
         /\ exists ph, Gate._check_human_approval g tx = Ok ph)
        \/ (Money._currency (SignedTransaction.amount tx)
            <> Money._currency threshold
            /\ raises (Gate._check_human_approval g tx) TypeError)
    end).
  { destruct (QualificationPolicy.require_human_approval_above (Gate.policy g))
      as [th|] eqn:Eth.
    - destruct (Currency.eqb (Money._currency (SignedTransaction.amount tx))
                  (Money._currency th)) eqn:E.
      + left. split; [apply Currency_eqb_eq, E|].
        unfold Gate._check_human_approval. rewrite Eth.
        unfold Money.__gt__, Money._check_same_currency. rewrite E. simpl.
        destruct (_ >? _); eexists; reflexivity.
      + right. assert (Hne : Money._currency (SignedTransaction.amount tx)
                             <> Money._currency th).
        { intros Hc. apply Currency_eqb_eq in Hc. congruence. }
        split; [exact Hne|].
        apply (check_human_approval_raises g tx th Eth Hne).
    - unfold Gate._check_human_approval. rewrite Eth. eexists. reflexivity. }
  destruct (QualificationPolicy.require_human_approval_above (Gate.policy g))
    as [th|].
  - destruct Hcases as [[Heq Hok]|[Hne Hraise]].
    + split.
      * split; [intros _; exact Heq | intros _; apply evaluate_returns, Hok].
      * intros Hno. destruct (evaluate_returns g tx Hok) as [d Hd].
        exfalso. apply (Hno d Hd).
    + apply evaluate_raises in Hraise. split; [|intros _; exact Hraise].
      split; [|intros Hc; contradiction].
      intros [d Hd]. destruct Hraise as [msg Hm]. rewrite Hm in Hd.
      discriminate Hd.
  - split.
    + split; [intros _; exact I | intros _; apply evaluate_returns, Hcases].
    + intros Hno. destruct (evaluate_returns g tx Hcases) as [d Hd].
      exfalso. apply (Hno d Hd).
Qed.

End GateAdmission.

Lemma gate_admission_witness :
  GateDecision.admitted sample_decision = true.
Proof.
  refine (eq_trans
            (@gate_admission sample_runtime (Gate.init sample_policy)
               (@SignedTransaction.sign sample_runtime
                  (proposed (Money.euro 100) "test-model" (92 # 100)
                     sample_policy None sample_env))
               sample_decision _) _);
    vm_compute; reflexivity.
Defined.

Lemma gate_labels_witness :
  (length (GateDecision.checks_passed sample_decision)
   + length (GateDecision.checks_failed sample_decision) = 4)%nat
  /\ GateDecision.reason sample_decision = "All checks passed".
Proof.
  destruct (@gate_labels sample_runtime (Gate.init sample_policy)
              (@SignedTransaction.sign sample_runtime
                 (proposed (Money.euro 100) "test-model" (92 # 100)
                    sample_policy None sample_env))
              sample_decision) as [Hlen [Hadm _]].
  - vm_compute. reflexivity.
  - split; [exact Hlen|]. apply Hadm. vm_compute. reflexivity.
Defined.

(** ** Signatures: what verification detects *)

Section SignatureTampering.
Context {R : Runtime}.

(** The signed content determines the identifier, the amount and the
    metadata. *)
Lemma signed_content_inj (a b : SignedTransaction.t) :
  SignedTransaction.signed_content a = SignedTransaction.signed_content b ->
  SignedTransaction.tx_id a = SignedTransaction.tx_id b
  /\ SignedTransaction.amount a = SignedTransaction.amount b
  /\ SignedTransaction.metadata a = SignedTransaction.metadata b.
Proof.
  unfold SignedTransaction.signed_content. intros H.
  remember (Money.to_dict (SignedTransaction.amount a)) as ja eqn:Eja.
  remember (Money.to_dict (SignedTransaction.amount b)) as jb eqn:Ejb.
  remember (TransactionMetadata.to_dict (SignedTransaction.metadata a)) as ma eqn:Ema.
  remember (TransactionMetadata.to_dict (SignedTransaction.metadata b)) as mb eqn:Emb.
  injection H as Hi Ha Hm. subst ja jb ma mb.
  apply Money_to_dict_inj in Ha. apply Metadata_to_dict_inj in Hm.
  repeat split; assumption.
Qed.

(** X20.  A transaction that carries the signature computed for [tx] but
    differs from [tx] in its identifier, its amount or its metadata does not
    verify, provided the digests of the two signed contents do not
    collide. *)
Theorem signature_detects_tampering (tx tx' : SignedTransaction.t) :
  SignedTransaction.signature tx'
  = SignedTransaction.signature (SignedTransaction.sign tx) ->
  SignedTransaction.tx_id tx' <> SignedTransaction.tx_id tx
  \/ SignedTransaction.amount tx' <> SignedTransaction.amount tx
  \/ SignedTransaction.metadata tx' <> SignedTransaction.metadata tx ->
  no_collision (SignedTransaction.signed_content tx)
               (SignedTransaction.signed_content tx') ->
  SignedTransaction.verify_signature tx' = false.
Proof.
  intros Hsig Hchg Hnc. unfold SignedTransaction.verify_signature.
  rewrite Hsig. simpl. unfold compare_digest. apply String.eqb_neq.
  unfold no_collision, Ledger._compute_hash in Hnc. apply Hnc.
  intros Heq. apply signed_content_inj in Heq. destruct Heq as [H1 [H2 H3]].
  destruct Hchg as [H|[H|H]]; apply H; congruence.
Qed.

End SignatureTampering.

Lemma signature_detects_tampering_witness :
  @SignedTransaction.verify_signature sample_runtime tampered_tx = false.
Proof.
  apply (@signature_detects_tampering sample_runtime sample_tx tampered_tx).
  - reflexivity.
  - right. left. vm_compute. discriminate.
  - intros _. vm_compute. discriminate.
Defined.

(** ** The ledger: invariants, queries and the limits of the chain *)

Section LedgerInvariants.
Context {R : Runtime}.

Lemma append_room (l l' : Ledger.t) (tx : SignedTransaction.t)
    (d : option GateDecision.t) (now : datetime) (e : LedgerEntry.t) :
  Ledger.append l tx d now = Ok (e, l') ->
  Z.of_nat (length (Ledger._entries l)) < Ledger._max_entries l.
Proof.
  unfold Ledger.append.
  destruct (Z.of_nat (length (Ledger._entries l)) >=? Ledger._max_entries l)
    eqn:E; [discriminate|].
  intros _. rewrite Z.geb_leb in E. apply Z.leb_gt in E. exact E.
Qed.

Lemma built_genesis (l : Ledger.t) :
  built l -> Ledger._genesis_hash l = Ledger.genesis.
Proof.
  induction 1 as [m | l l' tx d now e Hb IH Happ]; [reflexivity|].
  apply append_spec in Happ. destruct Happ as [_ [Hg _]]. congruence.
Qed.

Lemma built_sequence (l : Ledger.t) :
  built l ->
  forall i e, Ledger._entries l !! i = Some e ->
              LedgerEntry.sequence e = Z.of_nat i.
Proof.
  induction 1 as [m | l l' tx d now e Hb IH Happ]; intros i x Hi.
  - simpl in Hi. discriminate Hi.
  - apply append_spec in Happ. destruct Happ as [He [_ [_ Hentry]]].
    rewrite He in Hi. apply lookup_app_Some in Hi.
    destruct Hi as [Hi|[Hge Hi]]; [apply IH, Hi|].
    apply list_lookup_singleton_Some in Hi. destruct Hi as [Hz <-].
    rewrite Hentry. simpl. f_equal. lia.
Qed.

Lemma built_capacity (l : Ledger.t) :
  built l ->
  Ledger._entries l = []
  \/ Z.of_nat (length (Ledger._entries l)) <= Ledger._max_entries l.
Proof.
  induction 1 as [m | l l' tx d now e Hb IH Happ]; [left; reflexivity|].
  right. pose proof (append_room _ _ _ _ _ _ Happ) as Hroom.
  apply append_spec in Happ. destruct Happ as [He [_ [Hm _]]].
  rewrite He, Hm, length_app. simpl. lia.
Qed.

Lemma chained_adjacent (es : list LedgerEntry.t) :
  forall prev i e e',
    chained prev es -> es !! i = Some e -> es !! S i = Some e' ->
    LedgerEntry.previous_hash e' = LedgerEntry.entry_hash e.
Proof.
  induction es as [|e0 es IH]; intros prev i e e' Hc Hi Hs; [discriminate Hi|].
  destruct Hc as [_ [_ Hc]]. destruct i as [|i].
  - simpl in Hi. injection Hi as <-. simpl in Hs.
    destruct es as [|e1 es]; [discriminate Hs|].
    simpl in Hs. injection Hs as <-. destruct Hc as [Hp _]. exact Hp.
  - simpl in Hi, Hs. exact (IH _ i e e' Hc Hi Hs).
Qed.

Lemma chained_self (es : list LedgerEntry.t) :
  forall prev i e,
    chained prev es -> es !! i = Some e ->
    LedgerEntry.entry_hash e = Ledger._compute_hash (Ledger.content_of e).
Proof.
  induction es as [|e0 es IH]; intros prev i e Hc Hi; [discriminate Hi|].
  destruct Hc as [_ [Hh Hc]]. destruct i as [|i].
  - simpl in Hi. injection Hi as <-. exact Hh.
  - simpl in Hi. exact (IH _ i e Hc Hi).
Qed.

(** X21.  In a ledger built by successive calls of [append]: the entry at
    index [i] has sequence number [i] and carries the digest of its own
    content; the first entry points to the genesis hash, 64 zeros, and every
    later entry to the [entry_hash] of the entry before it; and the ledger
    never holds more entries than its capacity. *)
Theorem built_ledger_invariants (l : Ledger.t) :
  built l ->
  Ledger._genesis_hash l = String.concat "" (repeat "0" 64)
  /\ (forall i e,
        Ledger._entries l !! i = Some e ->
        LedgerEntry.sequence e = Z.of_nat i
        /\ LedgerEntry.entry_hash e = Ledger._compute_hash (Ledger.content_of e))
  /\ (forall e,
        Ledger._entries l !! 0%nat = Some e ->
        LedgerEntry.previous_hash e = Ledger._genesis_hash l)
  /\ (forall i e e',
        Ledger._entries l !! i = Some e ->
        Ledger._entries l !! S i = Some e' ->
        LedgerEntry.previous_hash e' = LedgerEntry.entry_hash e)
  /\ (Ledger.__len__ l = 0 \/ Ledger.__len__ l <= Ledger._max_entries l).
Proof.
  intros Hb. pose proof (built_chained l Hb) as Hc.
  split; [exact (built_genesis l Hb)|]. split; [|split; [|split]].
  - intros i e Hi. split; [exact (built_sequence l Hb i e Hi)|].
    exact (chained_self _ _ i e Hc Hi).
  - intros e He. destruct (Ledger._entries l) as [|e0 es]; [discriminate He|].
    simpl in He. injection He as <-. destruct Hc as [Hp _]. exact Hp.
  - intros i e e' Hi Hs. exact (chained_adjacent _ _ i e e' Hc Hi Hs).
  - unfold Ledger.__len__. destruct (built_capacity l Hb) as [-> | H];
      [left; reflexivity | right; exact H].
Qed.

Lemma find_snoc {A : Type} (f : A -> bool) (l : list A) (x : A) :
  find f (l ++ [x])
  = match find f l with
    | Some y => Some y
    | None => if f x then Some x else None
    end.
Proof.
  induction l as [|a l IH]; simpl; [reflexivity|].
  destruct (f a); [reflexivity | exact IH].
Qed.

(** X22.  A successful [append] adds the new entry at the end and leaves
    the stored ones in place: the length grows by one, [get_all] is the
    former list followed by the entry, [find_by_tx_id] still returns the
    earliest entry with the identifier (the new entry only when no earlier
    one carries it), and [find_by_status] gains the entry exactly for the
    status of its transaction. *)
Theorem append_and_queries (l l' : Ledger.t) (tx : SignedTransaction.t)
    (d : option GateDecision.t) (now : datetime) (e : LedgerEntry.t) :
  Ledger.append l tx d now = Ok (e, l') ->
  Ledger.__len__ l' = Ledger.__len__ l + 1
  /\ Ledger.get_all l' = Ledger.get_all l ++ [e]
  /\ LedgerEntry.transaction e = tx
  /\ LedgerEntry.decision e = d
  /\ LedgerEntry.timestamp e = now
  /\ (forall tx_id,
        Ledger.find_by_tx_id l' tx_id
        = match Ledger.find_by_tx_id l tx_id with
          | Some e0 => Some e0
          | None =>
              if String.eqb (SignedTransaction.tx_id tx) tx_id then Some e
              else None
          end)
  /\ (forall status,
        Ledger.find_by_status l' status
        = Ledger.find_by_status l status
          ++ (if String.eqb (SignedTransaction.status tx) status then [e]
              else [])).
Proof.
  intros Happ. apply append_spec in Happ.
  destruct Happ as [He [_ [_ Hentry]]].
  assert (Htx : LedgerEntry.transaction e = tx) by (rewrite Hentry; reflexivity).
  split; [|split; [exact He|split; [exact Htx|split; [|split; [|split]]]]].
  - unfold Ledger.__len__. rewrite He, length_app. simpl. lia.
  - rewrite Hentry. reflexivity.
  - rewrite Hentry. reflexivity.
  - intros id. unfold Ledger.find_by_tx_id. rewrite He, find_snoc, Htx.
    reflexivity.
  - intros st. unfold Ledger.find_by_status. rewrite He, filter_app.
    f_equal. rewrite filter_cons, filter_nil, Htx.
    destruct (String.eqb_spec (SignedTransaction.status tx) st) as [E|E];
      case_decide; try reflexivity; contradiction.
Qed.

(** X23.  The chain does not bind an entry whose digest is recomputed.
    In a built ledger, write over entry [k] an entry with any sequence
    number, timestamp, transaction and decision, the stored [previous_hash]
    and the digest of this new content: if [k] is the last entry,
    [verify_chain] still returns [(True, None)]; if an entry follows and the
    new digest differs from the stored one, [verify_chain] returns
    [(False, k + 1)], the index after the rewritten entry. *)
Theorem recomputed_entry (l : Ledger.t) (k : nat) (e e' : LedgerEntry.t) :
  built l ->
  Ledger._entries l !! k = Some e ->
  LedgerEntry.previous_hash e' = LedgerEntry.previous_hash e ->
  LedgerEntry.entry_hash e' = Ledger._compute_hash (Ledger.content_of e') ->
  (Ledger._entries l !! S k = None ->
   Ledger.verify_chain (Ledger.overwrite l k e') = Ok (true, None))
  /\ (Ledger._entries l !! S k <> None ->
      LedgerEntry.entry_hash e' <> LedgerEntry.entry_hash e ->
      Ledger.verify_chain (Ledger.overwrite l k e')
      = Ok (false, Some (Z.of_nat k + 1))).
Proof.
  intros Hb Hk Hprev Hself. pose proof (built_chained l Hb) as Hc.
  pose proof (lookup_lt_Some _ _ _ Hk) as Hlt.
  pose proof (take_drop_middle _ _ _ Hk) as Hsplit.
  set (pre := take k (Ledger._entries l)) in *.
  set (rest := drop (S k) (Ledger._entries l)) in *.
  assert (Hlen : length pre = k) by (unfold pre; rewrite length_take; lia).
  assert (Hc' := Hc). rewrite <- Hsplit in Hc'. apply chained_app in Hc'.
  destruct Hc' as [Hpre [Hp [_ Hrest]]].
  assert (He' : Ledger._entries (Ledger.overwrite l k e') = pre ++ e' :: rest).
  { simpl. rewrite insert_take_drop by exact Hlt. reflexivity. }
  assert (Hhead : chained (Ledger._genesis_hash (Ledger.overwrite l k e'))
                          (pre ++ [e'])).
  { apply chained_app. split; [exact Hpre|]. simpl.
    split; [rewrite Hprev; exact Hp|]. split; [exact Hself | exact I]. }
  split.
  - intros Hnone. apply verify_chain_chained. rewrite He'.
    assert (Hr : rest = []).
    { unfold rest. apply drop_ge. apply lookup_ge_None in Hnone. lia. }
    rewrite Hr. exact Hhead.
  - intros Hsome Hdiff.
    destruct rest as [|next rest'] eqn:Hr.
    { exfalso. apply Hsome. apply lookup_ge_None.
      assert (Hl : length (drop (S k) (Ledger._entries l)) = 0%nat)
        by (fold rest; rewrite Hr; reflexivity).
      rewrite length_drop in Hl. lia. }
    unfold Ledger.verify_chain.
    assert (He'' : Ledger._entries (Ledger.overwrite l k e')
                   = [] ++ (pre ++ [e']) ++ next :: rest').
    { rewrite He'. rewrite <- app_assoc. reflexivity. }
    pose proof (verify_through_chained (Ledger.overwrite l k e') (pre ++ [e'])
                  [] (next :: rest') He'' Hhead) as Hwalk.
    simpl length in Hwalk. simpl app in Hwalk.
    rewrite He'. 
    replace (pre ++ e' :: next :: rest') with ((pre ++ [e']) ++ next :: rest')
      by (rewrite <- app_assoc; reflexivity).
    rewrite Hwalk.
    assert (He3 : Ledger._entries (Ledger.overwrite l k e')
                  = (pre ++ [e']) ++ next :: rest').
    { rewrite He'. rewrite <- app_assoc. reflexivity. }
    rewrite (verify_stops (Ledger.overwrite l k e') (pre ++ [e']) rest' next He3).
    + rewrite length_app, Hlen. simpl. do 3 f_equal. lia.
    + left. rewrite last_hash_snoc. destruct Hrest as [Hn _].
      rewrite Hn. intros Heq. apply Hdiff. symmetry. exact Heq.
Qed.

(** X24.  The first [append] on a new ledger: [Ledger()] and a positive
    [max_entries] accept it; [max_entries = 0] is replaced by the default
    capacity of a million entries and accepts it too; a negative
    [max_entries] is kept and the ledger refuses every entry with
    [ValueError]. *)
Theorem new_ledger_capacity (max_entries : option Z)
    (tx : SignedTransaction.t) (d : option GateDecision.t) (now : datetime) :
  Ledger._max_entries (Ledger.init max_entries)
  = match max_entries with
    | Some m => if m =? 0 then 1000000 else m
    | None => 1000000
    end
  /\ ((exists r, Ledger.append (Ledger.init max_entries) tx d now = Ok r) <->
      match max_entries with
      | Some m => 0 <= m
      | None => True
      end)
  /\ (match max_entries with
      | Some m => m < 0
      | None => False
      end ->
      raises (Ledger.append (Ledger.init max_entries) tx d now) ValueError).
Proof.
  split; [reflexivity|].
  assert (Hroom : forall l : Ledger.t,
            Ledger._entries l = [] -> 0 < Ledger._max_entries l ->
            exists r, Ledger.append l tx d now = Ok r).
  { intros l Hnil Hpos.
    destruct (append_returns l tx d now) as [e [l' H]];
      [rewrite Hnil; simpl; lia|].
    exists (e, l'). exact H. }
  assert (Hfull : forall l : Ledger.t,
            Ledger._entries l = [] -> Ledger._max_entries l <= 0 ->
            raises (Ledger.append l tx d now) ValueError).
  { intros l Hnil Hneg. apply append_full. rewrite Hnil. simpl. exact Hneg. }
  destruct max_entries as [m|].
  - destruct (Z.eqb_spec m 0) as [->|Hne].
    + split; [|intros H; lia].
      split; [intros _; lia|]. intros _. apply Hroom; [reflexivity|].
      reflexivity.
    + assert (Hmax : Ledger._max_entries (Ledger.init (Some m)) = m).
      { simpl. destruct (Z.eqb_spec m 0); [contradiction | reflexivity]. }
      split; [split|].
      * intros [r Hr]. destruct (Z_lt_le_dec m 0) as [Hlt|Hge]; [|exact Hge].
        destruct (Hfull (Ledger.init (Some m)) eq_refl) as [msg Hm];
          [rewrite Hmax; lia|].
        rewrite Hm in Hr. discriminate Hr.
      * intros Hge. apply Hroom; [reflexivity|]. rewrite Hmax. lia.
      * intros Hlt. apply Hfull; [reflexivity|]. rewrite Hmax. lia.
  - split; [|intros []].
    split; [intros _; exact I|]. intros _. apply Hroom; reflexivity.
Qed.

End LedgerInvariants.

Lemma built_ledger_invariants_witness :
  LedgerEntry.sequence sample_entry = 1
  /\ (Ledger.__len__ sample_ledger = 0
      \/ Ledger.__len__ sample_ledger <= Ledger._max_entries sample_ledger).
Proof.
  destruct (@built_ledger_invariants sample_runtime sample_ledger
              sample_ledger_built) as [_ [Hseq [_ [_ Hcap]]]].
  split; [|exact Hcap].
  refine (proj1 (Hseq 1%nat sample_entry _)). vm_compute. reflexivity.
Defined.

Lemma append_and_queries_witness :
  Ledger.__len__ appended_ledger = Ledger.__len__ sample_ledger + 1
  /\ Ledger.find_by_tx_id appended_ledger "tx-usd" = Some sample_entry.
Proof.
  destruct (@append_and_queries sample_runtime sample_ledger appended_ledger
              (@SignedTransaction.sign sample_runtime dollar_tx) None
              "2026-01-01T00:00:04+00:00" appended_entry)
    as [Hlen [_ [_ [_ [_ [Hfind _]]]]]].
  - vm_compute. reflexivity.
  - split; [exact Hlen|]. rewrite Hfind. vm_compute. reflexivity.
Defined.

Lemma recomputed_entry_witness :
  @Ledger.verify_chain sample_runtime (Ledger.overwrite sample_ledger 1 forged_entry)
  = Ok (false, Some 2).
Proof.
  destruct (@recomputed_entry sample_runtime sample_ledger 1 sample_entry
              forged_entry sample_ledger_built) as [_ Hlate].
  - vm_compute. reflexivity.
  - reflexivity.
  - reflexivity.
  - apply Hlate; vm_compute; discriminate.
Defined.

(** ** The default policy on human and on AI transactions *)

Section DefaultPolicy.
Context {R : Runtime}.

(** The decision of a gate whose policy sets no ceiling, no threshold and
    no source list, and which has no custom check. *)
Lemma evaluate_floor_only (min_confidence : Q) (version name : string)
    (tx : SignedTransaction.t) :
  exists d,
    Gate.evaluate
      (Gate.init (QualificationPolicy.mk min_confidence None None None None
                    version name)) tx = Ok d
    /\ GateDecision.admitted d
       = Qle_bool min_confidence
           (TransactionMetadata.confidence (SignedTransaction.metadata tx))
    /\ GateDecision.requires_human_approval d = false
    /\ GateDecision.policy_version d = version.
Proof.
  unfold Gate.evaluate, Gate._check_confidence, Gate._check_amount,
    Gate._check_human_approval, Gate._check_source, Gate._run_custom_checks.
  simpl.
  destruct (Qle_bool min_confidence
              (TransactionMetadata.confidence (SignedTransaction.metadata tx)));
    simpl; eexists; (split; [reflexivity|]); simpl; repeat split.
Qed.

(** X25.  Under the default policy [QualificationPolicy()] the gate
    returns a decision on every transaction and never asks for a human
    approval: a signed transaction made by [from_human] is admitted,
    whatever its amount and source, and a signed transaction made by
    [from_ai_output] is admitted exactly when its confidence is at least
    0.85. *)
Theorem default_policy_admission (amount : Money.t) (source : string)
    (kw : SignedTransaction.kwargs) (env : SignedTransaction.fresh) :
  (exists d,
     Gate.evaluate (Gate.init QualificationPolicy.default)
       (SignedTransaction.sign
          (SignedTransaction.from_human amount source kw env)) = Ok d
     /\ GateDecision.admitted d = true
     /\ GateDecision.requires_human_approval d = false)
  /\ (forall confidence tx,
        SignedTransaction.from_ai_output amount source confidence kw env = Ok tx ->
        exists d,
          Gate.evaluate (Gate.init QualificationPolicy.default)
            (SignedTransaction.sign tx) = Ok d
          /\ GateDecision.admitted d
             = Qle_bool QualificationPolicy.float_0_85 confidence
          /\ GateDecision.requires_human_approval d = false).
Proof.
  split.
  - destruct (evaluate_floor_only QualificationPolicy.float_0_85 "KQR-2025-01"
                "default"
                (SignedTransaction.sign
                   (SignedTransaction.from_human amount source kw env)))
      as [d [Hd [Hadm [Hh _]]]].
    exists d. split; [exact Hd|]. split; [|exact Hh].
    rewrite Hadm. reflexivity.
  - intros confidence tx Htx.
    destruct (evaluate_floor_only QualificationPolicy.float_0_85 "KQR-2025-01"
                "default" (SignedTransaction.sign tx))
      as [d [Hd [Hadm [Hh _]]]].
    exists d. split; [exact Hd|]. split; [|exact Hh].
    rewrite Hadm. unfold SignedTransaction.from_ai_output in Htx.
    destruct (negb (Qle_bool 0 confidence && Qle_bool confidence 1));
      [discriminate Htx|].
    injection Htx as <-. reflexivity.
Qed.

End DefaultPolicy.

(** ** The workflow: what a run leaves behind *)

Section WorkflowInvariants.
Context {R : Runtime} {World : Type}.

(** The runs of the workflow: either nothing is appended, no callback is
    invoked and the call raises; or the gate returns a decision and the
    transaction, admitted or rejected as decided, is appended with it. *)
Lemma workflow_cases (amount : Money.t) (source : string)
    (confidence : Q) (context : ExecutionContext.t World)
    (rationale : option string) (env : workflow_env) (w : World) :
  let ledger := ExecutionContext.ledger context in
  let policy := ExecutionContext.policy context in
  let signed :=
    SignedTransaction.sign
      (proposed amount source confidence policy rationale env) in
  let out :=
    qualify_and_execute amount source confidence context rationale env w in
  (ledger_after out = ledger /\ world_after out = w
   /\ exists ex, returned out = Raise ex)
  \/ (exists d e l',
        Gate.evaluate (Gate.init policy) signed = Ok d
        /\ Ledger.append ledger
             (if GateDecision.admitted d then SignedTransaction.admit_ signed
              else SignedTransaction.reject signed (GateDecision.reason d))
             (Some d) (env_append_now env) = Ok (e, l')
        /\ ledger_after out = l'
        /\ ((exists ex, returned out = Raise ex)
            \/ (exists st rr,
                  returned out
                  = Ok (GateDecision.admitted d,
                        SignedTransaction.mk (SignedTransaction.tx_id signed)
                          (SignedTransaction.amount signed)
                          (SignedTransaction.metadata signed)
                          (SignedTransaction.signature signed) st rr, d)
                  /\ (st = "executed" /\ rr = None
                      /\ GateDecision.admitted d = true
                      \/ st = "rejected" /\ rr <> None)))).
Proof.
  intros ledger policy signed out.
  unfold out, qualify_and_execute, SignedTransaction.from_ai_output.
  destruct (negb (Qle_bool 0 confidence && Qle_bool confidence 1)).
  { left. simpl. repeat split. eexists. reflexivity. }
  change (SignedTransaction.sign _) with signed. fold policy. fold ledger.
  destruct (Gate.evaluate (Gate.init policy) signed) as [d|ex] eqn:Hgate.
  2:{ left. simpl. repeat split. eexists. reflexivity. }
  destruct (GateDecision.admitted d) eqn:Hadm.
  - destruct (Ledger.append ledger (SignedTransaction.admit_ signed) (Some d)
                (env_append_now env)) as [[e l']|ex] eqn:Happ.
    2:{ left. simpl. repeat split. eexists. reflexivity. }
    right. exists d, e, l'. rewrite Hadm. split; [reflexivity|].
    split; [exact Happ|].
    destruct (ExecutionContext.on_execute context
                (SignedTransaction.amount (SignedTransaction.admit_ signed)) w)
      as [[ex|] w1]; simpl.
    + destruct (ExecutionContext.on_reject context (exn_msg ex) w1)
        as [[ex'|] w2]; simpl; split; try reflexivity.
      * left. eexists. reflexivity.
      * right. do 2 eexists. split; [reflexivity|]. right.
        split; [reflexivity | discriminate].
    + split; [reflexivity|]. right. do 2 eexists. split; [reflexivity|].
      left. repeat split.
  - destruct (Ledger.append ledger
                (SignedTransaction.reject signed (GateDecision.reason d))
                (Some d) (env_append_now env)) as [[e l']|ex] eqn:Happ.
    2:{ left. simpl. repeat split. eexists. reflexivity. }
    right. exists d, e, l'. rewrite Hadm. split; [reflexivity|].
    split; [exact Happ|].
    destruct (ExecutionContext.on_reject context (GateDecision.reason d) w)
      as [[ex|] w1]; simpl; split; try reflexivity.
    + left. eexists. reflexivity.
    + right. do 2 eexists. split; [reflexivity|]. right.
      split; [reflexivity | discriminate].
Qed.

(** X26.  A run of the workflow keeps the ledger well formed: started on a
    ledger built by [append], it ends, whether it returns or raises, on a
    ledger built by [append], on which [verify_chain] returns
    [(True, None)]. *)
Theorem workflow_keeps_chain (amount : Money.t) (source : string)
    (confidence : Q) (context : ExecutionContext.t World)
    (rationale : option string) (env : workflow_env) (w : World) :
  let out :=
    qualify_and_execute amount source confidence context rationale env w in
  built (ExecutionContext.ledger context) ->
  built (ledger_after out)
  /\ Ledger.verify_chain (ledger_after out) = Ok (true, None).
Proof.
  intros out Hb.
  assert (Hb' : built (ledger_after out)).
  { destruct (workflow_cases amount source confidence context rationale env w)
      as [[Hl _] | [d [e [l' [_ [Happ [Hl _]]]]]]]; fold out in Hl; rewrite Hl.
    - exact Hb.
    - exact (built_append _ _ _ _ _ _ Hb Happ). }
  split; [exact Hb'|]. apply verify_chain_chained, built_chained, Hb'.
Qed.

(** X27.  What a run writes.  Either it appends nothing, and then it
    raises and no callback was invoked; or it appends exactly one entry
    after the stored ones, whose transaction has the proposed amount, a
    signature that verifies and the status admitted or rejected as the
    recorded decision says.  No run records a transaction as executed: the
    entries found by [find_by_status] for the status executed are those of
    before. *)
Theorem workflow_log (amount : Money.t) (source : string)
    (confidence : Q) (context : ExecutionContext.t World)
    (rationale : option string) (env : workflow_env) (w : World) :
  let ledger := ExecutionContext.ledger context in
  let out :=
    qualify_and_execute amount source confidence context rationale env w in
  ((ledger_after out = ledger /\ world_after out = w
    /\ exists ex, returned out = Raise ex)
   \/ (exists e d,
         Ledger._entries (ledger_after out) = Ledger._entries ledger ++ [e]
         /\ LedgerEntry.decision e = Some d
         /\ SignedTransaction.amount (LedgerEntry.transaction e) = amount
         /\ SignedTransaction.verify_signature (LedgerEntry.transaction e) = true
         /\ SignedTransaction.status (LedgerEntry.transaction e)
            = (if GateDecision.admitted d then "admitted" else "rejected")))
  /\ Ledger.find_by_status (ledger_after out) "executed"
     = Ledger.find_by_status ledger "executed".
Proof.
  intros ledger out.
  destruct (workflow_cases amount source confidence context rationale env w)
    as [[Hl [Hw Hr]] | [d [e [l' [_ [Happ [Hl _]]]]]]];
    fold out in Hl; fold ledger in Hl.
  - split; [|rewrite Hl; reflexivity].
    left. split; [exact Hl|]. split; [exact Hw | exact Hr].
  - fold ledger in Happ. apply append_spec in Happ.
    destruct Happ as [He [_ [_ Hentry]]].
    assert (Htx : LedgerEntry.transaction e
                  = if GateDecision.admitted d
                    then SignedTransaction.admit_
                           (SignedTransaction.sign
                              (proposed amount source confidence
                                 (ExecutionContext.policy context) rationale env))
                    else SignedTransaction.reject
                           (SignedTransaction.sign
                              (proposed amount source confidence
                                 (ExecutionContext.policy context) rationale env))
                           (GateDecision.reason d))
      by (rewrite Hentry; reflexivity).
    assert (Hd : LedgerEntry.decision e = Some d)
      by (rewrite Hentry; reflexivity).
    split.
    + right. exists e, d. rewrite Hl. split; [exact He|]. split; [exact Hd|].
      rewrite Htx.
      destruct (GateDecision.admitted d); repeat split;
        apply verify_signature_sign.
    + rewrite Hl. unfold Ledger.find_by_status. rewrite He, filter_app.
      rewrite filter_cons, filter_nil, Htx.
      destruct (GateDecision.admitted d); simpl; apply app_nil_r.
Qed.

(** X28.  What a run returns.  When the call returns [(flag, tx, d)]:
    [d] is the decision of the gate on the signed proposal and [flag] is
    its [admitted] field, also when the execution failed; [tx] carries the
    proposed amount and the drawn identifier and its signature verifies; it
    is executed, and then the gate admitted it, or rejected with a reason;
    and the ledger has grown by exactly one entry. *)
Theorem workflow_result (amount : Money.t) (source : string)
    (confidence : Q) (context : ExecutionContext.t World)
    (rationale : option string) (env : workflow_env) (w : World)
    (flag : bool) (tx : SignedTransaction.t) (d : GateDecision.t) :
  let ledger := ExecutionContext.ledger context in
  let policy := ExecutionContext.policy context in
  let out :=
    qualify_and_execute amount source confidence context rationale env w in
  returned out = Ok (flag, tx, d) ->
  Gate.evaluate (Gate.init policy)
    (SignedTransaction.sign
       (proposed amount source confidence policy rationale env)) = Ok d
  /\ flag = GateDecision.admitted d
  /\ SignedTransaction.amount tx = amount
  /\ SignedTransaction.tx_id tx = SignedTransaction.tx_uuid (env_tx env)
  /\ SignedTransaction.verify_signature tx = true
  /\ (SignedTransaction.status tx = "executed"
      /\ SignedTransaction.rejection_reason tx = None /\ flag = true
      \/ SignedTransaction.status tx = "rejected"
         /\ SignedTransaction.rejection_reason tx <> None)
  /\ Ledger.__len__ (ledger_after out) = Ledger.__len__ ledger + 1.
Proof.
  intros ledger policy out Hret.
  destruct (workflow_cases amount source confidence context rationale env w)
    as [[_ [_ [ex Hr]]] | [d' [e [l' [Hgate [Happ [Hl Hr]]]]]]];
    fold out in Hr; try fold out in Hl.
  { rewrite Hr in Hret. discriminate Hret. }
  destruct Hr as [[ex Hr] | [st [rr [Hr Hst]]]];
    [rewrite Hr in Hret; discriminate Hret|].
  rewrite Hr in Hret. injection Hret as <- <- <-.
  fold policy in Hgate.
  split; [exact Hgate|]. split; [reflexivity|]. split; [reflexivity|].
  split; [reflexivity|]. split.
  { rewrite <- (verify_signature_sign
                  (proposed amount source confidence policy rationale env)).
    apply verify_signature_ext; reflexivity. }
  split.
  - simpl. destruct Hst as [[-> [-> Ht]] | [-> Hrr]];
      [left; repeat split; exact Ht | right; split; [reflexivity | exact Hrr]].
  - rewrite Hl. apply append_spec in Happ. destruct Happ as [He _].
    unfold Ledger.__len__. rewrite He, length_app. simpl.
    fold ledger. lia.
Qed.

End WorkflowInvariants.

Lemma workflow_keeps_chain_witness :
  @Ledger.verify_chain sample_runtime (ledger_after failing_run) = Ok (true, None).
Proof.
  refine (proj2 (@workflow_keeps_chain sample_runtime (list call)
                   (Money.euro 100) "test-model" (92 # 100) failing_context
                   None sample_env [] _)).
  apply (@built_init sample_runtime None).
Defined.

Lemma workflow_result_witness :
  fst (fst failing_run_result) = GateDecision.admitted (snd failing_run_result)
  /\ SignedTransaction.status (snd (fst failing_run_result)) = "rejected"
  /\ Ledger.__len__ (ledger_after failing_run) = 1.
Proof.
  destruct (@workflow_result sample_runtime (list call) (Money.euro 100)
              "test-model" (92 # 100) failing_context None sample_env []
              (fst (fst failing_run_result)) (snd (fst failing_run_result))
              (snd failing_run_result))
    as [_ [Hflag [_ [_ [_ [_ Hlen]]]]]].
  - vm_compute. reflexivity.
  - split; [exact Hflag|]. split; [vm_compute; reflexivity | exact Hlen].
Defined.
